(** * wasi-go: the Unix provider of WASI preview 1

    A shallow embedding of [wasiunix/provider.go] and of the rights algebra
    of the [wasi] package, with the properties of the descriptor table, the
    capability checks, directory enumeration and polling proved over it,
    followed by the request registry of [imports/wasi_http/types]. *)

From Stdlib Require Import ZArith Lia Bool Ascii String List.
From stdpp Require Import base option list gmap strings pretty sorting.

Local Open Scope Z_scope.

(** ** Package [wasi]: rights, flags, errors and the ABI records *)

Module wasi.

(** [type Rights uint64]: a bit set, bit [i] being the [i]-th named right. *)
Definition Rights := Z.

Definition FDDataSyncRight : Rights := Z.shiftl 1 0.
Definition FDReadRight : Rights := Z.shiftl 1 1.
Definition FDSeekRight : Rights := Z.shiftl 1 2.
Definition FDStatSetFlagsRight : Rights := Z.shiftl 1 3.
Definition FDSyncRight : Rights := Z.shiftl 1 4.
Definition FDTellRight : Rights := Z.shiftl 1 5.
Definition FDWriteRight : Rights := Z.shiftl 1 6.
Definition FDAdviseRight : Rights := Z.shiftl 1 7.
Definition FDAllocateRight : Rights := Z.shiftl 1 8.
Definition PathCreateDirectoryRight : Rights := Z.shiftl 1 9.
Definition PathCreateFileRight : Rights := Z.shiftl 1 10.
Definition PathLinkSourceRight : Rights := Z.shiftl 1 11.
Definition PathLinkTargetRight : Rights := Z.shiftl 1 12.
Definition PathOpenRight : Rights := Z.shiftl 1 13.
Definition FDReadDirRight : Rights := Z.shiftl 1 14.
Definition PathRenameSourceRight : Rights := Z.shiftl 1 16.
Definition PathRenameTargetRight : Rights := Z.shiftl 1 17.
Definition PathFileStatGetRight : Rights := Z.shiftl 1 18.
Definition PathFileStatSetSizeRight : Rights := Z.shiftl 1 19.
Definition PathFileStatSetTimesRight : Rights := Z.shiftl 1 20.
Definition FDFileStatGetRight : Rights := Z.shiftl 1 21.
Definition FDFileStatSetSizeRight : Rights := Z.shiftl 1 22.
Definition FDFileStatSetTimesRight : Rights := Z.shiftl 1 23.
Definition PathSymlinkRight : Rights := Z.shiftl 1 24.
Definition PathRemoveDirectoryRight : Rights := Z.shiftl 1 25.
Definition PathUnlinkFileRight : Rights := Z.shiftl 1 26.
Definition PollFDReadWriteRight : Rights := Z.shiftl 1 27.
Definition SockShutdownRight : Rights := Z.shiftl 1 28.
Definition SockAcceptRight : Rights := Z.shiftl 1 29.

Definition AllRights : Rights := Z.shiftl 1 30 - 1.

Definition ReadRights : Rights := Z.lor FDReadRight FDReadDirRight.

Definition WriteRights : Rights :=
  Z.lor (Z.lor (Z.lor FDWriteRight FDAllocateRight) PathFileStatSetSizeRight)
        FDDataSyncRight.

(** [func (flags Rights) Has(f Rights) bool]: all the bits of [f] are set. *)
Definition Has (flags f : Rights) : bool := Z.land flags f =? f.

(** [func (flags Rights) HasAny(f Rights) bool]: some bit of [f] is set. *)
Definition HasAny (flags f : Rights) : bool := negb (Z.land flags f =? 0).

(** Go's [a &^ b] (and-not) on unsigned words. *)
Definition andnot (a b : Z) : Z := Z.ldiff a b.

(** Modelled from the spec: [wasi.Errno] is declared outside the sources
    at hand; these are the codes section 7 of the specification names. *)
Inductive Errno :=
| ESUCCESS | EACCES | EAGAIN | EBADF | EBUSY | ECANCELED | EEXIST | EFAULT
| EFBIG | EINTR | EINVAL | EIO | EISDIR | ELOOP | ENAMETOOLONG | ENFILE
| ENOENT | ENOMEM | ENOSPC | ENOSYS | ENOTCAPABLE | ENOTDIR | ENOTEMPTY
| ENOTSOCK | ENOTSUP | EPERM | EPIPE | ERANGE | EROFS | ESPIPE | ETIMEDOUT
| EXDEV.

#[global] Instance Errno_eq_dec : EqDecision Errno.
Proof. solve_decision. Defined.

(** Modelled from the spec: [wasi.FileType], declared outside the sources
    at hand, an enumeration of the kinds of file a descriptor may denote. *)
Inductive FileType :=
| UnknownType | BlockDeviceType | CharacterDeviceType | DirectoryType
| RegularFileType | SocketDGramType | SocketStreamType | SymbolicLinkType.

#[global] Instance FileType_eq_dec : EqDecision FileType.
Proof. solve_decision. Defined.

(** Modelled from the spec: [wasi.FDFlags] (append, dsync, nonblock, rsync,
    sync) with the bit positions of the WASI ABI, and its [Has] method,
    which follows [Rights.Has]: every bit of the argument is set. *)
Definition FDFlags := Z.
Definition Append : FDFlags := Z.shiftl 1 0.
Definition DSync : FDFlags := Z.shiftl 1 1.
Definition NonBlock : FDFlags := Z.shiftl 1 2.
Definition RSync : FDFlags := Z.shiftl 1 3.
Definition Sync : FDFlags := Z.shiftl 1 4.

(** Modelled from the spec: [wasi.OpenFlags] and [wasi.LookupFlags] with the
    bit positions of the WASI ABI. *)
Definition OpenFlags := Z.
Definition OpenCreate : OpenFlags := Z.shiftl 1 0.
Definition OpenDirectory : OpenFlags := Z.shiftl 1 1.
Definition OpenExclusive : OpenFlags := Z.shiftl 1 2.
Definition OpenTruncate : OpenFlags := Z.shiftl 1 3.

Definition LookupFlags := Z.
Definition SymlinkFollow : LookupFlags := Z.shiftl 1 0.

(** [wasi.FDStat]. *)
Record FDStat := mkFDStat {
  StatFileType : FileType;
  Flags : FDFlags;
  RightsBase : Rights;
  RightsInheriting : Rights
}.

(** Modelled from the spec: [wasi.Whence] with the values of the WASI ABI;
    any other value of the underlying byte is possible. *)
Definition Whence := Z.
Definition SeekStart : Whence := 0.
Definition SeekCurrent : Whence := 1.
Definition SeekEnd : Whence := 2.

(** Modelled from the spec: [wasi.ClockID] with the values of the WASI ABI. *)
Definition ClockID := Z.
Definition Realtime : ClockID := 0.
Definition Monotonic : ClockID := 1.
Definition ProcessCPUTimeID : ClockID := 2.
Definition ThreadCPUTimeID : ClockID := 3.

Definition SubscriptionClockFlags := Z.
Definition Abstime : SubscriptionClockFlags := Z.shiftl 1 0.

(** Modelled from the spec: a subscription is a tagged record, either a
    clock [{id, timeout, flags}] or a descriptor readiness request in one
    of two directions; the tag is the event type. *)
Inductive EventType := ClockEvent | FDReadEvent | FDWriteEvent.

#[global] Instance EventType_eq_dec : EqDecision EventType.
Proof. solve_decision. Defined.

Record SubscriptionClock := mkSubscriptionClock {
  ID : ClockID;
  Timeout : Z;            (* uint64 nanoseconds *)
  Precision : Z;
  ClockFlags : SubscriptionClockFlags
}.

Record SubscriptionFDReadWrite := mkSubscriptionFDReadWrite {
  FD : Z
}.

Record Subscription := mkSubscription {
  UserData : Z;
  SubEventType : EventType;
  GetClock : SubscriptionClock;
  GetFDReadWrite : SubscriptionFDReadWrite
}.

Definition EventFDReadWriteFlags := Z.
Definition Hangup : EventFDReadWriteFlags := Z.shiftl 1 0.

(** Modelled from the spec: an event
    [{user_data, event_type, errno, fd_readwrite:{n_bytes, flags}}]. *)
Record Event := mkEvent {
  EvUserData : Z;
  EvErrno : Errno;
  EvEventType : EventType;
  EvNBytes : Z;
  EvFlags : EventFDReadWriteFlags
}.

(** [wasi.DirEntry] and [wasi.DirEntryName]. *)
Record DirEntry := mkDirEntry {
  Next : Z;
  INode : Z;
  NameLength : Z;
  EntryType : FileType
}.

Record DirEntryName := mkDirEntryName {
  Entry : DirEntry;
  Name : string
}.

(** [var rightsStrings]: the names of the rights, by bit position. *)
Definition rightsStrings : list string :=
  [ "FDDataSyncRight"; "FDReadRight"; "FDSeekRight"; "FDStatSetFlagsRight";
    "FDSyncRight"; "FDTellRight"; "FDWriteRight"; "FDAdviseRight";
    "FDAllocateRight"; "PathCreateDirectoryRight"; "PathCreateFileRight";
    "PathLinkSourceRight"; "PathLinkTargetRight"; "PathOpenRight";
    "FDReadDirRight"; "PathReadLinkRight"; "PathRenameSourceRight";
    "PathRenameTargetRight"; "PathFileStatGetRight";
    "PathFileStatSetSizeRight"; "PathFileStatSetTimesRight";
    "FDFileStatGetRight"; "FDFileStatSetSizeRight"; "FDFileStatSetTimesRight";
    "PathSymlinkRight"; "PathRemoveDirectoryRight"; "PathUnlinkFileRight";
    "PollFDReadWriteRight"; "SockShutdownRight"; "SockAcceptRight" ]%string.

(** The loop of [String], [for i, name := range rightsStrings], over the
    names still ahead, [i] being the index of the first of them and [s] the
    string built so far. *)
Fixpoint stringLoop (flags : Rights) (i : Z) (names : list string) (s : string)
    : string :=
  match names with
  | [] => s
  | name :: rest =>
      if negb (Has flags (Z.shiftl 1 i)) then stringLoop flags (i + 1) rest s
      else
        let s := if (0 <? String.length s)%nat then (s ++ "|")%string else s in
        stringLoop flags (i + 1) rest (s ++ name)%string
  end.

(** [func (flags Rights) String() (s string)]; [fmt.Sprintf] with [%d]
    prints the decimal numeral of the word. *)
Definition String (flags : Rights) : string :=
  if flags =? 0 then "Rights(0)"
  else if Has flags AllRights then "AllRights"
  else
    let s := stringLoop flags 0 rightsStrings "" in
    if (String.length s =? 0)%nat
    then ("Rights(" ++ pretty flags ++ ")")%string
    else s.

(** Modelled from the spec: [wasi.PreStat], what [fd_prestat_get] publishes
    about a pre-open: its kind and the length of its path. *)
Inductive PreOpenType := PreOpenDir.

Record PreStatDir := mkPreStatDir {
  PreStatNameLength : Z   (* wasi.Size, a uint32 *)
}.

Record PreStat := mkPreStat {
  PreStatType : PreOpenType;
  GetPreStatDir : PreStatDir
}.

(** Modelled from the spec: [wasi.SDFlags] with the bit positions of the
    WASI ABI; its [Has] method follows [Rights.Has]. *)
Definition SDFlags := Z.
Definition ShutdownRD : SDFlags := Z.shiftl 1 0.
Definition ShutdownWR : SDFlags := Z.shiftl 1 1.

(** [wasi.IOVec], a [[]byte]. *)
Definition IOVec := list Z.

End wasi.

(** ** Go's [path/filepath] and [strings], as used by the provider (Unix) *)

Module filepath.

Definition isPathSeparator (c : ascii) : bool := Ascii.eqb c "/"%char.
Definition isDot (c : ascii) : bool := Ascii.eqb c "."%char.

(** The next byte, if any, is a separator: [r+1 == n || IsPathSeparator(path[r+1])]. *)
Definition endOrSeparator (rest : list ascii) : bool :=
  match rest with
  | [] => true
  | c :: _ => isPathSeparator c
  end.

(** The [..] case of [Clean] when it can backtrack: [out.w--], then
    [for out.w > dotdot && !IsPathSeparator(out.index(out.w)) { out.w-- }].
    The output buffer is kept reversed, its last byte first. *)
Fixpoint backtrack (rout : list ascii) (dotdot : nat) : list ascii :=
  match rout with
  | [] => []
  | c :: r =>
      if (dotdot <? length r)%nat && negb (isPathSeparator c)
      then backtrack r dotdot
      else r
  end.

(** Copy of a path element: [for ; r < n && !IsPathSeparator(path[r]); r++]. *)
Fixpoint copyElement (rest rout : list ascii) : list ascii * list ascii :=
  match rest with
  | [] => ([], rout)
  | c :: rest' =>
      if isPathSeparator c then (rest, rout) else copyElement rest' (c :: rout)
  end.

(** The main loop of [Clean]: [rest] is [path[r:]], [rout] the reversed
    output, [dotdot] the index where [..] must stop. Every iteration
    consumes at least one byte, so [fuel = len(path)] iterations suffice. *)
Fixpoint cleanLoop (fuel : nat) (rooted : bool) (rest rout : list ascii)
    (dotdot : nat) : list ascii :=
  match fuel with
  | O => rout
  | S fuel' =>
      match rest with
      | [] => rout
      | c :: r1 =>
          if isPathSeparator c then
            (* empty path element *)
            cleanLoop fuel' rooted r1 rout dotdot
          else if isDot c && endOrSeparator r1 then
            (* . element *)
            cleanLoop fuel' rooted r1 rout dotdot
          else if isDot c && match r1 with
                             | c1 :: r2 => isDot c1 && endOrSeparator r2
                             | [] => false
                             end then
            (* .. element: remove to last separator *)
            let r2 := tl r1 in
            if (dotdot <? length rout)%nat then
              cleanLoop fuel' rooted r2 (backtrack rout dotdot) dotdot
            else if negb rooted then
              let rout1 := if (0 <? length rout)%nat
                           then "/"%char :: rout else rout in
              let rout2 := "."%char :: "."%char :: rout1 in
              cleanLoop fuel' rooted r2 rout2 (length rout2)
            else
              cleanLoop fuel' rooted r2 rout dotdot
          else
            (* real path element: add slash if needed, copy element *)
            let rout1 :=
              if (rooted && negb (length rout =? 1)%nat)
                 || (negb rooted && negb (length rout =? 0)%nat)
              then "/"%char :: rout else rout in
            let '(rest', rout2) := copyElement rest rout1 in
            cleanLoop fuel' rooted rest' rout2 dotdot
      end
  end.

(** [filepath.Clean] on Unix (no volume names, [/] the only separator). *)
Definition Clean (path : string) : string :=
  match list_ascii_of_string path with
  | [] => "."
  | (c :: rest) as p =>
      let rooted := isPathSeparator c in
      let out :=
        if rooted
        then cleanLoop (length p) true rest ["/"%char] 1
        else cleanLoop (length p) false p [] 0 in
      match out with
      | [] => "."
      | _ => string_of_list_ascii (rev out)
      end
  end.

(** [filepath.Join] of two elements: empty elements are ignored, the rest
    joined with a separator and cleaned; all empty gives the empty string. *)
Definition Join (a b : string) : string :=
  if String.eqb a "" then
    if String.eqb b "" then "" else Clean b
  else Clean (a ++ "/" ++ b).

End filepath.

Module strings.

(** [strings.HasPrefix(s, prefix)]. *)
Definition HasPrefix (s prefix : string) : bool := String.prefix prefix s.

End strings.

(** ** The host: [golang.org/x/sys/unix], [os] and [time], seen from the provider *)

Module unix.

(** The POSIX error numbers the provider can meet. *)
Inductive Errno :=
| EACCES | EAGAIN | EBADF | EBUSY | EEXIST | EFAULT | EFBIG | EINTR | EINVAL
| EIO | EISDIR | ELOOP | ENAMETOOLONG | ENFILE | ENOENT | ENOMEM | ENOSPC
| ENOSYS | ENOTDIR | ENOTEMPTY | ENOTSUP | EPERM | EPIPE | ERANGE | EROFS
| ESPIPE | ETIMEDOUT | EXDEV.

(** A non-nil Go [error] coming from the host: a [syscall.Errno], or any
    other error value. *)
Inductive error :=
| SyscallErrno (e : Errno)
| OtherError.

(** Constants of linux/amd64. *)
Definition O_RDONLY : Z := 0x0.
Definition O_WRONLY : Z := 0x1.
Definition O_RDWR : Z := 0x2.
Definition O_CREAT : Z := 0x40.
Definition O_EXCL : Z := 0x80.
Definition O_TRUNC : Z := 0x200.
Definition O_APPEND : Z := 0x400.
Definition O_NONBLOCK : Z := 0x800.
Definition O_DSYNC : Z := 0x1000.
Definition O_DIRECTORY : Z := 0x10000.
Definition O_NOFOLLOW : Z := 0x20000.
Definition O_CLOEXEC : Z := 0x80000.
Definition O_SYNC : Z := 0x101000.

Definition F_GETFL : Z := 3.
Definition F_SETFL : Z := 4.

Definition SEEK_SET : Z := 0.
Definition SEEK_CUR : Z := 1.
Definition SEEK_END : Z := 2.

Definition POLLIN : Z := 0x1.
Definition POLLOUT : Z := 0x4.
Definition POLLERR : Z := 0x8.
Definition POLLHUP : Z := 0x10.

(** [unix.PollFd]. *)
Record PollFd := mkPollFd {
  Fd : Z;        (* int32 *)
  Events : Z;    (* int16 *)
  Revents : Z    (* int16 *)
}.

(** The part of [syscall.Stat_t] that the provider reads. *)
Record Stat_t := mkStat_t {
  Mode : Z;
  Ino : Z
}.

(** The host calls the provider issues, with their arguments. The provider
    state keeps the chronological list of the calls it has made. *)
Inductive Syscall :=
| Close (fd : Z)
| FcntlInt (fd cmd arg : Z)
| Openat (dirfd : Z) (path : string) (flags mode : Z)
| Lseek (fd offset whence : Z)
| Poll (fds : list PollFd) (timeout : Z)
| ReadDir (name : string)
| Stat (name : string)
| Lstat (name : string)
| Sleep (d : Z).

(** What the host answers. Each answer may depend on the whole history of
    calls made so far, so the host is an arbitrary deterministic
    environment. An error is on the left, a result on the right. *)
Record Host := mkHost {
  close : list Syscall -> Z -> option error;
  fcntlInt : list Syscall -> Z -> Z -> Z -> error + Z;
  openat : list Syscall -> Z -> string -> Z -> Z -> error + Z;
  (** [lseek] returns its offset together with its error. *)
  lseek : list Syscall -> Z -> Z -> Z -> Z * option error;
  (** [unix.Poll] returns the count [n] and stores a [Revents] for the slot
      at each index. *)
  poll : list Syscall -> list PollFd -> Z -> error + (Z * (nat -> Z));
  (** [os.ReadDir]: the names of the directory entries. *)
  readDir : list Syscall -> string -> error + list string;
  (** [os.Stat] and [os.Lstat]. *)
  stat : list Syscall -> string -> error + Stat_t;
  lstat : list Syscall -> string -> error + Stat_t;
  (** The timer of [PollOneOff] racing the context: [None] when the timer
      fires, [Some err] when the context is done first with [ctx.Err()]. *)
  sleep : list Syscall -> Z -> option error
}.

End unix.

(** Modelled from the spec: the descriptor table of [internal/descriptor],
    which is outside the sources at hand. It maps guest descriptor numbers
    to items; [Insert] uses the smallest non-negative free slot, [Assign]
    places an item at an explicit slot and returns the prior occupant if
    any, [Delete] frees a slot. *)
Module descriptor.

Section Table.
Context {Item : Type}.

(** The first free slot at or after [k], looking at most [fuel] slots
    further. *)
Fixpoint firstFree (t : gmap Z Item) (k : Z) (fuel : nat) : Z :=
  match fuel with
  | O => k
  | S fuel' =>
      match t !! k with
      | Some _ => firstFree t (k + 1) fuel'
      | None => k
      end
  end.

Definition Insert (t : gmap Z Item) (item : Item) : gmap Z Item * Z :=
  let key := firstFree t 0 (size t) in
  (<[key := item]> t, key).

Definition Assign (t : gmap Z Item) (key : Z) (item : Item)
  : gmap Z Item * option Item :=
  (<[key := item]> t, t !! key).

Definition Lookup (t : gmap Z Item) (key : Z) : option Item := t !! key.

Definition Delete (t : gmap Z Item) (key : Z) : gmap Z Item := delete key t.

Definition Reset (t : gmap Z Item) : gmap Z Item := ∅.
End Table.

End descriptor.

(** ** Package [wasiunix]: the provider *)

Module wasiunix.

(** Go's fixed-width conversions. *)
Definition int64 (z : Z) : Z := (z + 2 ^ 63) mod 2 ^ 64 - 2 ^ 63.
Definition int32 (z : Z) : Z := (z + 2 ^ 31) mod 2 ^ 32 - 2 ^ 31.
Definition uint32 (z : Z) : Z := z mod 2 ^ 32.
Definition uint64 (z : Z) : Z := z mod 2 ^ 64.
Definition uintptr (z : Z) : Z := z mod 2 ^ 64.
Definition MaxInt : Z := 2 ^ 63 - 1.

(** [len(s)] of a Go string. *)
Definition len (s : string) : Z := Z.of_nat (String.length s).

(** The values behind [os.DirEntry] in a cached listing: the entries
    [os.ReadDir] returns, whose [Info] asks the host again with [Lstat] on
    [parent/name], and the provider's own [statDirEntry], which carries the
    [os.FileInfo] it was built with. *)
Inductive DirEntry :=
| unixDirent (parent name : string)
| statDirEntry (name : string) (info : unix.Stat_t).

Definition Name (d : DirEntry) : string :=
  match d with
  | unixDirent _ name => name
  | statDirEntry name _ => name
  end.

(** [type fdinfo struct]. *)
Module fdinfo.
Record t := mk {
  path : string;
  fd : Z;
  stat : wasi.FDStat;
  dirEntries : list DirEntry
}.
End fdinfo.

#[global] Instance fdinfo_inhabited : Inhabited fdinfo.t :=
  populate (fdinfo.mk "" 0 (wasi.mkFDStat wasi.UnknownType 0 0 0) []).

(** The table holds pointers [*fdinfo]; [loc] is the address of an
    [fdinfo] on the Go heap. *)
Definition loc := nat.

(** [type Provider struct]: the descriptor table, the pre-open set and the
    poll scratch buffer, together with the heap the table points into and
    the list of host calls made so far. The configuration fields ([Args],
    [Environ], clocks, hooks, [Rand]) play no part in the operations below. *)
Record Provider := mkProvider {
  fds : gmap Z loc;
  preopens : gmap Z unit;
  pollfds : list unix.PollFd;
  heap : gmap loc fdinfo.t;
  syscalls : list unix.Syscall
}.

Definition setFds (p : Provider) (t : gmap Z loc) : Provider :=
  mkProvider t (preopens p) (pollfds p) (heap p) (syscalls p).
Definition setPreopens (p : Provider) (t : gmap Z unit) : Provider :=
  mkProvider (fds p) t (pollfds p) (heap p) (syscalls p).
Definition setPollfds (p : Provider) (l : list unix.PollFd) : Provider :=
  mkProvider (fds p) (preopens p) l (heap p) (syscalls p).
Definition setHeap (p : Provider) (m : gmap loc fdinfo.t) : Provider :=
  mkProvider (fds p) (preopens p) (pollfds p) m (syscalls p).

(** Record that the host call [c] was made. *)
Definition called (p : Provider) (c : unix.Syscall) : Provider :=
  mkProvider (fds p) (preopens p) (pollfds p) (heap p) (syscalls p ++ [c]).

(** [*f]: the object a table item points to. *)
Definition deref (p : Provider) (f : loc) : fdinfo.t := heap p !!! f.

(** [*f = v]. *)
Definition store (p : Provider) (f : loc) (v : fdinfo.t) : Provider :=
  setHeap p (<[f := v]> (heap p)).

(** [&fdinfo{...}]: a new object at an address not in use. *)
Definition new (p : Provider) (v : fdinfo.t) : Provider * loc :=
  let f := fresh (dom (heap p)) in
  (setHeap p (<[f := v]> (heap p)), f).

(** The entry a guest descriptor refers to, if it is live. *)
Definition entry (p : Provider) (guestfd : Z) : option fdinfo.t :=
  deref p <$> fds p !! guestfd.

(** Modelled from the spec: [makeErrno], defined outside the sources at
    hand. A successful host call maps to [ESUCCESS], a host error number to
    the WASI code of the same name, any other failure to [EIO]. *)
Definition makeErrno (err : option unix.error) : wasi.Errno :=
  match err with
  | None => wasi.ESUCCESS
  | Some unix.OtherError => wasi.EIO
  | Some (unix.SyscallErrno e) =>
      match e with
      | unix.EACCES => wasi.EACCES | unix.EAGAIN => wasi.EAGAIN
      | unix.EBADF => wasi.EBADF | unix.EBUSY => wasi.EBUSY
      | unix.EEXIST => wasi.EEXIST | unix.EFAULT => wasi.EFAULT
      | unix.EFBIG => wasi.EFBIG | unix.EINTR => wasi.EINTR
      | unix.EINVAL => wasi.EINVAL | unix.EIO => wasi.EIO
      | unix.EISDIR => wasi.EISDIR | unix.ELOOP => wasi.ELOOP
      | unix.ENAMETOOLONG => wasi.ENAMETOOLONG | unix.ENFILE => wasi.ENFILE
      | unix.ENOENT => wasi.ENOENT | unix.ENOMEM => wasi.ENOMEM
      | unix.ENOSPC => wasi.ENOSPC | unix.ENOSYS => wasi.ENOSYS
      | unix.ENOTDIR => wasi.ENOTDIR | unix.ENOTEMPTY => wasi.ENOTEMPTY
      | unix.ENOTSUP => wasi.ENOTSUP | unix.EPERM => wasi.EPERM
      | unix.EPIPE => wasi.EPIPE | unix.ERANGE => wasi.ERANGE
      | unix.EROFS => wasi.EROFS | unix.ESPIPE => wasi.ESPIPE
      | unix.ETIMEDOUT => wasi.ETIMEDOUT | unix.EXDEV => wasi.EXDEV
      end
  end.

(** What a descriptor lookup returns: [(f, ESUCCESS)] or [(nil, errno)]. *)
Inductive lookupResult :=
| Found (f : loc)
| Failed (errno : wasi.Errno).

(** What a call that may panic does. *)
Inductive outcome (A : Type) :=
| Returns (a : A)
| Panics (msg : string).
Arguments Returns {A} a.
Arguments Panics {A} msg.

(** [func (p *Provider) Preopen]. *)
Definition Preopen (p : Provider) (hostfd : Z) (path : string)
    (fdstat : wasi.FDStat) : Provider :=
  let fdstat :=
    wasi.mkFDStat (wasi.StatFileType fdstat) (wasi.Flags fdstat)
      (Z.land (wasi.RightsBase fdstat) wasi.AllRights)
      (Z.land (wasi.RightsInheriting fdstat) wasi.AllRights) in
  let '(p1, f) := new p (fdinfo.mk path hostfd fdstat []) in
  let '(t, guestfd) := descriptor.Insert (fds p1) f in
  let '(pre, _) := descriptor.Assign (preopens p1) guestfd () in
  setPreopens (setFds p1 t) pre.

(** [func (p *Provider) isPreopen]. *)
Definition isPreopen (p : Provider) (fd : Z) : bool :=
  match descriptor.Lookup (preopens p) fd with
  | Some _ => true
  | None => false
  end.

(** [func (p *Provider) lookupFD]. *)
Definition lookupFD (p : Provider) (guestfd : Z) (rights : wasi.Rights)
    : lookupResult :=
  match descriptor.Lookup (fds p) guestfd with
  | None => Failed wasi.EBADF
  | Some f =>
      if negb (wasi.Has (wasi.RightsBase (fdinfo.stat (deref p f))) rights)
      then Failed wasi.ENOTCAPABLE
      else Found f
  end.

(** [func (p *Provider) lookupPreopenFD]. *)
Definition lookupPreopenFD (p : Provider) (guestfd : Z) (rights : wasi.Rights)
    : lookupResult :=
  if negb (isPreopen p guestfd) then Failed wasi.EBADF
  else
    match lookupFD p guestfd rights with
    | Failed errno => Failed errno
    | Found f =>
        if decide (wasi.StatFileType (fdinfo.stat (deref p f)) <> wasi.DirectoryType)
        then Failed wasi.ENOTDIR
        else Found f
    end.

(** [func (p *Provider) lookupSocketFD]. *)
Definition lookupSocketFD (p : Provider) (guestfd : Z) (rights : wasi.Rights)
    : lookupResult :=
  match lookupFD p guestfd rights with
  | Failed errno => Failed errno
  | Found f =>
      match wasi.StatFileType (fdinfo.stat (deref p f)) with
      | wasi.SocketStreamType | wasi.SocketDGramType => Found f
      | _ => Failed wasi.ENOTSOCK
      end
  end.

Section Operations.
(** The host the provider runs on. *)
Variable h : unix.Host.

(** [func (p *Provider) FDClose]. *)
Definition FDClose (p : Provider) (fd : Z) : Provider * wasi.Errno :=
  match lookupFD p fd 0 with
  | Failed errno => (p, errno)
  | Found f =>
      let p1 := setFds p (descriptor.Delete (fds p) fd) in
      (* Note: closing pre-opens is allowed. *)
      let p2 := setPreopens p1 (descriptor.Delete (preopens p1) fd) in
      let hostfd := fdinfo.fd (deref p2 f) in
      let err := unix.close h (syscalls p2) hostfd in
      (called p2 (unix.Close hostfd), makeErrno err)
  end.

(** [func (p *Provider) FDStatGet]; [None] is the zero [wasi.FDStat{}]. *)
Definition FDStatGet (p : Provider) (fd : Z)
    : Provider * (option wasi.FDStat * wasi.Errno) :=
  match lookupFD p fd 0 with
  | Failed errno => (p, (None, errno))
  | Found f => (p, (Some (fdinfo.stat (deref p f)), wasi.ESUCCESS))
  end.

(** [func (p *Provider) FDStatSetFlags]. *)
Definition FDStatSetFlags (p : Provider) (fd : Z) (flags : wasi.FDFlags)
    : Provider * wasi.Errno :=
  match lookupFD p fd wasi.FDStatSetFlagsRight with
  | Failed errno => (p, errno)
  | Found f =>
      let info := deref p f in
      let changes := Z.lxor flags (wasi.Flags (fdinfo.stat info)) in
      if changes =? 0 then (p, wasi.ESUCCESS)
      else if wasi.Has changes (Z.lor (Z.lor wasi.Sync wasi.DSync) wasi.RSync)
      then (p, wasi.ENOSYS) (* TODO: support changing {Sync,DSync,Rsync} *)
      else
        let hostfd := uintptr (fdinfo.fd info) in
        let p1 := called p (unix.FcntlInt hostfd unix.F_GETFL 0) in
        match unix.fcntlInt h (syscalls p) hostfd unix.F_GETFL 0 with
        | inl err => (p1, makeErrno (Some err))
        | inr fl =>
            let fl := if wasi.Has flags wasi.Append
                      then Z.lor fl unix.O_APPEND
                      else wasi.andnot fl unix.O_APPEND in
            let fl := if wasi.Has flags wasi.NonBlock
                      then Z.lor fl unix.O_NONBLOCK
                      else wasi.andnot fl unix.O_NONBLOCK in
            let p2 := called p1 (unix.FcntlInt hostfd unix.F_SETFL fl) in
            match unix.fcntlInt h (syscalls p1) hostfd unix.F_SETFL fl with
            | inl err => (p2, makeErrno (Some err))
            | inr _ =>
                let st := fdinfo.stat info in
                let st' := wasi.mkFDStat (wasi.StatFileType st)
                             (Z.lxor (wasi.Flags st) changes)
                             (wasi.RightsBase st) (wasi.RightsInheriting st) in
                (store p2 f (fdinfo.mk (fdinfo.path info) (fdinfo.fd info) st'
                               (fdinfo.dirEntries info)),
                 wasi.ESUCCESS)
            end
        end
  end.

(** [func (p *Provider) FDStatSetRights]. *)
Definition FDStatSetRights (p : Provider) (fd : Z)
    (rightsBase rightsInheriting : wasi.Rights) : Provider * wasi.Errno :=
  match lookupFD p fd 0 with
  | Failed errno => (p, errno)
  | Found f =>
      let info := deref p f in
      let st := fdinfo.stat info in
      (* Rights can only be preserved or removed, not added. *)
      let rightsBase := Z.land rightsBase wasi.AllRights in
      let rightsInheriting := Z.land rightsInheriting wasi.AllRights in
      if negb (wasi.andnot rightsBase (wasi.RightsBase st) =? 0)
      then (p, wasi.ENOTCAPABLE)
      else if negb (wasi.andnot rightsInheriting (wasi.RightsInheriting st) =? 0)
      then (p, wasi.ENOTCAPABLE)
      else
        let st' := wasi.mkFDStat (wasi.StatFileType st) (wasi.Flags st)
                     (Z.land (wasi.RightsBase st) rightsBase)
                     (Z.land (wasi.RightsInheriting st) rightsInheriting) in
        (store p f (fdinfo.mk (fdinfo.path info) (fdinfo.fd info) st'
                      (fdinfo.dirEntries info)),
         wasi.ESUCCESS)
  end.

(** [func (p *Provider) FDRenumber]. *)
Definition FDRenumber (p : Provider) (from to : Z) : Provider * wasi.Errno :=
  if isPreopen p from || isPreopen p to then (p, wasi.ENOTSUP)
  else
    match lookupFD p from 0 with
    | Failed errno => (p, errno)
    | Found f =>
        (* TODO: limit max file descriptor number *)
        let '(t, replaced) := descriptor.Assign (fds p) to f in
        let p1 := setFds p t in
        match replaced with
        | Some f' =>
            (called p1 (unix.Close (fdinfo.fd (deref p1 f'))), wasi.ENOSYS)
        | None => (p1, wasi.ENOSYS)
        end
    end.

(** [func (p *Provider) fdseek]. *)
Definition fdseek (p : Provider) (fd : Z) (rights : wasi.Rights)
    (delta : Z) (whence : wasi.Whence) : Provider * (Z * wasi.Errno) :=
  (* Note: FDSeekRight implies FDTellRight. FDTellRight also includes the
     right to invoke FDSeek in such a way that the file offset remains
     unaltered. *)
  match lookupFD p fd rights with
  | Failed errno => (p, (0, errno))
  | Found f =>
      let sysWhence :=
        if whence =? wasi.SeekStart then Some unix.SEEK_SET
        else if whence =? wasi.SeekCurrent then Some unix.SEEK_CUR
        else if whence =? wasi.SeekEnd then Some unix.SEEK_END
        else None in
      match sysWhence with
      | None => (p, (0, wasi.EINVAL))
      | Some sysWhence =>
          let hostfd := fdinfo.fd (deref p f) in
          let p1 := called p (unix.Lseek hostfd (int64 delta) sysWhence) in
          let '(off, err) :=
            unix.lseek h (syscalls p) hostfd (int64 delta) sysWhence in
          (p1, (uint64 off, makeErrno err))
      end
  end.

(** [func (p *Provider) FDSeek]. *)
Definition FDSeek (p : Provider) (fd : Z) (delta : Z) (whence : wasi.Whence)
    : Provider * (Z * wasi.Errno) :=
  fdseek p fd wasi.FDSeekRight delta whence.

(** [func (p *Provider) FDTell]. *)
Definition FDTell (p : Provider) (fd : Z) : Provider * (Z * wasi.Errno) :=
  fdseek p fd wasi.FDTellRight 0 wasi.SeekCurrent.

(** Declared outside the sources at hand: [makeFileType], from a host
    file mode to a WASI file type, and [unsafe.Sizeof(wasi.DirEntry{})]. *)
Variable makeFileType : Z -> wasi.FileType.
Variable sizeofDirEntry : Z.

(** [e.Info()] on a cached entry. *)
Definition Info (log : list unix.Syscall) (e : DirEntry)
    : list unix.Syscall * (unix.error + unix.Stat_t) :=
  match e with
  | unixDirent parent name =>
      let full := (parent ++ "/" ++ name)%string in
      (log ++ [unix.Lstat full], unix.lstat h log full)
  | statDirEntry _ info => (log, inr info)
  end.

(** The [wasi.DirEntryName] appended for the entry at index [pos]. The
    conversion [wasi.DirCookie(pos + 1)] is exact: [pos] is below the
    length of a slice, which is an [int]. *)
Definition makeDirEntryName (name : string) (s : unix.Stat_t) (pos : Z)
    : wasi.DirEntryName :=
  wasi.mkDirEntryName
    (wasi.mkDirEntry (pos + 1) (uint64 (unix.Ino s))
       (uint32 (len name)) (makeFileType (uint32 (unix.Mode s))))
    name.

(** The loop of [FDReadDir]:
    [for ; pos < len(f.dirEntries) && n < bufferSizeBytes; pos++],
    with [es] the entries [f.dirEntries[pos:]] still ahead. *)
Fixpoint readDirLoop (log : list unix.Syscall) (es : list DirEntry)
    (pos n bufferSizeBytes : Z) (buffer : list wasi.DirEntryName)
    : list unix.Syscall * (list wasi.DirEntryName * wasi.Errno) :=
  match es with
  | [] => (log, (buffer, wasi.ESUCCESS))
  | e :: es' =>
      if n <? bufferSizeBytes then
        let name := Name e in
        let '(log1, r) := Info log e in
        match r with
        | inl err => (log1, (buffer, makeErrno (Some err)))
        | inr s =>
            readDirLoop log1 es' (pos + 1)
              (int64 (n + (sizeofDirEntry + len name))) bufferSizeBytes
              (buffer ++ [makeDirEntryName name s pos])
        end
      else (log, (buffer, wasi.ESUCCESS))
  end.

(** The [cookie == 0] branch of [FDReadDir]: reload the listing of [f]. On
    success the cache of [f] is replaced; on failure nothing is stored. *)
Definition reloadDirEntries (p : Provider) (f : loc)
    : Provider * option unix.error :=
  let info := deref p f in
  let path := fdinfo.path info in
  let p1 := called p (unix.ReadDir path) in
  match unix.readDir h (syscalls p) path with
  | inl err => (p1, Some err)
  | inr names =>
      let entries := map (unixDirent path) names in
      (* Add . and .. entries, since they're stripped by os.ReadDir *)
      let p2 := called p1 (unix.Stat path) in
      let entries :=
        match unix.stat h (syscalls p1) path with
        | inr info => entries ++ [statDirEntry "." info]
        | inl _ => entries
        end in
      let parent := filepath.Join path ".." in
      let p3 := called p2 (unix.Stat parent) in
      let entries :=
        match unix.stat h (syscalls p2) parent with
        | inr info => entries ++ [statDirEntry ".." info]
        | inl _ => entries
        end in
      (store p3 f (fdinfo.mk path (fdinfo.fd info) (fdinfo.stat info) entries),
       None)
  end.

(** [func (p *Provider) FDReadDir]; [cookie] is a [uint64]. *)
Definition FDReadDir (p : Provider) (fd : Z)
    (buffer : list wasi.DirEntryName) (bufferSizeBytes : Z) (cookie : Z)
    : Provider * (list wasi.DirEntryName * wasi.Errno) :=
  match lookupFD p fd wasi.FDReadDirRight with
  | Failed errno => (p, ([], errno))
  | Found f =>
      let '(p1, err) :=
        if cookie =? 0 then reloadDirEntries p f else (p, None) in
      match err with
      | Some err => (p1, (buffer, makeErrno (Some err)))
      | None =>
          if cookie >? MaxInt then (p1, (buffer, wasi.EINVAL))
          else
            let pos := cookie in
            let entries := fdinfo.dirEntries (deref p1 f) in
            let '(log, r) :=
              readDirLoop (syscalls p1) (drop (Z.to_nat pos) entries)
                pos 0 bufferSizeBytes buffer in
            (mkProvider (fds p1) (preopens p1) (pollfds p1) (heap p1) log, r)
      end
  end.

(** [if cond { oflags |= bit }]. *)
Definition orIf (cond : bool) (oflags bit : Z) : Z :=
  if cond then Z.lor oflags bit else oflags.

(** [func (p *Provider) PathOpen]. *)
Definition PathOpen (p : Provider) (fd : Z) (lookupFlags : wasi.LookupFlags)
    (path : string) (openFlags : wasi.OpenFlags)
    (rightsBase rightsInheriting : wasi.Rights) (fdFlags : wasi.FDFlags)
    : Provider * (Z * wasi.Errno) :=
  match lookupFD p fd wasi.PathOpenRight with
  | Failed errno => (p, (-1, errno))
  | Found d =>
      let dir := deref p d in
      let dstat := fdinfo.stat dir in
      let clean := filepath.Clean path in
      if strings.HasPrefix clean "/" || strings.HasPrefix clean "../"
      then (p, (-1, wasi.EPERM))
      else
      (* Rights can only be preserved or removed, not added. *)
      let rightsBase := Z.land rightsBase wasi.AllRights in
      let rightsInheriting := Z.land rightsInheriting wasi.AllRights in
      if negb (wasi.andnot rightsBase (wasi.RightsInheriting dstat) =? 0)
      then (p, (-1, wasi.ENOTCAPABLE))
      else if negb (wasi.andnot rightsInheriting (wasi.RightsInheriting dstat) =? 0)
      then (p, (-1, wasi.ENOTCAPABLE))
      else
      let rightsBase := Z.land rightsBase (wasi.RightsInheriting dstat) in
      let rightsInheriting :=
        Z.land rightsInheriting (wasi.RightsInheriting dstat) in
      let oflags := unix.O_CLOEXEC in
      let oflags :=
        orIf (wasi.Has openFlags wasi.OpenDirectory) oflags unix.O_DIRECTORY in
      (* Directories cannot have FDSeekRight (and possibly other rights). *)
      let rightsBase := if wasi.Has openFlags wasi.OpenDirectory
                        then wasi.andnot rightsBase wasi.FDSeekRight
                        else rightsBase in
      if wasi.Has openFlags wasi.OpenCreate
         && negb (wasi.Has (wasi.RightsBase dstat) wasi.PathCreateFileRight)
      then (p, (-1, wasi.ENOTCAPABLE))
      else
      let oflags :=
        orIf (wasi.Has openFlags wasi.OpenCreate) oflags unix.O_CREAT in
      let oflags :=
        orIf (wasi.Has openFlags wasi.OpenExclusive) oflags unix.O_EXCL in
      if wasi.Has openFlags wasi.OpenTruncate
         && negb (wasi.Has (wasi.RightsBase dstat) wasi.PathFileStatSetSizeRight)
      then (p, (-1, wasi.ENOTCAPABLE))
      else
      let oflags :=
        orIf (wasi.Has openFlags wasi.OpenTruncate) oflags unix.O_TRUNC in
      let oflags := orIf (wasi.Has fdFlags wasi.Append) oflags unix.O_APPEND in
      let oflags := orIf (wasi.Has fdFlags wasi.DSync) oflags unix.O_DSYNC in
      let oflags := orIf (wasi.Has fdFlags wasi.Sync) oflags unix.O_SYNC in
      (* TODO: handle O_RSYNC *)
      let oflags :=
        orIf (wasi.Has fdFlags wasi.NonBlock) oflags unix.O_NONBLOCK in
      let oflags :=
        orIf (negb (wasi.Has lookupFlags wasi.SymlinkFollow)) oflags
          unix.O_NOFOLLOW in
      let oflags :=
        if wasi.Has openFlags wasi.OpenDirectory then
          Z.lor oflags unix.O_RDONLY
        else if wasi.HasAny rightsBase wasi.ReadRights
                && wasi.HasAny rightsBase wasi.WriteRights then
          Z.lor oflags unix.O_RDWR
        else if wasi.HasAny rightsBase wasi.ReadRights then
          Z.lor oflags unix.O_RDONLY
        else if wasi.HasAny rightsBase wasi.WriteRights then
          Z.lor oflags unix.O_WRONLY
        else Z.lor oflags unix.O_RDONLY in
      let '(fileType, mode) :=
        if negb (Z.land oflags unix.O_DIRECTORY =? 0)
        then (wasi.DirectoryType, 0)
        else (wasi.RegularFileType, 420 (* 0644 *)) in
      let p1 := called p (unix.Openat (fdinfo.fd dir) path oflags mode) in
      match unix.openat h (syscalls p) (fdinfo.fd dir) path oflags mode with
      | inl err => (p1, (-1, makeErrno (Some err)))
      | inr hostfd =>
          let '(p2, f) :=
            new p1 (fdinfo.mk (filepath.Join (fdinfo.path dir) path) hostfd
                      (wasi.mkFDStat fileType fdFlags rightsBase rightsInheriting)
                      []) in
          let '(t, guestfd) := descriptor.Insert (fds p2) f in
          (setFds p2 t, (guestfd, wasi.ESUCCESS))
      end
  end.

(** The first loop of [PollOneOff], over the subscriptions still ahead:
    it fills [p.pollfds] (here [pfds]) and computes the timeout, or stops
    at the first subscription it rejects. *)
Fixpoint pollSubscriptions (p : Provider) (subscriptions : list wasi.Subscription)
    (pfds : list unix.PollFd) (timeout : Z)
    : list unix.PollFd * (wasi.Errno + Z) :=
  match subscriptions with
  | [] => (pfds, inr timeout)
  | s :: rest =>
      match wasi.SubEventType s with
      | wasi.FDReadEvent | wasi.FDWriteEvent =>
          match lookupFD p (wasi.FD (wasi.GetFDReadWrite s))
                  wasi.PollFDReadWriteRight with
          | Failed errno =>
              (* TODO: set the error on the event instead of aborting the call *)
              (pfds, inl errno)
          | Found f =>
              let pollevent :=
                if decide (wasi.SubEventType s = wasi.FDWriteEvent)
                then unix.POLLOUT else unix.POLLIN in
              pollSubscriptions p rest
                (pfds ++ [unix.mkPollFd (int32 (fdinfo.fd (deref p f))) pollevent 0])
                timeout
          end
      | wasi.ClockEvent =>
          let c := wasi.GetClock s in
          if negb (wasi.ID c =? wasi.Monotonic)
             || wasi.Has (wasi.ClockFlags c) wasi.Abstime
          then (pfds, inl wasi.ENOSYS) (* not implemented *)
          else if timeout <? 0
          then pollSubscriptions p rest pfds (int64 (wasi.Timeout c))
          else if (timeout >=? 0) && (int64 (wasi.Timeout c) <? timeout)
          then pollSubscriptions p rest pfds (int64 (wasi.Timeout c))
          else pollSubscriptions p rest pfds timeout
      end
  end.

(** The event reported for subscription [s] whose poll slot is [pf]. *)
Definition makeEvent (s : wasi.Subscription) (pf : unix.PollFd) : wasi.Event :=
  let nbytes :=
    if (bool_decide (wasi.SubEventType s = wasi.FDReadEvent)
        && negb (Z.land (unix.Revents pf) unix.POLLIN =? 0))
       || (bool_decide (wasi.SubEventType s = wasi.FDWriteEvent)
           && negb (Z.land (unix.Revents pf) unix.POLLOUT =? 0))
    then 1 (* we don't know how many, so just say 1 *)
    else 0 in
  let errno :=
    if negb (Z.land (unix.Revents pf) unix.POLLERR =? 0)
    then wasi.ECANCELED (* we don't know what error, just pass something *)
    else wasi.ESUCCESS in
  let flags :=
    if negb (Z.land (unix.Revents pf) unix.POLLHUP =? 0)
    then Z.lor 0 wasi.Hangup else 0 in
  wasi.mkEvent (wasi.UserData s) errno (wasi.SubEventType s) nbytes flags.

(** The second loop of [PollOneOff]: [j] walks the poll slots while the
    subscriptions are walked; indexing past the slots panics. *)
Fixpoint pollEvents (subscriptions : list wasi.Subscription)
    (pfds : list unix.PollFd) (j : nat) (events : list wasi.Event)
    : outcome (list wasi.Event) :=
  match subscriptions with
  | [] => Returns events
  | s :: rest =>
      if decide (wasi.SubEventType s = wasi.ClockEvent)
      then pollEvents rest pfds j events
      else
        match pfds !! j with
        | None => Panics "index out of range"
        | Some pf =>
            if unix.Revents pf =? 0
            then pollEvents rest pfds (S j) events
            else pollEvents rest pfds (S j) (events ++ [makeEvent s pf])
        end
  end.

(** The timeout handed to [unix.Poll]: [-1] when unset, else
    [int(timeout.Milliseconds())]. *)
Definition timeoutMillis (timeout : Z) : Z :=
  if timeout <? 0 then -1 else Z.quot timeout 1000000.

(** [func (p *Provider) PollOneOff]. *)
Definition PollOneOff (p : Provider) (subscriptions : list wasi.Subscription)
    (events : list wasi.Event)
    : outcome (Provider * (list wasi.Event * wasi.Errno)) :=
  match subscriptions with
  | [] => Returns (p, (events, wasi.EINVAL))
  | _ =>
      match pollSubscriptions p subscriptions [] (-1) with
      | (pfds, inl errno) => Returns (setPollfds p pfds, (events, errno))
      | (pfds, inr timeout) =>
          let p1 := setPollfds p pfds in
          match pfds with
          | [] =>
              (* Just sleep if there's no FD events to poll. *)
              if timeout >=? 0 then
                let p2 := called p1 (unix.Sleep timeout) in
                match unix.sleep h (syscalls p1) timeout with
                | Some err => Returns (p2, (events, makeErrno (Some err)))
                | None => Returns (p2, (events, wasi.ESUCCESS))
                end
              else Returns (p1, (events, wasi.ESUCCESS))
          | _ =>
              let timeoutMillis := timeoutMillis timeout in
              (* TODO: allow ctx to unblock when canceled *)
              let p2 := called p1 (unix.Poll pfds timeoutMillis) in
              match unix.poll h (syscalls p1) pfds timeoutMillis with
              | inl err => Returns (p2, (events, makeErrno (Some err)))
              | inr (n, revents) =>
                  let pfds' :=
                    imap (fun i pf =>
                            unix.mkPollFd (unix.Fd pf) (unix.Events pf) (revents i))
                         pfds in
                  let p3 := setPollfds p2 pfds' in
                  match pollEvents subscriptions pfds' 0 events with
                  | Panics msg => Panics msg
                  | Returns events' =>
                      if negb (n =? Z.of_nat (length events'))
                      then Panics "unexpected unix.Poll result"
                      else Returns (p3, (events', wasi.ESUCCESS))
                  end
              end
          end
      end
  end.

End Operations.

(** *** Vocabulary of the statements *)

(** [a] is a subset of [b], as sets of rights. *)
Definition subseteq (a b : wasi.Rights) : Prop :=
  forall i, Z.testbit a i = true -> Z.testbit b i = true.

(** A subscription asks for descriptor readiness. *)
Definition isFDSubscription (s : wasi.Subscription) : Prop :=
  wasi.SubEventType s <> wasi.ClockEvent.

(** A clock subscription that [PollOneOff] does not implement. *)
Definition unsupportedClock (s : wasi.Subscription) : Prop :=
  wasi.SubEventType s = wasi.ClockEvent /\
  (wasi.ID (wasi.GetClock s) <> wasi.Monotonic \/
   wasi.Has (wasi.ClockFlags (wasi.GetClock s)) wasi.Abstime = true).

(** The number of descriptor subscriptions in a list. *)
Fixpoint countFD (subscriptions : list wasi.Subscription) : nat :=
  match subscriptions with
  | [] => O
  | s :: rest =>
      if decide (wasi.SubEventType s = wasi.ClockEvent)
      then countFD rest else S (countFD rest)
  end.




(** *** Sample hosts and provider states *)

Definition sampleStat : unix.Stat_t := unix.mkStat_t 0x41ed 42.

(** A host on which every call succeeds; [poll] reports every slot readable. *)
Definition hostOK : unix.Host :=
  unix.mkHost
    (fun _ _ => None)
    (fun _ _ _ _ => inr 0)
    (fun log _ _ _ _ => inr (100 + Z.of_nat (length log)))
    (fun _ _ _ _ => (0, None))
    (fun _ pfds _ => inr (Z.of_nat (length pfds), fun _ => unix.POLLIN))
    (fun _ _ => inr ["a"; "b"]%string)
    (fun _ _ => inr sampleStat)
    (fun _ _ => inr sampleStat)
    (fun _ _ => None).


(** A sample classification of host modes for [FDReadDir]: directories by
    the [S_IFMT] bits, everything else a regular file. *)
Definition sampleFileType (mode : Z) : wasi.FileType :=
  if Z.land mode 0xf000 =? 0x4000 then wasi.DirectoryType
  else wasi.RegularFileType.

Definition emptyProvider : Provider := mkProvider ∅ ∅ [] ∅ [].

Definition stdioStat : wasi.FDStat :=
  wasi.mkFDStat wasi.CharacterDeviceType 0 wasi.AllRights wasi.AllRights.

Definition dirStat : wasi.FDStat :=
  wasi.mkFDStat wasi.DirectoryType 0 wasi.AllRights wasi.AllRights.

(** The provider as the command line sets it up: the standard streams at
    guest descriptors 0, 1 and 2 and one pre-opened directory at 3. *)
Definition startProvider : Provider :=
  Preopen
    (Preopen
       (Preopen (Preopen emptyProvider 0 "/dev/stdin" stdioStat)
          1 "/dev/stdout" stdioStat)
       2 "/dev/stderr" stdioStat)
    7 "/tmp" dirStat.

(** [startProvider] after the guest opened two files in the directory. *)
Definition twoFilesProvider : Provider :=
  let rw := Z.lor wasi.FDReadRight wasi.FDWriteRight in
  let p1 := fst (PathOpen hostOK startProvider 3 0 "x" 0 rw 0 0) in
  fst (PathOpen hostOK p1 3 0 "y" 0 rw 0 0).

(** [startProvider] after the guest opened a file keeping [FDSeekRight] and
    [FDReadRight] only. *)
Definition seekOnlyProvider : Provider :=
  fst (PathOpen hostOK startProvider 3 0 "x" 0
         (Z.lor wasi.FDSeekRight wasi.FDReadRight) 0 0).

(** Sample subscriptions: readiness of the standard input, readiness of a
    descriptor that is not open, and a realtime clock. *)
Definition readStdin : wasi.Subscription :=
  wasi.mkSubscription 1 wasi.FDReadEvent
    (wasi.mkSubscriptionClock 0 0 0 0) (wasi.mkSubscriptionFDReadWrite 0).

Definition readClosed : wasi.Subscription :=
  wasi.mkSubscription 1 wasi.FDReadEvent
    (wasi.mkSubscriptionClock 0 0 0 0) (wasi.mkSubscriptionFDReadWrite 9).

Definition realtimeClock : wasi.Subscription :=
  wasi.mkSubscription 2 wasi.ClockEvent
    (wasi.mkSubscriptionClock wasi.Realtime 1000 0 0)
    (wasi.mkSubscriptionFDReadWrite 0).

(** *** Further operations of the provider *)

(** [func (p *Provider) FDPreStatGet]; [None] is the zero [wasi.PreStat{}]. *)
Definition FDPreStatGet (p : Provider) (fd : Z)
    : Provider * (option wasi.PreStat * wasi.Errno) :=
  match lookupPreopenFD p fd 0 with
  | Failed errno => (p, (None, errno))
  | Found f =>
      let stat :=
        wasi.mkPreStat wasi.PreOpenDir
          (wasi.mkPreStatDir (uint32 (len (fdinfo.path (deref p f))))) in
      (p, (Some stat, wasi.ESUCCESS))
  end.

(** [func (p *Provider) FDPreStatDirName]. *)
Definition FDPreStatDirName (p : Provider) (fd : Z)
    : Provider * (string * wasi.Errno) :=
  match lookupPreopenFD p fd 0 with
  | Failed errno => (p, ("", errno))
  | Found f => (p, (fdinfo.path (deref p f), wasi.ESUCCESS))
  end.

(** The clock fields of [type Provider struct]. No operation assigns them.
    A nil function is [None]; a function that is set answers, like the
    host, from the history of calls, with a value and an error. *)
Record Clocks := mkClocks {
  Realtime : option (list unix.Syscall -> Z * option unix.error);
  RealtimePrecision : Z;    (* time.Duration *)
  Monotonic : option (list unix.Syscall -> Z * option unix.error);
  MonotonicPrecision : Z    (* time.Duration *)
}.

(** [func (p *Provider) ClockResGet]. *)
Definition ClockResGet (c : Clocks) (id : wasi.ClockID) : Z * wasi.Errno :=
  if id =? wasi.Realtime then (uint64 (RealtimePrecision c), wasi.ESUCCESS)
  else if id =? wasi.Monotonic
  then (uint64 (MonotonicPrecision c), wasi.ESUCCESS)
  else if (id =? wasi.ProcessCPUTimeID) || (id =? wasi.ThreadCPUTimeID)
  then (0, wasi.ENOTSUP)
  else (0, wasi.EINVAL).

(** [func (p *Provider) ClockTimeGet]. *)
Definition ClockTimeGet (c : Clocks) (p : Provider) (id : wasi.ClockID)
    (precision : Z) : Z * wasi.Errno :=
  if id =? wasi.Realtime then
    match Realtime c with
    | None => (0, wasi.ENOTSUP)
    | Some clock => let '(t, err) := clock (syscalls p) in (uint64 t, makeErrno err)
    end
  else if id =? wasi.Monotonic then
    match Monotonic c with
    | None => (0, wasi.ENOTSUP)
    | Some clock => let '(t, err) := clock (syscalls p) in (uint64 t, makeErrno err)
    end
  else if (id =? wasi.ProcessCPUTimeID) || (id =? wasi.ThreadCPUTimeID)
  then (0, wasi.ENOTSUP)
  else (0, wasi.EINVAL).

(** Constants of linux/amd64 for [unix.Shutdown]. *)
Definition SHUT_RD : Z := 0.
Definition SHUT_WR : Z := 1.
Definition SHUT_RDWR : Z := 2.

Section Sockets.
(** The host, and its answers to [unix.Accept], [unix.SetNonblock],
    [unix.Shutdown] and [unix.Readlinkat]. Like those of [unix.Host] they
    may depend on the history of the calls the provider keeps. *)
Variable h : unix.Host.
Variable accept : list unix.Syscall -> Z -> unix.error + Z.
Variable setNonblock : list unix.Syscall -> Z -> bool -> option unix.error.
Variable shutdown : list unix.Syscall -> Z -> Z -> option unix.error.
(** [unix.Readlinkat] copies the target of the link into the buffer, as
    much of it as fits, and returns how many bytes it placed. The answer
    here is the whole target. *)
Variable readlinkat : list unix.Syscall -> Z -> string -> unix.error + list Z.

(** [func (p *Provider) SockAccept]. [flags & ^wasi.NonBlock] clears the
    one bit of [NonBlock]. *)
Definition SockAccept (p : Provider) (fd : Z) (flags : wasi.FDFlags)
    : Provider * (Z * wasi.Errno) :=
  match lookupSocketFD p fd wasi.SockAcceptRight with
  | Failed errno => (p, (-1, errno))
  | Found socket =>
      if negb (Z.land flags (Z.lnot wasi.NonBlock) =? 0)
      then (p, (-1, wasi.EINVAL))
      else
        (* TODO: use accept4 on linux to set O_CLOEXEC and O_NONBLOCK *)
        let sock := deref p socket in
        match accept (syscalls p) (fdinfo.fd sock) with
        | inl err => (p, (-1, makeErrno (Some err)))
        | inr connfd =>
            match setNonblock (syscalls p) connfd (wasi.Has flags wasi.NonBlock) with
            | Some err =>
                (called p (unix.Close connfd), (-1, makeErrno (Some err)))
            | None =>
                let inheriting := wasi.RightsInheriting (fdinfo.stat sock) in
                let '(p1, f) :=
                  new p (fdinfo.mk "" connfd
                           (wasi.mkFDStat wasi.SocketStreamType flags
                              inheriting inheriting)
                           []) in
                let '(t, guestfd) := descriptor.Insert (fds p1) f in
                (setFds p1 t, (guestfd, wasi.ESUCCESS))
            end
        end
  end.

(** [func (p *Provider) SockRecv]. *)
Definition SockRecv (p : Provider) (fd : Z) (iovecs : list wasi.IOVec)
    (flags : Z) : Provider * (Z * Z * wasi.Errno) :=
  match lookupSocketFD p fd wasi.FDReadRight with
  | Failed errno => (p, (0, 0, errno))
  | Found socket => (p, (0, 0, wasi.ENOSYS)) (* TODO: implement SockRecv *)
  end.

(** [func (p *Provider) SockSend]. *)
Definition SockSend (p : Provider) (fd : Z) (iovecs : list wasi.IOVec)
    (flags : Z) : Provider * (Z * wasi.Errno) :=
  match lookupSocketFD p fd wasi.FDWriteRight with
  | Failed errno => (p, (0, errno))
  | Found socket => (p, (0, wasi.ENOSYS)) (* TODO: implement SockSend *)
  end.

(** [func (p *Provider) SockShutdown]. *)
Definition SockShutdown (p : Provider) (fd : Z) (flags : wasi.SDFlags)
    : Provider * wasi.Errno :=
  match lookupSocketFD p fd wasi.SockShutdownRight with
  | Failed errno => (p, errno)
  | Found socket =>
      let sysHow :=
        if wasi.Has flags (Z.lor wasi.ShutdownRD wasi.ShutdownWR)
        then Some SHUT_RDWR
        else if wasi.Has flags wasi.ShutdownRD then Some SHUT_RD
        else if wasi.Has flags wasi.ShutdownWR then Some SHUT_WR
        else None in
      match sysHow with
      | None => (p, wasi.EINVAL)
      | Some sysHow =>
          (p, makeErrno (shutdown (syscalls p) (fdinfo.fd (deref p socket)) sysHow))
      end
  end.


End Sockets.

(** Modelled from the spec: [Range] of the descriptor table visits the live
    slots by ascending descriptor number. *)
Definition slotLe (a b : Z * loc) : Prop := fst a <= fst b.

#[global] Instance slotLe_dec : RelDecision slotLe.
Proof. intros a b. unfold slotLe. apply _. Defined.

Definition Range (t : gmap Z loc) : list (Z * loc) :=
  merge_sort slotLe (map_to_list t).

(** [func (p *Provider) Close]: the result of each [unix.Close] is dropped,
    and the error returned is nil. *)
Definition Close (p : Provider) : Provider :=
  let closes :=
    map (fun '(_, f) => unix.Close (fdinfo.fd (deref p f))) (Range (fds p)) in
  mkProvider (descriptor.Reset (fds p)) (descriptor.Reset (preopens p))
    (pollfds p) (heap p) (syscalls p ++ closes).

(** *** The states a provider can be in *)

(** One exported operation of the provider, on any host, takes the state
    [p] to the state [p']. *)
Inductive step : Provider -> Provider -> Prop :=
| step_Preopen p hostfd path fdstat :
    step p (Preopen p hostfd path fdstat)
| step_FDClose h p fd :
    step p (fst (FDClose h p fd))
| step_FDStatSetFlags h p fd flags :
    step p (fst (FDStatSetFlags h p fd flags))
| step_FDStatSetRights p fd rightsBase rightsInheriting :
    step p (fst (FDStatSetRights p fd rightsBase rightsInheriting))
| step_FDRenumber p from to :
    step p (fst (FDRenumber p from to))
| step_FDSeek h p fd delta whence :
    step p (fst (FDSeek h p fd delta whence))
| step_FDTell h p fd :
    step p (fst (FDTell h p fd))
| step_FDReadDir h makeFileType sizeofDirEntry p fd buffer limit cookie :
    step p (fst (FDReadDir h makeFileType sizeofDirEntry p fd buffer limit cookie))
| step_PathOpen h p fd lookupFlags path openFlags rightsBase rightsInheriting
    fdFlags :
    step p (fst (PathOpen h p fd lookupFlags path openFlags rightsBase
                   rightsInheriting fdFlags))
| step_PollOneOff h p subscriptions events p' r :
    PollOneOff h p subscriptions events = Returns (p', r) ->
    step p p'
| step_SockAccept accept setNonblock p fd flags :
    step p (fst (SockAccept accept setNonblock p fd flags))
| step_Close p :
    step p (Close p).

(** The states reached from the zero value of [Provider] by a sequence of
    operations. *)
Inductive reachable : Provider -> Prop :=
| reachable_zero : reachable emptyProvider
| reachable_step p p' : reachable p -> step p p' -> reachable p'.

(** Sample answers of the socket calls. *)
Definition acceptOK : list unix.Syscall -> Z -> unix.error + Z :=
  fun log _ => inr (200 + Z.of_nat (length log)).

Definition setNonblockOK : list unix.Syscall -> Z -> bool -> option unix.error :=
  fun _ _ _ => None.

Definition setNonblockFails : list unix.Syscall -> Z -> bool -> option unix.error :=
  fun _ _ _ => Some (unix.SyscallErrno unix.EBADF).

Definition socketStat : wasi.FDStat :=
  wasi.mkFDStat wasi.SocketStreamType 0 wasi.AllRights
    (Z.lor wasi.FDReadRight wasi.FDWriteRight).

(** [startProvider] with a listening socket registered at descriptor 4. *)
Definition socketProvider : Provider :=
  Preopen startProvider 8 "" socketStat.

(** *** Vocabulary of the further statements *)

(** The flags [PathOpen] has gathered for [unix.Openat] before it chooses
    the access mode. *)
Definition openatBase (lookupFlags : wasi.LookupFlags)
    (openFlags : wasi.OpenFlags) (fdFlags : wasi.FDFlags) : Z :=
  orIf (negb (wasi.Has lookupFlags wasi.SymlinkFollow))
    (orIf (wasi.Has fdFlags wasi.NonBlock)
       (orIf (wasi.Has fdFlags wasi.Sync)
          (orIf (wasi.Has fdFlags wasi.DSync)
             (orIf (wasi.Has fdFlags wasi.Append)
                (orIf (wasi.Has openFlags wasi.OpenTruncate)
                   (orIf (wasi.Has openFlags wasi.OpenExclusive)
                      (orIf (wasi.Has openFlags wasi.OpenCreate)
                         (orIf (wasi.Has openFlags wasi.OpenDirectory)
                            unix.O_CLOEXEC unix.O_DIRECTORY)
                         unix.O_CREAT)
                      unix.O_EXCL)
                   unix.O_TRUNC)
                unix.O_APPEND)
             unix.O_DSYNC)
          unix.O_SYNC)
       unix.O_NONBLOCK)
    unix.O_NOFOLLOW.

(** The access mode [PathOpen] chooses for a file that is granted the base
    rights [granted]. *)
Definition accessMode (openFlags : wasi.OpenFlags) (granted : wasi.Rights) : Z :=
  if wasi.Has openFlags wasi.OpenDirectory then unix.O_RDONLY
  else if wasi.HasAny granted wasi.ReadRights
          && wasi.HasAny granted wasi.WriteRights then unix.O_RDWR
  else if wasi.HasAny granted wasi.ReadRights then unix.O_RDONLY
  else if wasi.HasAny granted wasi.WriteRights then unix.O_WRONLY
  else unix.O_RDONLY.

(** The base rights [PathOpen] grants: the requested ones, masked, clipped
    to what the directory passes on, less [FDSeekRight] for a directory. *)
Definition grantedBase (openFlags : wasi.OpenFlags)
    (rightsBase inheriting : wasi.Rights) : wasi.Rights :=
  let clipped := Z.land (Z.land rightsBase wasi.AllRights) inheriting in
  if wasi.Has openFlags wasi.OpenDirectory
  then wasi.andnot clipped wasi.FDSeekRight else clipped.

(** The table, the pre-open set and the entries fit together: every
    pre-open mark is on a live descriptor, every item of the table points
    to an entry, and the rights of every entry lie within [AllRights]. *)
Definition consistent (p : Provider) : Prop :=
  (forall fd, isPreopen p fd = true -> is_Some (fds p !! fd)) /\
  (forall fd f, fds p !! fd = Some f -> is_Some (heap p !! f)) /\
  (forall f e, heap p !! f = Some e ->
     subseteq (wasi.RightsBase (fdinfo.stat e)) wasi.AllRights /\
     subseteq (wasi.RightsInheriting (fdinfo.stat e)) wasi.AllRights).



(** Sample clocks: both are set and never fail; the precisions are a
    microsecond and a nanosecond. *)
Definition sampleClocks : Clocks :=
  mkClocks (Some (fun log => (1700000000000000000 + Z.of_nat (length log), None)))
    1000
    (Some (fun log => (Z.of_nat (length log), None)))
    1.

End wasiunix.

(** ** Package [imports/wasi_http/types]: the registry of outgoing requests *)

Module types.

(** [type Request struct]; [BodyBuffer] is a pointer, nil until a body is
    attached. *)
Record Request := mkRequest {
  Method : string;
  Path : string;
  Query : string;
  Scheme : string;
  Authority : string;
  Headers : Z;                  (* uint32 *)
  BodyBuffer : option (list Z)
}.

(** [&Request{}]. *)
Definition zeroRequest : Request := mkRequest "" "" "" "" "" 0 None.

(** [func (r Request) Url() string]. *)
Definition Url (r : Request) : string :=
  (Scheme r ++ "://" ++ Authority r ++ Path r ++ Query r)%string.

(** [type requests struct]. The map holds pointers, each stored under one
    handle only: here the map holds the requests themselves, and a write
    through the pointer of a handle is a write to the map at that handle. *)
Record requests := mkRequests {
  requests' : gmap Z Request;
  requestIdBase : Z             (* uint32 *)
}.

(** [var r = &requests{make(map[uint32]*Request), 1}]. *)
Definition r : requests := mkRequests ∅ 1.

(** [func (r *requests) newRequest]: the pointer it returns is the entry at
    the handle it returns. [r.requestIdBase++] wraps at 32 bits. *)
Definition newRequest (r : requests) : requests * Z :=
  let base := wasiunix.uint32 (requestIdBase r + 1) in
  (mkRequests (<[base := zeroRequest]> (requests' r)) base, base).

(** [func (r *requests) deleteRequest]. *)
Definition deleteRequest (r : requests) (handle : Z) : requests :=
  mkRequests (delete handle (requests' r)) (requestIdBase r).

(** [func GetRequest]: [(r, ok)] is [Some r], [(nil, false)] is [None]. *)
Definition GetRequest (r : requests) (handle : Z) : option Request :=
  requests' r !! handle.

(** An assignment [request.Field = v] through the pointer of [handle]. *)
Definition assign (r : requests) (handle : Z) (f : Request -> Request)
    : requests :=
  mkRequests (alter f handle (requests' r)) (requestIdBase r).

Definition setMethod (v : string) (q : Request) : Request :=
  mkRequest v (Path q) (Query q) (Scheme q) (Authority q) (Headers q)
    (BodyBuffer q).
Definition setPath (v : string) (q : Request) : Request :=
  mkRequest (Method q) v (Query q) (Scheme q) (Authority q) (Headers q)
    (BodyBuffer q).
Definition setQuery (v : string) (q : Request) : Request :=
  mkRequest (Method q) (Path q) v (Scheme q) (Authority q) (Headers q)
    (BodyBuffer q).
Definition setScheme (v : string) (q : Request) : Request :=
  mkRequest (Method q) (Path q) (Query q) v (Authority q) (Headers q)
    (BodyBuffer q).
Definition setAuthority (v : string) (q : Request) : Request :=
  mkRequest (Method q) (Path q) (Query q) (Scheme q) v (Headers q)
    (BodyBuffer q).
Definition setHeaders (v : Z) (q : Request) : Request :=
  mkRequest (Method q) (Path q) (Query q) (Scheme q) (Authority q) v
    (BodyBuffer q).

(** What a call that may end the process with [log.Fatalf] does. *)
Inductive exit (A : Type) :=
| Done (a : A)
| Fatal (msg : string).
Arguments Done {A} a.
Arguments Fatal {A} msg.

Section Guest.
(** [mod.Memory().Read(offset, byteCount)]: the bytes, as a string, or not
    ok when the range is outside the guest memory. *)
Variable Read : Z -> Z -> option string.

(** The [switch method] of [newOutgoingRequestFn]: the name of the method
    with the given code, [None] in the default case. *)
Definition methodName (method : Z) : option string :=
  match method with
  | 0 => Some "GET"%string
  | 1 => Some "HEAD"%string
  | 2 => Some "POST"%string
  | 3 => Some "PUT"%string
  | 4 => Some "DELETE"%string
  | 5 => Some "CONNECT"%string
  | 6 => Some "OPTIONS"%string
  | 7 => Some "TRACE"%string
  | 8 => Some "PATCH"%string
  | _ => None
  end.

(** The end of [newOutgoingRequestFn], from the read of the authority on. *)
Definition readAuthority (r : requests) (id : Z)
    (authority_ptr authority_len header_handle : Z) : exit (requests * Z) :=
  match Read (wasiunix.uint32 authority_ptr) (wasiunix.uint32 authority_len) with
  | None => Done (r, 0)
  | Some authority =>
      let r := assign r id (setAuthority authority) in
      let r := assign r id (setHeaders header_handle) in
      Done (r, id)
  end.

(** [func newOutgoingRequestFn]; the arguments are [uint32]. *)
Definition newOutgoingRequestFn (r : requests)
    (method method_ptr method_len path_ptr path_len query_ptr query_len
     scheme_is_some scheme scheme_ptr scheme_len
     authority_ptr authority_len header_handle : Z) : exit (requests * Z) :=
  let '(r, id) := newRequest r in
  match methodName method with
  | None => Fatal ("Unknown method: " ++ pretty method)
  | Some name =>
      let r := assign r id (setMethod name) in
      match Read (wasiunix.uint32 path_ptr) (wasiunix.uint32 path_len) with
      | None => Done (r, 0)
      | Some path =>
          let r := assign r id (setPath path) in
          match Read (wasiunix.uint32 query_ptr) (wasiunix.uint32 query_len) with
          | None => Done (r, 0)
          | Some query =>
              let r := assign r id (setQuery query) in
              let r := assign r id (setScheme "https") in
              if scheme_is_some =? 1 then
                let r := if scheme =? 0
                         then assign r id (setScheme "http") else r in
                if scheme =? 2 then
                  match Read (wasiunix.uint32 scheme_ptr)
                          (wasiunix.uint32 scheme_len) with
                  | None => Done (r, 0)
                  | Some d =>
                      readAuthority (assign r id (setScheme d)) id
                        authority_ptr authority_len header_handle
                  end
                else
                  readAuthority r id authority_ptr authority_len header_handle
              else readAuthority r id authority_ptr authority_len header_handle
          end
      end
  end.

(** [func dropOutgoingRequestFn]. *)
Definition dropOutgoingRequestFn (r : requests) (handle : Z) : requests :=
  deleteRequest r handle.

End Guest.

(** The live handles of the registry lie above 1 and at or below the last
    handle handed out, which is a [uint32]. *)
Definition handlesBelowBase (r : requests) : Prop :=
  1 <= requestIdBase r < 2 ^ 32 /\
  forall handle, is_Some (requests' r !! handle) ->
                 1 < handle <= requestIdBase r.

(** A guest memory of 64 KiB whose first bytes are the text
    [example.org/]; a read returns the part of that text in its range. *)
Definition sampleRead (offset count : Z) : option string :=
  if (0 <=? offset) && (0 <=? count) && (offset + count <=? 65536) then
    Some (String.substring (Z.to_nat offset) (Z.to_nat count) "example.org/")
  else None.

End types.

(** ** Vocabulary of the further properties *)

(** The names of the rights of [flags] among [names], the first of which
    has bit position [i], by ascending position. *)
Fixpoint namesFrom (flags : wasi.Rights) (i : Z) (names : list string)
    : list string :=
  match names with
  | [] => []
  | name :: rest =>
      if Z.testbit flags i then name :: namesFrom flags (i + 1) rest
      else namesFrom flags (i + 1) rest
  end.

(** The names of the rights that [flags] holds. *)
Definition setRights (flags : wasi.Rights) : list string :=
  namesFrom flags 0 wasi.rightsStrings.

(** The character [c] does not occur in the string [s]. *)
Fixpoint freeOf (c : ascii) (s : string) : bool :=
  match s with
  | EmptyString => true
  | String x s' => negb (Ascii.eqb x c) && freeOf c s'
  end.

(** The descriptor number that the next [Insert] into the table of [p]
    hands out. *)
Definition nextFD (p : wasiunix.Provider) : Z :=
  descriptor.firstFree (wasiunix.fds p) 0 (size (wasiunix.fds p)).

(** * Properties of the provider *)

Import wasiunix.

(** ** The rights algebra *)

Lemma andnot_zero_subseteq (a b : wasi.Rights) :
  wasi.andnot a b = 0 <-> subseteq a b.
Proof.
  unfold wasi.andnot, subseteq. split.
  - intros H i Hi.
    destruct (Z.testbit b i) eqn:Hb; [reflexivity|].
    assert (Hd : Z.testbit (Z.ldiff a b) i = true).
    { destruct (Z.ltb_spec i 0) as [Hneg|Hpos].
      - rewrite Z.testbit_neg_r in Hi by assumption. discriminate.
      - rewrite Z.ldiff_spec, Hi, Hb. reflexivity. }
    rewrite H, Z.bits_0 in Hd. discriminate.
  - intros H. apply Z.bits_inj'. intros n Hn.
    rewrite Z.ldiff_spec, Z.bits_0.
    destruct (Z.testbit a n) eqn:Ha; [|reflexivity].
    rewrite (H n Ha). reflexivity.
Qed.

Lemma andnot_eqb_subseteq (a b : wasi.Rights) :
  (wasi.andnot a b =? 0) = true <-> subseteq a b.
Proof. rewrite Z.eqb_eq. apply andnot_zero_subseteq. Qed.

Lemma andnot_neqb_not_subseteq (a b : wasi.Rights) :
  negb (wasi.andnot a b =? 0) = true <-> ~ subseteq a b.
Proof.
  rewrite negb_true_iff, <- not_true_iff_false, andnot_eqb_subseteq. tauto.
Qed.

Lemma land_subseteq_l (a b : wasi.Rights) : subseteq (Z.land a b) a.
Proof.
  intros i Hi. rewrite Z.land_spec in Hi.
  apply andb_true_iff in Hi. tauto.
Qed.

Lemma land_subseteq_r (a b : wasi.Rights) : subseteq (Z.land a b) b.
Proof.
  intros i Hi. rewrite Z.land_spec in Hi.
  apply andb_true_iff in Hi. tauto.
Qed.

Lemma andnot_subseteq_l (a b : wasi.Rights) : subseteq (wasi.andnot a b) a.
Proof.
  intros i Hi. unfold wasi.andnot in Hi.
  destruct (Z.ltb_spec i 0) as [Hneg|Hpos].
  - rewrite Z.testbit_neg_r in Hi by assumption. discriminate.
  - rewrite Z.ldiff_spec in Hi. apply andb_true_iff in Hi. tauto.
Qed.

Lemma subseteq_land_absorb (a b c : wasi.Rights) :
  subseteq b c -> Z.land (Z.land a c) b = Z.land a b.
Proof.
  intros H. apply Z.bits_inj'. intros n _.
  rewrite !Z.land_spec.
  destruct (Z.testbit a n), (Z.testbit b n) eqn:Hb, (Z.testbit c n) eqn:Hc;
    try reflexivity.
  rewrite (H n Hb) in Hc. discriminate.
Qed.

(** Every set of rights has the empty set of rights. *)
Lemma Has_zero (flags : wasi.Rights) : wasi.Has flags 0 = true.
Proof. unfold wasi.Has. rewrite Z.land_0_r. reflexivity. Qed.

(** ** Descriptor lookup *)

Lemma lookupFD_dead (p : Provider) (guestfd : Z) (rights : wasi.Rights) :
  fds p !! guestfd = None -> lookupFD p guestfd rights = Failed wasi.EBADF.
Proof. intros H. unfold lookupFD, descriptor.Lookup. rewrite H. reflexivity. Qed.

Lemma lookupFD_no_rights (p : Provider) (guestfd : Z) (f : loc) :
  fds p !! guestfd = Some f -> lookupFD p guestfd 0 = Found f.
Proof.
  intros H. unfold lookupFD, descriptor.Lookup. rewrite H, Has_zero. reflexivity.
Qed.

Lemma lookupFD_Found (p : Provider) (guestfd : Z) (rights : wasi.Rights) (f : loc) :
  lookupFD p guestfd rights = Found f <->
  fds p !! guestfd = Some f /\
  wasi.Has (wasi.RightsBase (fdinfo.stat (deref p f))) rights = true.
Proof.
  unfold lookupFD, descriptor.Lookup.
  destruct (fds p !! guestfd) as [g|]; [|split; [discriminate | intros [? _]; discriminate]].
  destruct (wasi.Has _ rights) eqn:HH; simpl; split.
  - intros [= ->]. auto.
  - intros [[= ->] _]. reflexivity.
  - discriminate.
  - intros [[= ->] Hc]. congruence.
Qed.

Lemma entry_Some (p : Provider) (guestfd : Z) (e : fdinfo.t) :
  entry p guestfd = Some e <->
  exists f, fds p !! guestfd = Some f /\ e = deref p f.
Proof.
  unfold entry. destruct (fds p !! guestfd) as [f|]; simpl; split.
  - intros [= <-]. eauto.
  - intros (g & [= <-] & ->). reflexivity.
  - discriminate.
  - intros (g & Hg & _). discriminate.
Qed.

Lemma deref_store (p : Provider) (f : loc) (v : fdinfo.t) :
  deref (store p f v) f = v.
Proof. unfold deref, store. simpl. apply lookup_total_insert_eq. Qed.

(** ** [FDStatSetRights] *)



(** ** [FDClose] *)



(** ** [FDSeek] and [FDTell] *)

Lemma makeErrno_capable (err : option unix.error) :
  makeErrno err <> wasi.ENOTCAPABLE.
Proof. destruct err as [[e|]|]; [destruct e| |]; discriminate. Qed.

Lemma makeErrno_failure (err : unix.error) :
  makeErrno (Some err) <> wasi.ESUCCESS.
Proof. destruct err as [e|]; [destruct e|]; discriminate. Qed.

(** C6 (the code departs from the claim). [FDTell] looks the descriptor up
    with [FDTellRight] alone, so on a live descriptor whose base rights hold
    [FDSeekRight] but not [FDTellRight] it returns [ENOTCAPABLE] without a
    host call, although the note in [fdseek] says that [FDSeekRight] implies
    [FDTellRight]; [FDSeek] with delta 0 and [SeekCurrent] on the same
    descriptor is let through to the host. *)
Theorem FDTell_ignores_FDSeekRight :
  forall (h : unix.Host) (p : Provider) (fd : Z) (e : fdinfo.t),
    entry p fd = Some e ->
    wasi.Has (wasi.RightsBase (fdinfo.stat e)) wasi.FDSeekRight = true ->
    wasi.Has (wasi.RightsBase (fdinfo.stat e)) wasi.FDTellRight = false ->
    FDTell h p fd = (p, (0, wasi.ENOTCAPABLE)) /\
    snd (snd (FDSeek h p fd 0 wasi.SeekCurrent)) <> wasi.ENOTCAPABLE /\
    syscalls (fst (FDSeek h p fd 0 wasi.SeekCurrent)) =
      syscalls p ++ [unix.Lseek (fdinfo.fd e) 0 unix.SEEK_CUR].
Proof.
  intros h p fd e He Hseek Htell.
  apply entry_Some in He as (f & Hf & ->).
  unfold FDTell, FDSeek, fdseek, lookupFD, descriptor.Lookup.
  rewrite Hf, Hseek, Htell. simpl.
  split; [reflexivity|].
  destruct (unix.lseek h (syscalls p) (fdinfo.fd (deref p f)) (int64 0) unix.SEEK_CUR)
    as [off err] eqn:Hl.
  change (int64 0) with 0 in *. simpl.
  split; [apply makeErrno_capable | reflexivity].
Qed.

(** A file opened with [FDSeekRight] and [FDReadRight] only cannot tell. *)
Lemma FDTell_ignores_FDSeekRight_witness :
  entry seekOnlyProvider 4 =
    Some (fdinfo.mk "/tmp/x" 100
            (wasi.mkFDStat wasi.RegularFileType 0
               (Z.lor wasi.FDSeekRight wasi.FDReadRight) 0) []) /\
  FDTell hostOK seekOnlyProvider 4 = (seekOnlyProvider, (0, wasi.ENOTCAPABLE)).
Proof.
  split; [vm_compute; reflexivity|].
  apply (FDTell_ignores_FDSeekRight hostOK seekOnlyProvider 4
           (fdinfo.mk "/tmp/x" 100
              (wasi.mkFDStat wasi.RegularFileType 0
                 (Z.lor wasi.FDSeekRight wasi.FDReadRight) 0) []));
    vm_compute; reflexivity.
Defined.

(** ** [FDRenumber] *)

(** C2 (the code departs from the claim). When neither descriptor is a
    pre-open and [from] is live, [FDRenumber] places the entry of [from] at
    [to] and closes the host handle of the evicted occupant of [to], but it
    then returns [ENOSYS], not [ESUCCESS], and it leaves slot [from] live,
    pointing to the same entry; when either descriptor is a pre-open it
    returns [ENOTSUP] and changes nothing. *)
Theorem FDRenumber_returns_ENOSYS :
  forall (p : Provider) (from to : Z) (f : loc),
    fds p !! from = Some f ->
    (isPreopen p from = false -> isPreopen p to = false ->
     let p' := fst (FDRenumber p from to) in
     snd (FDRenumber p from to) = wasi.ENOSYS /\
     fds p' !! to = Some f /\
     fds p' !! from = Some f /\
     syscalls p' =
       syscalls p ++
       match fds p !! to with
       | Some g => [unix.Close (fdinfo.fd (deref p g))]
       | None => []
       end) /\
    (isPreopen p from = true \/ isPreopen p to = true ->
     FDRenumber p from to = (p, wasi.ENOTSUP)).
Proof.
  intros p from to f Hf. split.
  - intros Hpf Hpt. cbv zeta. unfold FDRenumber.
    rewrite Hpf, Hpt, (lookupFD_no_rights _ _ _ Hf). simpl.
    assert (Hfrom : <[to := f]> (fds p) !! from = Some f).
    { destruct (decide (to = from)) as [->|Hne].
      - apply lookup_insert_eq.
      - rewrite lookup_insert_ne by assumption. exact Hf. }
    destruct (fds p !! to) as [g|]; simpl.
    + split; [reflexivity|]. split; [apply lookup_insert_eq|].
      split; [exact Hfrom | reflexivity].
    + split; [reflexivity|]. split; [apply lookup_insert_eq|].
      split; [exact Hfrom | symmetry; apply app_nil_r].
  - intros H. unfold FDRenumber.
    destruct H as [H|H]; rewrite H; [|rewrite orb_true_r]; reflexivity.
Qed.

(** Renumbering descriptor 4 onto descriptor 5 in [twoFilesProvider]. *)
Lemma FDRenumber_returns_ENOSYS_witness :
  fds twoFilesProvider !! 4 = Some 4%nat /\
  snd (FDRenumber twoFilesProvider 4 5) = wasi.ENOSYS /\
  fds (fst (FDRenumber twoFilesProvider 4 5)) !! 5 = Some 4%nat /\
  fds (fst (FDRenumber twoFilesProvider 4 5)) !! 4 = Some 4%nat /\
  syscalls (fst (FDRenumber twoFilesProvider 4 5)) =
    syscalls twoFilesProvider ++ [unix.Close 101].
Proof.
  split; [vm_compute; reflexivity|].
  pose proof (proj1 (FDRenumber_returns_ENOSYS twoFilesProvider 4 5 4%nat
                       ltac:(vm_compute; reflexivity))
                ltac:(vm_compute; reflexivity) ltac:(vm_compute; reflexivity))
    as (H1 & H2 & H3 & H4).
  split; [exact H1|]. split; [exact H2|]. split; [exact H3|].
  rewrite H4. vm_compute. reflexivity.
Defined.

(** ** [FDStatSetFlags] *)

Lemma lxor_cancel (a b : Z) : Z.lxor a (Z.lxor b a) = b.
Proof.
  rewrite (Z.lxor_comm b a), <- Z.lxor_assoc, Z.lxor_nilpotent.
  apply Z.lxor_0_l.
Qed.

(** C5 (the code departs from the claim). [FDStatSetFlags] refuses a change
    with [ENOSYS] only when the difference holds all three of [Sync],
    [DSync] and [RSync] ([Has] tests for all the bits). On an entry holding
    [FDStatSetFlagsRight], when the difference is non-zero and includes
    some but not all of these bits, the call goes on to the host [fcntl]
    and, if the host accepts, stores the requested flags in the cache and
    returns [ESUCCESS]. *)
Theorem FDStatSetFlags_partial_sync_change_not_refused :
  forall (h : unix.Host) (p : Provider) (fd : Z) (flags : wasi.FDFlags) (f : loc),
    lookupFD p fd wasi.FDStatSetFlagsRight = Found f ->
    let syncBits := Z.lor (Z.lor wasi.Sync wasi.DSync) wasi.RSync in
    let changes := Z.lxor flags (wasi.Flags (fdinfo.stat (deref p f))) in
    let hostfd := uintptr (fdinfo.fd (deref p f)) in
    changes <> 0 ->
    wasi.HasAny changes syncBits = true ->
    wasi.Has changes syncBits = false ->
    (exists rest,
        syscalls (fst (FDStatSetFlags h p fd flags)) =
        syscalls p ++ unix.FcntlInt hostfd unix.F_GETFL 0 :: rest) /\
    ((forall log cmd arg, exists v, unix.fcntlInt h log hostfd cmd arg = inr v) ->
     snd (FDStatSetFlags h p fd flags) = wasi.ESUCCESS /\
     wasi.Flags (fdinfo.stat (deref (fst (FDStatSetFlags h p fd flags)) f)) = flags).
Proof.
  intros h p fd flags f Hl. cbv zeta. intros Hne _ Hall.
  unfold FDStatSetFlags. rewrite Hl. cbv zeta.
  apply Z.eqb_neq in Hne. rewrite Hne, Hall.
  split.
  - destruct (unix.fcntlInt h (syscalls p) _ unix.F_GETFL 0) as [err|fl].
    + exists []. reflexivity.
    + match goal with
      | |- context [unix.fcntlInt h ?l ?a unix.F_SETFL ?b] =>
          destruct (unix.fcntlInt h l a unix.F_SETFL b) as [err|v]
      end.
      * eexists. simpl. rewrite <- app_assoc. reflexivity.
      * eexists. simpl. rewrite <- app_assoc. reflexivity.
  - intros Hok.
    destruct (Hok (syscalls p) unix.F_GETFL 0) as [fl ->].
    match goal with
    | |- context [unix.fcntlInt h ?l ?a unix.F_SETFL ?b] =>
        destruct (Hok l unix.F_SETFL b) as [v ->]
    end.
    simpl. split; [reflexivity|].
    rewrite (deref_store _ f). simpl. apply lxor_cancel.
Qed.

(** Asking for [Sync] alone on the standard output of [startProvider]. *)
Lemma FDStatSetFlags_partial_sync_change_not_refused_witness :
  lookupFD startProvider 1 wasi.FDStatSetFlagsRight = Found 1%nat /\
  snd (FDStatSetFlags hostOK startProvider 1 wasi.Sync) = wasi.ESUCCESS /\
  wasi.Flags (fdinfo.stat
    (deref (fst (FDStatSetFlags hostOK startProvider 1 wasi.Sync)) 1%nat)) = wasi.Sync.
Proof.
  split; [vm_compute; reflexivity|].
  apply (FDStatSetFlags_partial_sync_change_not_refused hostOK startProvider 1
           wasi.Sync 1%nat);
    try (vm_compute; reflexivity).
  - vm_compute. discriminate.
  - intros log cmd arg. exists 0. reflexivity.
Defined.

(** ** The descriptor table *)

Section TableFacts.
Context {Item : Type}.
Implicit Types (t : gmap Z Item) (k j : Z) (fuel : nat).

Lemma firstFree_ge t k fuel : k <= descriptor.firstFree t k fuel.
Proof.
  revert k. induction fuel as [|fuel IH]; intros k; simpl; [lia|].
  destruct (t !! k); [|lia]. specialize (IH (k + 1)). lia.
Qed.

Lemma firstFree_ext t t' k fuel :
  (forall j, k <= j -> t !! j = t' !! j) ->
  descriptor.firstFree t k fuel = descriptor.firstFree t' k fuel.
Proof.
  revert k. induction fuel as [|fuel IH]; intros k H; simpl; [reflexivity|].
  rewrite <- (H k) by lia.
  destruct (t !! k); [|reflexivity].
  apply IH. intros j Hj. apply H. lia.
Qed.

(** Looking [size t] slots ahead is enough to reach a free slot. *)
Lemma firstFree_free fuel : forall t k,
  (size t <= fuel)%nat -> t !! descriptor.firstFree t k fuel = None.
Proof.
  induction fuel as [|fuel IH]; intros t k Hs; simpl.
  - assert (size t = 0%nat) as ->%map_size_empty_inv by lia.
    apply lookup_empty.
  - destruct (t !! k) as [x|] eqn:Hk; [|exact Hk].
    rewrite (firstFree_ext t (delete k t) (k + 1)).
    2:{ intros j Hj. rewrite lookup_delete_ne by lia. reflexivity. }
    pose proof (firstFree_ge (delete k t) (k + 1) fuel) as Hge.
    rewrite <- (lookup_delete_ne t k) by lia.
    apply IH. rewrite map_size_delete, Hk. simpl. lia.
Qed.

(** Every slot passed over is occupied. *)
Lemma firstFree_below t k fuel j :
  k <= j < descriptor.firstFree t k fuel -> is_Some (t !! j).
Proof.
  revert k. induction fuel as [|fuel IH]; intros k Hj; simpl in Hj; [lia|].
  destruct (t !! k) as [x|] eqn:Hk; [|lia].
  destruct (decide (j = k)) as [->|Hne]; [eauto|].
  apply (IH (k + 1)). lia.
Qed.

(** [Insert] uses the smallest non-negative free slot. *)
Lemma Insert_spec t (item : Item) :
  let key := snd (descriptor.Insert t item) in
  0 <= key /\ t !! key = None /\
  (forall j, 0 <= j < key -> is_Some (t !! j)) /\
  fst (descriptor.Insert t item) = <[key := item]> t.
Proof.
  unfold descriptor.Insert. simpl.
  split; [apply firstFree_ge|].
  split; [apply firstFree_free; lia|].
  split; [intros j Hj; eapply firstFree_below; exact Hj | reflexivity].
Qed.
End TableFacts.

Lemma deref_new (p : Provider) (v : fdinfo.t) :
  deref (fst (new p v)) (snd (new p v)) = v.
Proof. unfold deref, new. simpl. apply lookup_total_insert_eq. Qed.

(** ** [PathOpen] *)

(** The escape check: on a live directory with [PathOpenRight], a path
    whose normal form starts with [/] or with [../] is refused with [EPERM]
    and the provider is unchanged. *)
Lemma PathOpen_rejects_escape (h : unix.Host) (p : Provider) (fd : Z)
    (lf : wasi.LookupFlags) (path : string) (ofl : wasi.OpenFlags)
    (rb ri : wasi.Rights) (ff : wasi.FDFlags) (d : loc) :
  lookupFD p fd wasi.PathOpenRight = Found d ->
  strings.HasPrefix (filepath.Clean path) "/" = true \/
  strings.HasPrefix (filepath.Clean path) "../" = true ->
  PathOpen h p fd lf path ofl rb ri ff = (p, (-1, wasi.EPERM)).
Proof.
  intros Hl Hp. unfold PathOpen. rewrite Hl. cbv zeta.
  destruct Hp as [-> | ->]; [|rewrite orb_true_r]; reflexivity.
Qed.

(** C1 (the code departs from the claim). The escape check of [PathOpen]
    tests the normal form of the path for the prefixes [/] and [../]; the
    path [..] is its own normal form and has neither prefix. On a live
    directory with [PathOpenRight], [PathOpen] of [..] therefore does not
    return [EPERM]: it calls the host [openat] on [..] and, when the host
    accepts, returns [ESUCCESS] with a new descriptor in a slot that was
    free, whose entry is the parent of the directory. *)
Theorem PathOpen_dotdot_not_rejected :
  forall (h : unix.Host) (p : Provider) (fd : Z) (d : fdinfo.t) (hostfd : Z),
    entry p fd = Some d ->
    wasi.Has (wasi.RightsBase (fdinfo.stat d)) wasi.PathOpenRight = true ->
    let oflags := Z.lor (Z.lor unix.O_CLOEXEC unix.O_NOFOLLOW) unix.O_RDONLY in
    unix.openat h (syscalls p) (fdinfo.fd d) ".." oflags 420 = inr hostfd ->
    let r := PathOpen h p fd 0 ".." 0 0 0 0 in
    filepath.Clean ".." = ".."%string /\
    strings.HasPrefix (filepath.Clean "..") "../" = false /\
    snd (snd r) = wasi.ESUCCESS /\
    fds p !! fst (snd r) = None /\
    entry (fst r) (fst (snd r)) =
      Some (fdinfo.mk (filepath.Join (fdinfo.path d) "..") hostfd
              (wasi.mkFDStat wasi.RegularFileType 0 0 0) []) /\
    syscalls (fst r) = syscalls p ++ [unix.Openat (fdinfo.fd d) ".." oflags 420].
Proof.
  intros h p fd d hostfd He Hr. cbv zeta. intros Ho.
  apply entry_Some in He as (f & Hf & ->).
  split; [reflexivity|]. split; [reflexivity|].
  unfold PathOpen, lookupFD, descriptor.Lookup. rewrite Hf, Hr.
  change (filepath.Clean "..") with ".."%string.
  change (strings.HasPrefix ".." "/" || strings.HasPrefix ".." "../") with false.
  simpl negb. cbv iota zeta.
  change (Z.land 0 wasi.AllRights) with 0.
  change (wasi.andnot 0 (wasi.RightsInheriting (fdinfo.stat (deref p f)))) with 0.
  change (Z.land 0 (wasi.RightsInheriting (fdinfo.stat (deref p f)))) with 0.
  change (wasi.Has 0 wasi.OpenDirectory) with false.
  change (wasi.Has 0 wasi.OpenCreate) with false.
  change (wasi.Has 0 wasi.OpenExclusive) with false.
  change (wasi.Has 0 wasi.OpenTruncate) with false.
  change (wasi.Has 0 wasi.Append) with false.
  change (wasi.Has 0 wasi.DSync) with false.
  change (wasi.Has 0 wasi.Sync) with false.
  change (wasi.Has 0 wasi.NonBlock) with false.
  change (wasi.Has 0 wasi.SymlinkFollow) with false.
  change (wasi.HasAny 0 wasi.ReadRights) with false.
  change (wasi.HasAny 0 wasi.WriteRights) with false.
  unfold orIf. simpl negb. simpl andb. cbv iota.
  change (negb (Z.land (Z.lor (Z.lor unix.O_CLOEXEC unix.O_NOFOLLOW) unix.O_RDONLY)
                  unix.O_DIRECTORY =? 0)) with false.
  cbv iota.
  change (wasi.HasAny 0 wasi.ReadRights) with false.
  change (wasi.HasAny 0 wasi.WriteRights) with false.
  cbv iota.
  rewrite Ho.
  set (v := fdinfo.mk _ hostfd _ []).
  set (p1 := called p _).
  pose proof (deref_new p1 v) as Hd.
  destruct (new p1 v) as [p2 g] eqn:Hn. simpl in Hd.
  assert (Hfds : fds p2 = fds p).
  { unfold new in Hn. injection Hn as <- _. reflexivity. }
  assert (Hsys : syscalls p2 = syscalls p1).
  { unfold new in Hn. injection Hn as <- _. reflexivity. }
  pose proof (Insert_spec (fds p2) g) as (_ & Hfree & _ & Hins).
  destruct (descriptor.Insert (fds p2) g) as [t guestfd]. simpl in *.
  split; [reflexivity|].
  split; [rewrite <- Hfds; exact Hfree|].
  split; [|rewrite Hsys; reflexivity].
  unfold entry. simpl. rewrite Hins, lookup_insert_eq. simpl.
  unfold deref in *. simpl. rewrite Hd. reflexivity.
Qed.

(** Opening [..] on the pre-opened directory [/tmp] of [startProvider]
    yields a descriptor for the root directory. *)
Lemma PathOpen_dotdot_not_rejected_witness :
  let r := PathOpen hostOK startProvider 3 0 ".." 0 0 0 0 in
  entry startProvider 3 = Some (fdinfo.mk "/tmp" 7 dirStat []) /\
  snd (snd r) = wasi.ESUCCESS /\
  fds startProvider !! fst (snd r) = None /\
  entry (fst r) (fst (snd r)) =
    Some (fdinfo.mk (filepath.Join "/tmp" "..") 100
            (wasi.mkFDStat wasi.RegularFileType 0 0 0) []).
Proof.
  cbv zeta. split; [vm_compute; reflexivity|].
  destruct (PathOpen_dotdot_not_rejected hostOK startProvider 3
              (fdinfo.mk "/tmp" 7 dirStat []) 100
              ltac:(vm_compute; reflexivity) ltac:(vm_compute; reflexivity)
              ltac:(vm_compute; reflexivity))
    as (_ & _ & H1 & H2 & H3 & _).
  split; [exact H1|]. split; [exact H2 | exact H3].
Defined.

(** C3 (as amended). For every successful call to [PathOpen], the new
    entry's base rights are the requested base rights, masked to
    [AllRights], intersected with the directory entry's inheriting rights,
    with [FDSeekRight] removed when [OpenDirectory] is requested, and its
    inheriting rights are the requested inheriting rights, masked to
    [AllRights], intersected with the directory's inheriting rights; the
    masking is immaterial when the directory's inheriting rights lie within
    [AllRights]. On a live directory holding [PathOpenRight], for a path
    whose normal form starts with neither [/] nor [../], if the requested
    base (or inheriting) rights, masked to [AllRights], are not a subset of
    the directory's inheriting rights, the call returns [ENOTCAPABLE] and
    leaves the provider unchanged. *)
Theorem PathOpen_clips_rights :
  forall (h : unix.Host) (p : Provider) (fd : Z) (lookupFlags : wasi.LookupFlags)
         (path : string) (openFlags : wasi.OpenFlags)
         (rightsBase rightsInheriting : wasi.Rights) (fdFlags : wasi.FDFlags)
         (d : fdinfo.t),
    entry p fd = Some d ->
    let inheriting := wasi.RightsInheriting (fdinfo.stat d) in
    let strip := fun rights : wasi.Rights =>
      if wasi.Has openFlags wasi.OpenDirectory
      then wasi.andnot rights wasi.FDSeekRight else rights in
    let r := PathOpen h p fd lookupFlags path openFlags rightsBase
               rightsInheriting fdFlags in
    (snd (snd r) = wasi.ESUCCESS ->
     exists e, entry (fst r) (fst (snd r)) = Some e /\
       wasi.RightsBase (fdinfo.stat e) =
         strip (Z.land (Z.land rightsBase wasi.AllRights) inheriting) /\
       wasi.RightsInheriting (fdinfo.stat e) =
         Z.land (Z.land rightsInheriting wasi.AllRights) inheriting /\
       (subseteq inheriting wasi.AllRights ->
        wasi.RightsBase (fdinfo.stat e) = strip (Z.land rightsBase inheriting) /\
        wasi.RightsInheriting (fdinfo.stat e) = Z.land rightsInheriting inheriting)) /\
    (wasi.Has (wasi.RightsBase (fdinfo.stat d)) wasi.PathOpenRight = true ->
     strings.HasPrefix (filepath.Clean path) "/" = false ->
     strings.HasPrefix (filepath.Clean path) "../" = false ->
     ~ subseteq (Z.land rightsBase wasi.AllRights) inheriting \/
     ~ subseteq (Z.land rightsInheriting wasi.AllRights) inheriting ->
     r = (p, (-1, wasi.ENOTCAPABLE))).
Proof.
  intros h p fd lf path ofl rb ri ff d He.
  apply entry_Some in He as (f & Hf & ->).
  cbv zeta. unfold PathOpen, lookupFD, descriptor.Lookup. rewrite Hf.
  destruct (wasi.Has (wasi.RightsBase (fdinfo.stat (deref p f))) wasi.PathOpenRight)
    eqn:Hr; simpl negb; cbv iota;
    [|split; [discriminate | intros; discriminate]].
  cbv zeta.
  match goal with
  | |- context [if ?c then (p, (-1, wasi.EPERM)) else _] => destruct c eqn:Hp
  end.
  { split; [discriminate|]. intros _ H1 H2. rewrite H1, H2 in Hp. discriminate. }
  match goal with
  | |- context [if ?c then (p, (-1, wasi.ENOTCAPABLE)) else _] => destruct c eqn:Hb
  end.
  { split; [discriminate | reflexivity]. }
  match goal with
  | |- context [if ?c then (p, (-1, wasi.ENOTCAPABLE)) else _] => destruct c eqn:Hi
  end.
  { split; [discriminate | reflexivity]. }
  apply negb_false_iff, andnot_eqb_subseteq in Hb, Hi.
  split; [|intros _ _ _ [H|H]; contradiction].
  match goal with
  | |- context [if ?c then (p, (-1, wasi.ENOTCAPABLE)) else _] => destruct c
  end; [discriminate|].
  match goal with
  | |- context [if ?c then (p, (-1, wasi.ENOTCAPABLE)) else _] => destruct c
  end; [discriminate|].
  match goal with
  | |- context [if ?c then (wasi.DirectoryType, 0) else _] => destruct c
  end; cbv iota.
  all: match goal with
       | |- context [unix.openat ?hh ?a ?b ?c ?d ?e] =>
           destruct (unix.openat hh a b c d e) as [err|hostfd]
       end.
  all: try (intros H; exfalso; exact (makeErrno_failure _ H)).
  all: intros _; unfold new, descriptor.Insert; cbv beta iota zeta.
  all: eexists; split;
    [ unfold entry; simpl; rewrite lookup_insert_eq; simpl;
      unfold deref; simpl; rewrite lookup_total_insert_eq; reflexivity |].
  all: simpl.
  all: split; [reflexivity|]; split; [reflexivity|].
  all: intros Hinv; rewrite !(subseteq_land_absorb _ _ _ Hinv).
  all: split; reflexivity.
Qed.

(** Opening a file for reading under the pre-opened directory. *)
Lemma PathOpen_clips_rights_witness :
  let r := PathOpen hostOK startProvider 3 0 "x" 0 wasi.FDReadRight 0 0 in
  entry startProvider 3 = Some (fdinfo.mk "/tmp" 7 dirStat []) /\
  exists e, entry (fst r) (fst (snd r)) = Some e /\
    wasi.RightsBase (fdinfo.stat e) =
      Z.land (Z.land wasi.FDReadRight wasi.AllRights) wasi.AllRights /\
    wasi.RightsInheriting (fdinfo.stat e) =
      Z.land (Z.land 0 wasi.AllRights) wasi.AllRights.
Proof.
  cbv zeta. split; [vm_compute; reflexivity|].
  destruct (PathOpen_clips_rights hostOK startProvider 3 0 "x" 0
              wasi.FDReadRight 0 0 (fdinfo.mk "/tmp" 7 dirStat [])
              ltac:(vm_compute; reflexivity)) as [H _].
  destruct (H ltac:(vm_compute; reflexivity)) as (e & He & Hb & Hi & _).
  exists e. split; [exact He|]. split; [exact Hb | exact Hi].
Defined.

(** C3 (counterexample to the claim as stated). Opening a directory with
    [FDSeekRight] and [FDReadDirRight] requested, under a directory that
    may pass on every right, succeeds, yet the new entry's base rights are
    not the requested rights intersected with the directory's inheriting
    rights: [FDSeekRight] is missing. *)
Lemma PathOpen_directory_rights_counterexample :
  let requested := Z.lor wasi.FDSeekRight wasi.FDReadDirRight in
  let r := PathOpen hostOK startProvider 3 0 "sub" wasi.OpenDirectory
             requested 0 0 in
  entry startProvider 3 = Some (fdinfo.mk "/tmp" 7 dirStat []) /\
  snd (snd r) = wasi.ESUCCESS /\
  exists e, entry (fst r) (fst (snd r)) = Some e /\
    wasi.RightsBase (fdinfo.stat e) = wasi.FDReadDirRight /\
    wasi.RightsBase (fdinfo.stat e) <>
      Z.land requested (wasi.RightsInheriting dirStat).
Proof.
  cbv zeta. split; [vm_compute; reflexivity|].
  split; [vm_compute; reflexivity|].
  eexists. split; [vm_compute; reflexivity|].
  split; [vm_compute; reflexivity | vm_compute; discriminate].
Qed.

(** ** [PollOneOff] *)

Lemma unsupportedClock_test (s : wasi.Subscription) :
  unsupportedClock s ->
  wasi.SubEventType s = wasi.ClockEvent /\
  negb (wasi.ID (wasi.GetClock s) =? wasi.Monotonic)
  || wasi.Has (wasi.ClockFlags (wasi.GetClock s)) wasi.Abstime = true.
Proof.
  intros [Ht [Hid|Hfl]]; split; try exact Ht.
  - apply Z.eqb_neq in Hid. rewrite Hid. reflexivity.
  - rewrite Hfl. apply orb_true_r.
Qed.

(** The first loop stops with [ENOSYS] at an unsupported clock subscription
    when the descriptor subscriptions before it pass their lookup. *)
Lemma pollSubscriptions_unsupported_clock (p : Provider)
    (s : wasi.Subscription) (after : list wasi.Subscription) :
  unsupportedClock s ->
  forall (before : list wasi.Subscription) (pfds : list unix.PollFd) (timeout : Z),
    Forall (fun s' => isFDSubscription s' ->
              exists f, lookupFD p (wasi.FD (wasi.GetFDReadWrite s'))
                          wasi.PollFDReadWriteRight = Found f) before ->
    exists pfds',
      pollSubscriptions p (before ++ s :: after) pfds timeout =
      (pfds', inl wasi.ENOSYS).
Proof.
  intros Hs. apply unsupportedClock_test in Hs as [Hty Hbad].
  induction before as [|s' before IH]; intros pfds timeout Hall.
  - simpl. rewrite Hty, Hbad. eauto.
  - apply Forall_cons in Hall as [Hs' Hall]. simpl.
    unfold isFDSubscription in Hs'.
    destruct (wasi.SubEventType s') eqn:Hty'.
    + destruct (negb (wasi.ID (wasi.GetClock s') =? wasi.Monotonic)
                || wasi.Has (wasi.ClockFlags (wasi.GetClock s')) wasi.Abstime);
        [eauto|].
      destruct (timeout <? 0); [apply IH; exact Hall|].
      destruct ((timeout >=? 0) && _); apply IH; exact Hall.
    + destruct Hs' as [f ->]; [discriminate|]. apply IH. exact Hall.
    + destruct Hs' as [f ->]; [discriminate|]. apply IH. exact Hall.
Qed.

(** C7 (as amended). For every call to [PollOneOff] whose subscription list
    contains a clock subscription with clock id other than [Monotonic], or
    with the [Abstime] flag set, and in which every descriptor subscription
    that comes before it passes its lookup, the call returns [ENOSYS] and
    hands back the events list as it was given. *)
Theorem PollOneOff_unsupported_clock :
  forall (h : unix.Host) (p : Provider)
         (before : list wasi.Subscription) (s : wasi.Subscription)
         (after : list wasi.Subscription) (events : list wasi.Event),
    unsupportedClock s ->
    Forall (fun s' => isFDSubscription s' ->
              exists f, lookupFD p (wasi.FD (wasi.GetFDReadWrite s'))
                          wasi.PollFDReadWriteRight = Found f) before ->
    exists pfds,
      PollOneOff h p (before ++ s :: after) events =
      Returns (setPollfds p pfds, (events, wasi.ENOSYS)).
Proof.
  intros h p before s after events Hs Hall.
  destruct (pollSubscriptions_unsupported_clock p s after Hs before [] (-1) Hall)
    as [pfds Hpoll].
  exists pfds. unfold PollOneOff. rewrite Hpoll.
  destruct before; reflexivity.
Qed.

(** A read subscription on the standard input followed by a realtime clock. *)
Lemma PollOneOff_unsupported_clock_witness :
  unsupportedClock realtimeClock /\
  exists pfds,
    PollOneOff hostOK startProvider ([readStdin] ++ realtimeClock :: []) [] =
    Returns (setPollfds startProvider pfds, ([], wasi.ENOSYS)).
Proof.
  assert (Hc : unsupportedClock realtimeClock).
  { split; [reflexivity|]. left. discriminate. }
  split; [exact Hc|].
  apply (PollOneOff_unsupported_clock hostOK startProvider [readStdin]
           realtimeClock [] [] Hc).
  constructor; [|constructor].
  intros _. exists 0%nat. vm_compute. reflexivity.
Defined.

(** C7 (counterexample to the claim as stated). The list holds a realtime
    clock subscription, yet the call returns [EBADF], not [ENOSYS]: the
    read subscription before it names a descriptor that is not open, and
    the first loop stops there. *)
Lemma PollOneOff_unsupported_clock_counterexample :
  unsupportedClock realtimeClock /\
  exists p',
    PollOneOff hostOK startProvider [readClosed; realtimeClock] [] =
    Returns (p', ([], wasi.EBADF)).
Proof.
  split.
  - split; [reflexivity|]. left. discriminate.
  - eexists. vm_compute. reflexivity.
Qed.

Lemma isFDSubscription_dec (s : wasi.Subscription) :
  {isFDSubscription s} + {wasi.SubEventType s = wasi.ClockEvent}.
Proof.
  unfold isFDSubscription.
  destruct (decide (wasi.SubEventType s = wasi.ClockEvent)); [right|left]; assumption.
Qed.






(** With an empty events list the same call returns the one event. *)
Example PollOneOff_stdin_ready :
  exists p',
    PollOneOff hostOK startProvider [readStdin] [] =
    Returns (p', ([wasi.mkEvent 1 wasi.ESUCCESS wasi.FDReadEvent 1 0],
                  wasi.ESUCCESS)).
Proof. eexists. vm_compute. reflexivity. Qed.

(** ** [FDReadDir] *)

Section ReadDir.
Variable h : unix.Host.
Variable makeFileType : Z -> wasi.FileType.
Variable sizeofDirEntry : Z.





End ReadDir.



(** * Further properties *)

(** ** The rights algebra and its rendering *)

Lemma Has_subseteq (flags f : wasi.Rights) :
  wasi.Has flags f = true <-> subseteq f flags.
Proof.
  unfold wasi.Has, subseteq. rewrite Z.eqb_eq. split.
  - intros H i Hi. rewrite <- H, Z.land_spec in Hi.
    apply andb_true_iff in Hi. tauto.
  - intros H. apply Z.bits_inj'. intros n _. rewrite Z.land_spec.
    destruct (Z.testbit f n) eqn:Hf; [|apply andb_false_r].
    rewrite (H n Hf). reflexivity.
Qed.

Lemma Has_bit (flags : wasi.Rights) (i : Z) :
  0 <= i -> wasi.Has flags (Z.shiftl 1 i) = Z.testbit flags i.
Proof.
  intros Hi. apply eq_true_iff_eq. rewrite Has_subseteq. unfold subseteq.
  rewrite Z.shiftl_1_l. split.
  - intros H. apply H. rewrite Z.pow2_bits_eqb by assumption. apply Z.eqb_refl.
  - intros H j Hj.
    destruct (Z.ltb_spec j 0) as [Hneg|Hpos].
    + rewrite Z.testbit_neg_r in Hj by assumption. discriminate.
    + rewrite Z.pow2_bits_eqb in Hj by assumption.
      apply Z.eqb_eq in Hj. subst j. exact H.
Qed.

(** X1. [Has] is the all-bits test and [HasAny] the any-bit test: a set
    has the union of two sets when it has both, and has any of the union
    when it has any of either; every set has the empty set and none has
    any of it; having a non-empty set implies having any of it. *)
Theorem Has_all_HasAny_some :
  forall flags a b : wasi.Rights,
    wasi.Has flags (Z.lor a b) = wasi.Has flags a && wasi.Has flags b /\
    wasi.HasAny flags (Z.lor a b) = wasi.HasAny flags a || wasi.HasAny flags b /\
    wasi.Has flags 0 = true /\
    wasi.HasAny flags 0 = false /\
    (wasi.Has flags a = true -> a <> 0 -> wasi.HasAny flags a = true).
Proof.
  intros flags a b. split; [|split; [|split; [|split]]].
  - apply eq_true_iff_eq. rewrite andb_true_iff, !Has_subseteq.
    unfold subseteq. split.
    + intros H. split; intros i Hi; apply H; rewrite Z.lor_spec, Hi;
        [reflexivity | apply orb_true_r].
    + intros [Ha Hb] i Hi. rewrite Z.lor_spec in Hi.
      apply orb_true_iff in Hi as [Hi|Hi]; auto.
  - unfold wasi.HasAny. rewrite Z.land_lor_distr_r, <- negb_andb. f_equal.
    apply eq_true_iff_eq.
    rewrite andb_true_iff, !Z.eqb_eq. apply Z.lor_eq_0_iff.
  - apply Has_zero.
  - unfold wasi.HasAny. rewrite Z.land_0_r. reflexivity.
  - unfold wasi.Has, wasi.HasAny. intros H Hne.
    apply Z.eqb_eq in H. rewrite H.
    apply negb_true_iff, Z.eqb_neq. exact Hne.
Qed.

Lemma concat_cons_cons (sep a b : string) (l : list string) :
  String.concat sep (a :: b :: l) =
  (a ++ sep ++ String.concat sep (b :: l))%string.
Proof. reflexivity. Qed.

Lemma string_app_cons (c : ascii) (a b : string) :
  (String c a ++ b = String c (a ++ b))%string.
Proof. reflexivity. Qed.

Lemma string_app_assoc (a b c : string) :
  ((a ++ b) ++ c = a ++ (b ++ c))%string.
Proof.
  induction a as [|x a IH]; [reflexivity|].
  rewrite !string_app_cons, IH. reflexivity.
Qed.

Lemma string_length_zero (s : string) : String.length s = 0%nat -> s = ""%string.
Proof. destruct s; [reflexivity | discriminate]. Qed.

(** The loop of [String] joins with [|] what it was given and the names of
    the rights ahead, provided no name is empty. *)
Lemma stringLoop_concat (flags : wasi.Rights) :
  forall (names : list string) (i : Z) (s : string),
    0 <= i ->
    Forall (fun name => name <> ""%string) names ->
    wasi.stringLoop flags i names s =
    String.concat "|"
      ((if (String.length s =? 0)%nat then [] else [s]) ++
       namesFrom flags i names).
Proof.
  induction names as [|name rest IH]; intros i s Hi Hnames.
  - simpl. destruct s; reflexivity.
  - inversion Hnames as [|? ? Hname Hrest]; subst.
    simpl. rewrite (Has_bit flags i Hi).
    destruct (Z.testbit flags i); simpl negb; cbv iota.
    + rewrite IH by (assumption || lia).
      destruct s as [|c s].
      * simpl. destruct name as [|c name]; [contradiction|]. reflexivity.
      * change (0 <? String.length (String c s))%nat with true. cbv iota.
        change (String.length (String c s) =? 0)%nat with false. cbv iota.
        change ((String c s ++ "|") ++ name)%string
          with (String c ((s ++ "|") ++ name))%string.
        change (String.length (String c ((s ++ "|") ++ name)) =? 0)%nat
          with false. cbv iota.
        change ([String c s] ++ name :: namesFrom flags (i + 1) rest)
          with (String c s :: name :: namesFrom flags (i + 1) rest).
        rewrite concat_cons_cons.
        change ([String c ((s ++ "|") ++ name)] ++ namesFrom flags (i + 1) rest)
          with (String c ((s ++ "|") ++ name) :: namesFrom flags (i + 1) rest).
        destruct (namesFrom flags (i + 1) rest) as [|n l].
        -- simpl. rewrite string_app_assoc. reflexivity.
        -- rewrite !concat_cons_cons.
           change (String c ((s ++ "|") ++ name) ++ "|" ++ String.concat "|" (n :: l))%string
             with (String c (((s ++ "|") ++ name) ++ "|" ++ String.concat "|" (n :: l)))%string.
           change (String c s ++ "|" ++ name ++ "|" ++ String.concat "|" (n :: l))%string
             with (String c (s ++ "|" ++ name ++ "|" ++ String.concat "|" (n :: l)))%string.
           rewrite !string_app_assoc. reflexivity.
    + apply IH; [lia | assumption].
Qed.

Lemma rightsStrings_nonempty :
  Forall (fun name => name <> ""%string) wasi.rightsStrings.
Proof. repeat constructor; discriminate. Qed.

(** X2. [String] renders the empty set as [Rights(0)], a set with all
    thirty rights as [AllRights], any other set as the names of its rights
    by ascending bit position joined with [|], and a word with none of the
    thirty bits as [Rights(n)] with [n] its decimal numeral. *)
Theorem String_lists_set_rights :
  forall flags : wasi.Rights,
    wasi.String flags =
    if flags =? 0 then "Rights(0)"%string
    else if wasi.Has flags wasi.AllRights then "AllRights"%string
    else match setRights flags with
         | [] => ("Rights(" ++ pretty flags ++ ")")%string
         | names => String.concat "|" names
         end.
Proof.
  intros flags. unfold wasi.String, setRights.
  destruct (flags =? 0); [reflexivity|].
  destruct (wasi.Has flags wasi.AllRights); [reflexivity|].
  cbv zeta.
  rewrite (stringLoop_concat flags wasi.rightsStrings 0 "" ltac:(lia)
             rightsStrings_nonempty).
  change ((if (String.length "" =? 0)%nat then [] else [""%string]) ++
          namesFrom flags 0 wasi.rightsStrings)
    with (namesFrom flags 0 wasi.rightsStrings).
  destruct (namesFrom flags 0 wasi.rightsStrings) as [|n l] eqn:Hl.
  - reflexivity.
  - assert (Hn : n <> ""%string).
    { assert (Hall : Forall (fun name => name <> ""%string) (n :: l)).
      { rewrite <- Hl. clear Hl.
        generalize 0 at 1. generalize rightsStrings_nonempty.
        generalize wasi.rightsStrings.
        induction l0 as [|x l0 IH]; intros Hne k; simpl; [constructor|].
        inversion Hne; subst.
        destruct (Z.testbit flags k); [constructor|]; auto. }
      inversion Hall; assumption. }
    destruct n as [|c n]; [contradiction|].
    destruct l; reflexivity.
Qed.

Lemma namesFrom_Forall (P : string -> Prop) (flags : wasi.Rights) :
  forall (names : list string) (i : Z),
    Forall P names -> Forall P (namesFrom flags i names).
Proof.
  induction names as [|name rest IH]; intros i Hall; simpl; [constructor|].
  inversion Hall; subst.
  destruct (Z.testbit flags i); [constructor|]; auto.
Qed.

(** Two sets that hold the same names among distinct [names] agree on the
    bits of these names. *)
Lemma namesFrom_inj (a b : wasi.Rights) :
  forall (names : list string) (i : Z),
    NoDup names ->
    namesFrom a i names = namesFrom b i names ->
    forall k, (k < length names)%nat ->
              Z.testbit a (i + Z.of_nat k) = Z.testbit b (i + Z.of_nat k).
Proof.
  induction names as [|name rest IH]; intros i Hnd Heq k Hk;
    [simpl in Hk; lia|].
  apply NoDup_cons in Hnd as [Hnotin Hnd].
  assert (Hsub : forall c, name ∈ namesFrom c (i + 1) rest -> False).
  { intros c Hin. apply Hnotin.
    assert (HF : Forall (fun n => n ∈ rest) (namesFrom c (i + 1) rest)).
    { apply namesFrom_Forall, Forall_forall. auto. }
    rewrite Forall_forall in HF. apply HF. exact Hin. }
  simpl in Heq.
  destruct (Z.testbit a i) eqn:Ha, (Z.testbit b i) eqn:Hb.
  - injection Heq as Heq. destruct k as [|k].
    + rewrite Z.add_0_r, Ha, Hb. reflexivity.
    + replace (i + Z.of_nat (S k)) with ((i + 1) + Z.of_nat k) by lia.
      apply (IH (i + 1) Hnd Heq). simpl in Hk. lia.
  - exfalso. apply (Hsub b). rewrite <- Heq. apply list_elem_of_here.
  - exfalso. apply (Hsub a). rewrite Heq. apply list_elem_of_here.
  - destruct k as [|k].
    + rewrite Z.add_0_r, Ha, Hb. reflexivity.
    + replace (i + Z.of_nat (S k)) with ((i + 1) + Z.of_nat k) by lia.
      apply (IH (i + 1) Hnd Heq). simpl in Hk. lia.
Qed.

Lemma freeOf_app_sep (c : ascii) (x r : string) :
  freeOf c (x ++ String c r) = false.
Proof.
  induction x as [|d x IH].
  - simpl. rewrite Ascii.eqb_refl. reflexivity.
  - rewrite string_app_cons. simpl. rewrite IH. apply andb_false_r.
Qed.

(** Two strings cut at the first separator agree piece by piece. *)
Lemma app_sep_inj (c : ascii) :
  forall x y r r' : string,
    freeOf c x = true -> freeOf c y = true ->
    (x ++ String c r = y ++ String c r')%string ->
    x = y /\ r = r'.
Proof.
  induction x as [|d x IH]; intros [|e y] r r' Hx Hy Heq.
  - injection Heq as ->. auto.
  - rewrite string_app_cons in Heq. injection Heq as <- _.
    simpl in Hy. rewrite Ascii.eqb_refl in Hy. discriminate.
  - rewrite string_app_cons in Heq. injection Heq as -> _.
    simpl in Hx. rewrite Ascii.eqb_refl in Hx. discriminate.
  - rewrite !string_app_cons in Heq. injection Heq as -> Heq.
    simpl in Hx, Hy. apply andb_true_iff in Hx as [_ Hx], Hy as [_ Hy].
    destruct (IH y r r' Hx Hy Heq) as [-> ->]. auto.
Qed.

(** Joining with a separator loses nothing when the pieces are not empty
    and hold no separator. *)
Lemma concat_sep_inj (c : ascii) :
  forall l1 l2 : list string,
    Forall (fun n => n <> ""%string /\ freeOf c n = true) l1 ->
    Forall (fun n => n <> ""%string /\ freeOf c n = true) l2 ->
    String.concat (String c "") l1 = String.concat (String c "") l2 ->
    l1 = l2.
Proof.
  induction l1 as [|a l1 IH]; intros [|b l2] H1 H2 Heq.
  - reflexivity.
  - exfalso. inversion H2 as [|? ? [Hb _] _]; subst.
    destruct b as [|x b]; [contradiction|].
    destruct l2; simpl in Heq; [discriminate|].
    rewrite string_app_cons in Heq. discriminate.
  - exfalso. inversion H1 as [|? ? [Ha _] _]; subst.
    destruct a as [|x a]; [contradiction|].
    destruct l1; simpl in Heq; [discriminate|].
    rewrite string_app_cons in Heq. discriminate.
  - inversion H1 as [|? ? [Ha Hfa] H1']; subst.
    inversion H2 as [|? ? [Hb Hfb] H2']; subst.
    destruct l1 as [|a2 l1], l2 as [|b2 l2].
    + simpl in Heq. subst. reflexivity.
    + exfalso. rewrite concat_cons_cons in Heq.
      change (String.concat (String c "") [a]) with a in Heq.
      change (String c "" ++ ?x)%string with (String c x) in Heq.
      rewrite Heq, freeOf_app_sep in Hfa. discriminate.
    + exfalso. rewrite concat_cons_cons in Heq.
      change (String.concat (String c "") [b]) with b in Heq.
      change (String c "" ++ ?x)%string with (String c x) in Heq.
      rewrite <- Heq, freeOf_app_sep in Hfb. discriminate.
    + rewrite !concat_cons_cons in Heq.
      change (String c "" ++ ?x)%string with (String c x) in Heq.
      destruct (app_sep_inj c a b _ _ Hfa Hfb Heq) as [-> Htl].
      f_equal. apply IH; assumption.
Qed.

Lemma rightsStrings_NoDup : NoDup wasi.rightsStrings.
Proof.
  apply (bool_decide_unpack (NoDup wasi.rightsStrings)).
  vm_compute. exact I.
Qed.

Lemma rightsStrings_pieces :
  Forall (fun n => n <> ""%string /\ freeOf "|" n = true) wasi.rightsStrings.
Proof.
  apply Forall_forall. intros n Hn.
  repeat (apply elem_of_cons in Hn as [->|Hn]; [split; [discriminate | reflexivity]|]).
  inversion Hn.
Qed.

(** Every name of a right starts with [F], [P] or [S]. *)
Lemma rightsStrings_initial :
  Forall (fun n => exists c n', n = String c n' /\
                     (c = "F" \/ c = "P" \/ c = "S")%char)
         wasi.rightsStrings.
Proof.
  apply Forall_forall. intros n Hn.
  repeat (apply elem_of_cons in Hn as [->|Hn];
          [eexists _, _; split; [reflexivity|];
           first [left; reflexivity | right; left; reflexivity
                 | right; right; reflexivity]|]).
  inversion Hn.
Qed.

Lemma concat_initial (sep : string) (c : ascii) (n : string) (l : list string) :
  exists rest, String.concat sep (String c n :: l) = String c rest.
Proof.
  destruct l as [|m l]; [exists n; reflexivity|].
  rewrite concat_cons_cons, string_app_cons. eauto.
Qed.

(** A word within [AllRights] has no bit at position 30 or above. *)
Lemma within_AllRights_high (a : wasi.Rights) (k : Z) :
  0 <= a <= wasi.AllRights -> 30 <= k -> Z.testbit a k = false.
Proof.
  intros Ha Hk. destruct (Z.eq_dec a 0) as [->|Hne]; [apply Z.bits_0|].
  apply Z.bits_above_log2; [lia|].
  assert (Hlt : a < 2 ^ 30) by (change wasi.AllRights with (2 ^ 30 - 1) in Ha; lia).
  apply Z.log2_lt_pow2 in Hlt; lia.
Qed.

Lemma namesFrom_nil (flags : wasi.Rights) :
  forall (names : list string) (i : Z),
    namesFrom flags i names = [] ->
    forall k, (k < length names)%nat -> Z.testbit flags (i + Z.of_nat k) = false.
Proof.
  induction names as [|name rest IH]; intros i Hnil k Hk; [simpl in Hk; lia|].
  simpl in Hnil. destruct (Z.testbit flags i) eqn:Hb; [discriminate|].
  destruct k as [|k]; [rewrite Z.add_0_r; exact Hb|].
  replace (i + Z.of_nat (S k)) with ((i + 1) + Z.of_nat k) by lia.
  apply IH; [exact Hnil | simpl in Hk; lia].
Qed.

(** Two words within [AllRights] that agree on the thirty named bits are
    equal. *)
Lemma within_AllRights_ext (a b : wasi.Rights) :
  0 <= a <= wasi.AllRights -> 0 <= b <= wasi.AllRights ->
  (forall k, (k < 30)%nat -> Z.testbit a (Z.of_nat k) = Z.testbit b (Z.of_nat k)) ->
  a = b.
Proof.
  intros Ha Hb H. apply Z.bits_inj'. intros n Hn.
  destruct (Z.ltb_spec n 30) as [Hlt|Hge].
  - rewrite <- (Z2Nat.id n) by assumption. apply H. lia.
  - rewrite !within_AllRights_high by assumption. reflexivity.
Qed.

Lemma setRights_eq (flags : wasi.Rights) :
  setRights flags = namesFrom flags 0 wasi.rightsStrings.
Proof. unfold setRights. reflexivity. Qed.

Lemma stringLoop_setRights (flags : wasi.Rights) :
  wasi.stringLoop flags 0 wasi.rightsStrings "" =
  String.concat "|" (setRights flags).
Proof.
  rewrite (stringLoop_concat flags wasi.rightsStrings 0 "" ltac:(lia)
             rightsStrings_nonempty).
  change (String.length "" =? 0)%nat with true. cbv iota.
  rewrite setRights_eq.
  exact (f_equal (String.concat "|")
           (app_nil_l (namesFrom flags 0 wasi.rightsStrings))).
Qed.

Lemma Has_AllRights_within (a : wasi.Rights) :
  0 <= a <= wasi.AllRights -> wasi.Has a wasi.AllRights = true ->
  a = wasi.AllRights.
Proof.
  intros Ha Hall.
  unfold wasi.Has in Hall. apply Z.eqb_eq in Hall.
  change wasi.AllRights with (Z.ones 30) in Hall at 1.
  rewrite Z.land_ones in Hall by lia.
  rewrite Z.mod_small in Hall; [exact Hall|].
  change wasi.AllRights with (2 ^ 30 - 1) in Ha. lia.
Qed.

Lemma setRights_nil_within (a : wasi.Rights) :
  0 <= a <= wasi.AllRights -> setRights a = [] -> a = 0.
Proof.
  intros Ha Hl.
  apply (within_AllRights_ext a 0 Ha); [vm_compute; split; discriminate|].
  intros k Hk. rewrite Z.bits_0.
  rewrite setRights_eq in Hl.
  pose proof (namesFrom_nil a _ 0 Hl k) as Hbit.
  change (length wasi.rightsStrings) with 30%nat in Hbit.
  rewrite Z.add_0_l in Hbit. exact (Hbit Hk).
Qed.

(** What [String] returns on a word within [AllRights]. *)
Lemma String_within (a : wasi.Rights) :
  0 <= a <= wasi.AllRights ->
  (a = 0 /\ wasi.String a = "Rights(0)"%string) \/
  (a = wasi.AllRights /\ wasi.String a = "AllRights"%string) \/
  (a <> 0 /\ a <> wasi.AllRights /\
   exists n l, setRights a = n :: l /\
               wasi.String a = String.concat "|" (n :: l)).
Proof.
  intros Ha. unfold wasi.String.
  destruct (Z.eqb_spec a 0) as [->|Hne]; [left; auto|]. right.
  destruct (wasi.Has a wasi.AllRights) eqn:Hall.
  - left. split; [|reflexivity]. apply Has_AllRights_within; assumption.
  - right. split; [exact Hne|]. split.
    { intros ->. vm_compute in Hall. discriminate. }
    cbv zeta. rewrite stringLoop_setRights.
    destruct (setRights a) as [|n l] eqn:Hl.
    + exfalso. apply Hne. apply setRights_nil_within; assumption.
    + exists n, l. split; [reflexivity|].
      assert (Hn : n <> ""%string).
      { rewrite setRights_eq in Hl.
        pose proof (namesFrom_Forall (fun n => n <> ""%string) a
                      wasi.rightsStrings 0 rightsStrings_nonempty) as HF.
        rewrite Hl in HF. inversion HF; assumption. }
      destruct n as [|c n]; [contradiction|].
      destruct (concat_initial "|" c n l) as [rest Hrest].
      rewrite Hrest. reflexivity.
Qed.

(** X3. [String] is one-to-one on the sets of rights: two words within
    [AllRights] that render alike are the same set. *)
Theorem String_injective :
  forall a b : wasi.Rights,
    0 <= a <= wasi.AllRights ->
    0 <= b <= wasi.AllRights ->
    wasi.String a = wasi.String b ->
    a = b.
Proof.
  intros a b Ha Hb Heq.
  assert (Hinit : forall c n l,
             setRights c = n :: l ->
             exists x rest, String.concat "|" (n :: l) = String x rest /\
                            (x = "F" \/ x = "P" \/ x = "S")%char).
  { intros c n l Hl.
    rewrite setRights_eq in Hl.
    pose proof (namesFrom_Forall _ c wasi.rightsStrings 0 rightsStrings_initial)
      as HF.
    rewrite Hl in HF.
    inversion HF as [|? ? (x & n' & -> & Hx) _]; subst.
    destruct (concat_initial "|" x n' l) as [rest Hrest].
    exists x, rest. auto. }
  destruct (String_within a Ha) as [[Ea Sa]|[[Ea Sa]|(Ha0 & HaA & na & la & Hla & Sa)]];
    destruct (String_within b Hb) as [[Eb Sb]|[[Eb Sb]|(Hb0 & HbA & nb & lb & Hlb & Sb)]];
    rewrite Sa, Sb in Heq; try congruence; try discriminate.
  - exfalso. destruct (Hinit b nb lb Hlb) as (x & rest & Hx & Hc).
    rewrite Hx in Heq. injection Heq as <- _.
    destruct Hc as [Hc|[Hc|Hc]]; discriminate.
  - exfalso. destruct (Hinit b nb lb Hlb) as (x & rest & Hx & Hc).
    rewrite Hx in Heq. injection Heq as <- _.
    destruct Hc as [Hc|[Hc|Hc]]; discriminate.
  - exfalso. destruct (Hinit a na la Hla) as (x & rest & Hx & Hc).
    rewrite Hx in Heq. injection Heq as -> _.
    destruct Hc as [Hc|[Hc|Hc]]; discriminate.
  - exfalso. destruct (Hinit a na la Hla) as (x & rest & Hx & Hc).
    rewrite Hx in Heq. injection Heq as -> _.
    destruct Hc as [Hc|[Hc|Hc]]; discriminate.
  - rewrite <- Hla, <- Hlb, !setRights_eq in Heq.
    apply (concat_sep_inj "|") in Heq;
      [| apply namesFrom_Forall, rightsStrings_pieces
       | apply namesFrom_Forall, rightsStrings_pieces].
    apply within_AllRights_ext; [assumption..|].
    intros k Hk.
    pose proof (namesFrom_inj a b _ 0 rightsStrings_NoDup Heq k) as Hbit.
    change (length wasi.rightsStrings) with 30%nat in Hbit.
    rewrite !Z.add_0_l in Hbit. exact (Hbit Hk).
Qed.

(** Two sets built from the same rights in a different order. *)
Lemma String_injective_witness :
  Z.lor wasi.FDReadRight wasi.PathOpenRight =
  Z.lor wasi.PathOpenRight wasi.FDReadRight.
Proof.
  apply String_injective.
  - vm_compute. split; discriminate.
  - vm_compute. split; discriminate.
  - vm_compute. reflexivity.
Defined.

(** ** Pre-opens *)

Lemma nextFD_spec (p : Provider) :
  0 <= nextFD p /\ fds p !! nextFD p = None /\
  (forall j, 0 <= j < nextFD p -> is_Some (fds p !! j)).
Proof.
  pose proof (Insert_spec (fds p) 0%nat) as (H1 & H2 & H3 & _).
  auto.
Qed.

(** The masked copy of an [FDStat] that [Preopen] stores. *)
Lemma Preopen_eq (p : Provider) (hostfd : Z) (path : string) (fdstat : wasi.FDStat) :
  let v := fdinfo.mk path hostfd
             (wasi.mkFDStat (wasi.StatFileType fdstat) (wasi.Flags fdstat)
                (Z.land (wasi.RightsBase fdstat) wasi.AllRights)
                (Z.land (wasi.RightsInheriting fdstat) wasi.AllRights)) [] in
  let f := fresh (dom (heap p)) in
  Preopen p hostfd path fdstat =
  mkProvider (<[nextFD p := f]> (fds p)) (<[nextFD p := ()]> (preopens p))
    (pollfds p) (<[f := v]> (heap p)) (syscalls p).
Proof. reflexivity. Qed.

(** X4. [Preopen] registers the file at the smallest descriptor number
    that is free, with its rights masked to [AllRights], marks that
    descriptor as a pre-open, makes no host call, and leaves every other
    descriptor and pre-open mark as it was. *)
Theorem Preopen_registers :
  forall (p : Provider) (hostfd : Z) (path : string) (fdstat : wasi.FDStat),
    let p' := Preopen p hostfd path fdstat in
    let fd := nextFD p in
    0 <= fd /\
    entry p fd = None /\
    (forall j, 0 <= j < fd -> is_Some (fds p !! j)) /\
    entry p' fd =
      Some (fdinfo.mk path hostfd
              (wasi.mkFDStat (wasi.StatFileType fdstat) (wasi.Flags fdstat)
                 (Z.land (wasi.RightsBase fdstat) wasi.AllRights)
                 (Z.land (wasi.RightsInheriting fdstat) wasi.AllRights))
              []) /\
    isPreopen p' fd = true /\
    syscalls p' = syscalls p /\
    (forall fd', fd' <> fd ->
       fds p' !! fd' = fds p !! fd' /\ isPreopen p' fd' = isPreopen p fd').
Proof.
  intros p hostfd path fdstat. cbv zeta.
  destruct (nextFD_spec p) as (Hge & Hfree & Hbelow).
  rewrite Preopen_eq. cbv zeta.
  split; [exact Hge|].
  split; [unfold entry; rewrite Hfree; reflexivity|].
  split; [exact Hbelow|].
  split.
  { unfold entry, deref. simpl. rewrite lookup_insert_eq. simpl.
    rewrite lookup_total_insert_eq. reflexivity. }
  split.
  { unfold isPreopen, descriptor.Lookup. simpl.
    rewrite lookup_insert_eq. reflexivity. }
  split; [reflexivity|].
  intros fd' Hne. simpl. split.
  - apply lookup_insert_ne. congruence.
  - unfold isPreopen, descriptor.Lookup. simpl.
    rewrite lookup_insert_ne by congruence. reflexivity.
Qed.

(** A lookup without rights on a pre-open fails only when the descriptor
    is dead or not a directory. *)
Lemma lookupPreopenFD_no_rights (p : Provider) (fd : Z) :
  lookupPreopenFD p fd 0 =
  if isPreopen p fd then
    match fds p !! fd with
    | None => Failed wasi.EBADF
    | Some f =>
        if decide (wasi.StatFileType (fdinfo.stat (deref p f)) = wasi.DirectoryType)
        then Found f else Failed wasi.ENOTDIR
    end
  else Failed wasi.EBADF.
Proof.
  unfold lookupPreopenFD. destruct (isPreopen p fd); [|reflexivity]. simpl.
  destruct (fds p !! fd) as [f|] eqn:Hf.
  - rewrite (lookupFD_no_rights p fd f Hf).
    destruct (decide (_ <> _)) as [Hne|Heq];
      destruct (decide (_ = _)) as [He|Hn]; try reflexivity; contradiction.
  - rewrite (lookupFD_dead p fd 0 Hf). reflexivity.
Qed.

(** X5. [FDPreStatGet] and [FDPreStatDirName] publish the path a file was
    pre-opened with: on the descriptor [Preopen] registered they return the
    length of that path and the path when the file was registered as a
    directory, and [ENOTDIR] when it was registered as anything else; once
    the descriptor is closed both return [EBADF]. *)
Theorem Preopen_publishes_path :
  forall (h : unix.Host) (p : Provider) (hostfd : Z) (path : string)
         (fdstat : wasi.FDStat),
    let p' := Preopen p hostfd path fdstat in
    let fd := nextFD p in
    let closed := fst (FDClose h p' fd) in
    (wasi.StatFileType fdstat = wasi.DirectoryType ->
     FDPreStatDirName p' fd = (p', (path, wasi.ESUCCESS)) /\
     FDPreStatGet p' fd =
       (p', (Some (wasi.mkPreStat wasi.PreOpenDir
                     (wasi.mkPreStatDir (uint32 (len path)))),
             wasi.ESUCCESS))) /\
    (wasi.StatFileType fdstat <> wasi.DirectoryType ->
     FDPreStatDirName p' fd = (p', (""%string, wasi.ENOTDIR)) /\
     FDPreStatGet p' fd = (p', (None, wasi.ENOTDIR))) /\
    FDPreStatDirName closed fd = (closed, (""%string, wasi.EBADF)) /\
    FDPreStatGet closed fd = (closed, (None, wasi.EBADF)).
Proof.
  intros h p hostfd path fdstat. cbv zeta.
  set (p' := Preopen p hostfd path fdstat).
  assert (Hpre : isPreopen p' (nextFD p) = true).
  { subst p'. rewrite Preopen_eq. cbv zeta.
    unfold isPreopen, descriptor.Lookup. simpl.
    rewrite lookup_insert_eq. reflexivity. }
  assert (Hfd : fds p' !! nextFD p = Some (fresh (dom (heap p)))).
  { subst p'. rewrite Preopen_eq. cbv zeta. simpl. apply lookup_insert_eq. }
  assert (Hderef : deref p' (fresh (dom (heap p))) =
                   fdinfo.mk path hostfd
                     (wasi.mkFDStat (wasi.StatFileType fdstat) (wasi.Flags fdstat)
                        (Z.land (wasi.RightsBase fdstat) wasi.AllRights)
                        (Z.land (wasi.RightsInheriting fdstat) wasi.AllRights))
                     []).
  { subst p'. rewrite Preopen_eq. cbv zeta. unfold deref. simpl.
    apply lookup_total_insert_eq. }
  assert (Hlook : lookupPreopenFD p' (nextFD p) 0 =
                  if decide (wasi.StatFileType fdstat = wasi.DirectoryType)
                  then Found (fresh (dom (heap p))) else Failed wasi.ENOTDIR).
  { rewrite lookupPreopenFD_no_rights, Hpre, Hfd, Hderef. reflexivity. }
  split; [|split].
  - intros Hdir. unfold FDPreStatDirName, FDPreStatGet. rewrite Hlook.
    destruct (decide _) as [_|Hn]; [|contradiction].
    rewrite Hderef. simpl. auto.
  - intros Hdir. unfold FDPreStatDirName, FDPreStatGet. rewrite Hlook.
    destruct (decide _) as [Hd|_]; [contradiction|]. auto.
  - assert (Hclosed : isPreopen (fst (FDClose h p' (nextFD p))) (nextFD p) = false).
    { unfold FDClose. rewrite (lookupFD_no_rights p' _ _ Hfd). simpl.
      unfold isPreopen, descriptor.Lookup, descriptor.Delete. simpl.
      rewrite lookup_delete_eq. reflexivity. }
    unfold FDPreStatDirName, FDPreStatGet.
    rewrite lookupPreopenFD_no_rights, Hclosed. auto.
Qed.

(** ** Dropping rights *)

Lemma subseteq_land_eq (a b : wasi.Rights) :
  subseteq a b -> Z.land b a = a.
Proof.
  intros H. apply Z.bits_inj'. intros n _. rewrite Z.land_spec.
  destruct (Z.testbit a n) eqn:Ha; [|apply andb_false_r].
  rewrite (H n Ha). reflexivity.
Qed.

Lemma subseteq_trans (a b c : wasi.Rights) :
  subseteq a b -> subseteq b c -> subseteq a c.
Proof. intros H1 H2 i Hi. auto. Qed.

Lemma subseteq_dec (a b : wasi.Rights) : {subseteq a b} + {~ subseteq a b}.
Proof.
  destruct (wasi.andnot a b =? 0) eqn:H.
  - left. apply andnot_eqb_subseteq. exact H.
  - right. apply andnot_neqb_not_subseteq. rewrite H. reflexivity.
Qed.

(** The two outcomes of [FDStatSetRights] on a live descriptor. *)
Lemma FDStatSetRights_cases (p : Provider) (fd : Z) (rb ri : wasi.Rights) (f : loc) :
  fds p !! fd = Some f ->
  let e := deref p f in
  let rbM := Z.land rb wasi.AllRights in
  let riM := Z.land ri wasi.AllRights in
  (subseteq rbM (wasi.RightsBase (fdinfo.stat e)) /\
   subseteq riM (wasi.RightsInheriting (fdinfo.stat e)) /\
   FDStatSetRights p fd rb ri =
     (store p f
        (fdinfo.mk (fdinfo.path e) (fdinfo.fd e)
           (wasi.mkFDStat (wasi.StatFileType (fdinfo.stat e))
              (wasi.Flags (fdinfo.stat e)) rbM riM)
           (fdinfo.dirEntries e)),
      wasi.ESUCCESS)) \/
  ((~ subseteq rbM (wasi.RightsBase (fdinfo.stat e)) \/
    ~ subseteq riM (wasi.RightsInheriting (fdinfo.stat e))) /\
   FDStatSetRights p fd rb ri = (p, wasi.ENOTCAPABLE)).
Proof.
  intros Hf. cbv zeta.
  unfold FDStatSetRights. rewrite (lookupFD_no_rights _ _ _ Hf). cbv zeta.
  destruct (negb (wasi.andnot (Z.land rb wasi.AllRights) _ =? 0)) eqn:Hb.
  { apply andnot_neqb_not_subseteq in Hb. right. auto. }
  apply negb_false_iff, andnot_eqb_subseteq in Hb.
  destruct (negb (wasi.andnot (Z.land ri wasi.AllRights) _ =? 0)) eqn:Hi.
  { apply andnot_neqb_not_subseteq in Hi. right. auto. }
  apply negb_false_iff, andnot_eqb_subseteq in Hi.
  left. split; [exact Hb|]. split; [exact Hi|].
  rewrite (subseteq_land_eq _ _ Hb), (subseteq_land_eq _ _ Hi). reflexivity.
Qed.

Lemma FDStatSetRights_dead (p : Provider) (fd : Z) (rb ri : wasi.Rights) :
  fds p !! fd = None -> FDStatSetRights p fd rb ri = (p, wasi.EBADF).
Proof.
  intros Hf. unfold FDStatSetRights. rewrite (lookupFD_dead _ _ _ Hf). reflexivity.
Qed.

(** What a successful [FDStatSetRights] leaves behind. *)
Lemma FDStatSetRights_success (p : Provider) (fd : Z) (rb ri : wasi.Rights) :
  snd (FDStatSetRights p fd rb ri) = wasi.ESUCCESS ->
  exists f,
    fds p !! fd = Some f /\
    subseteq (Z.land rb wasi.AllRights)
      (wasi.RightsBase (fdinfo.stat (deref p f))) /\
    subseteq (Z.land ri wasi.AllRights)
      (wasi.RightsInheriting (fdinfo.stat (deref p f))) /\
    fst (FDStatSetRights p fd rb ri) =
      store p f
        (fdinfo.mk (fdinfo.path (deref p f)) (fdinfo.fd (deref p f))
           (wasi.mkFDStat (wasi.StatFileType (fdinfo.stat (deref p f)))
              (wasi.Flags (fdinfo.stat (deref p f)))
              (Z.land rb wasi.AllRights) (Z.land ri wasi.AllRights))
           (fdinfo.dirEntries (deref p f))).
Proof.
  intros Hs. destruct (fds p !! fd) as [f|] eqn:Hf.
  - exists f. split; [reflexivity|].
    destruct (FDStatSetRights_cases p fd rb ri f Hf) as [(Hb & Hi & Heq)|[_ Heq]];
      rewrite Heq in Hs |- *; [auto | discriminate].
  - rewrite (FDStatSetRights_dead _ _ _ _ Hf) in Hs. discriminate.
Qed.

Lemma fds_store (p : Provider) (f : loc) (v : fdinfo.t) :
  fds (store p f v) = fds p.
Proof. reflexivity. Qed.

Lemma deref_store_ne (p : Provider) (f g : loc) (v : fdinfo.t) :
  g <> f -> deref (store p f v) g = deref p g.
Proof.
  intros Hne. unfold deref, store. simpl.
  apply lookup_total_insert_ne. congruence.
Qed.

(** X6. When [FDStatSetRights] succeeds, the entry holds exactly the
    requested base and inheriting rights, masked to [AllRights], and is
    otherwise as before; [FDStatGet] reports them. *)
Theorem FDStatSetRights_sets_requested :
  forall (p : Provider) (fd : Z) (rightsBase rightsInheriting : wasi.Rights),
    snd (FDStatSetRights p fd rightsBase rightsInheriting) = wasi.ESUCCESS ->
    let p' := fst (FDStatSetRights p fd rightsBase rightsInheriting) in
    exists e,
      entry p fd = Some e /\
      let st' := wasi.mkFDStat (wasi.StatFileType (fdinfo.stat e))
                   (wasi.Flags (fdinfo.stat e))
                   (Z.land rightsBase wasi.AllRights)
                   (Z.land rightsInheriting wasi.AllRights) in
      entry p' fd =
        Some (fdinfo.mk (fdinfo.path e) (fdinfo.fd e) st' (fdinfo.dirEntries e)) /\
      FDStatGet p' fd = (p', (Some st', wasi.ESUCCESS)).
Proof.
  intros p fd rb ri Hs. cbv zeta.
  destruct (FDStatSetRights_success p fd rb ri Hs) as (f & Hf & _ & _ & ->).
  exists (deref p f). split; [unfold entry; rewrite Hf; reflexivity|].
  split.
  - unfold entry. rewrite fds_store, Hf. simpl. rewrite deref_store. reflexivity.
  - unfold FDStatGet.
    rewrite (lookupFD_no_rights (store p f _) fd f) by (rewrite fds_store; exact Hf).
    rewrite deref_store. reflexivity.
Qed.

Lemma FDStatSetRights_sets_requested_witness :
  FDStatGet (fst (FDStatSetRights startProvider 3 wasi.ReadRights 0)) 3 =
  (fst (FDStatSetRights startProvider 3 wasi.ReadRights 0),
   (Some (wasi.mkFDStat wasi.DirectoryType 0
            (Z.land wasi.ReadRights wasi.AllRights) (Z.land 0 wasi.AllRights)),
    wasi.ESUCCESS)).
Proof.
  destruct (FDStatSetRights_sets_requested startProvider 3 wasi.ReadRights 0
              ltac:(vm_compute; reflexivity)) as (e & He & _ & Hget).
  assert (Ee : e = fdinfo.mk "/tmp" 7 dirStat []).
  { vm_compute in He. injection He as <-. reflexivity. }
  subst e. exact Hget.
Defined.

(** X7. Rights that [FDStatSetRights] dropped cannot be had again: after a
    successful call, a later call on the same descriptor succeeds exactly
    when the rights it asks for, masked to [AllRights], lie within those
    the first call asked for, and fails with [ENOTCAPABLE] otherwise. *)
Theorem FDStatSetRights_cannot_regain :
  forall (p : Provider) (fd : Z) (rb ri rb2 ri2 : wasi.Rights),
    snd (FDStatSetRights p fd rb ri) = wasi.ESUCCESS ->
    let p' := fst (FDStatSetRights p fd rb ri) in
    let within :=
      subseteq (Z.land rb2 wasi.AllRights) (Z.land rb wasi.AllRights) /\
      subseteq (Z.land ri2 wasi.AllRights) (Z.land ri wasi.AllRights) in
    (within -> snd (FDStatSetRights p' fd rb2 ri2) = wasi.ESUCCESS) /\
    (~ within -> FDStatSetRights p' fd rb2 ri2 = (p', wasi.ENOTCAPABLE)).
Proof.
  intros p fd rb ri rb2 ri2 Hs. cbv zeta.
  destruct (FDStatSetRights_success p fd rb ri Hs) as (f & Hf & _ & _ & ->).
  set (p' := store p f _).
  assert (Hf' : fds p' !! fd = Some f) by exact Hf.
  destruct (FDStatSetRights_cases p' fd rb2 ri2 f Hf') as [(Hb & Hi & Heq)|[Hn Heq]];
    subst p'; rewrite deref_store in *; simpl in *.
  - split; [intros _; rewrite Heq; reflexivity|].
    intros Hn. exfalso. apply Hn. auto.
  - split; [|intros _; exact Heq].
    intros [Hb Hi]. exfalso. destruct Hn as [Hn|Hn]; contradiction.
Qed.

Lemma FDStatSetRights_cannot_regain_witness :
  FDStatSetRights (fst (FDStatSetRights startProvider 3 wasi.ReadRights 0)) 3
    wasi.AllRights 0 =
  (fst (FDStatSetRights startProvider 3 wasi.ReadRights 0), wasi.ENOTCAPABLE).
Proof.
  apply (FDStatSetRights_cannot_regain startProvider 3 wasi.ReadRights 0
           wasi.AllRights 0 ltac:(vm_compute; reflexivity)).
  intros [Hb _]. specialize (Hb 0). vm_compute in Hb.
  specialize (Hb eq_refl). discriminate.
Defined.

Lemma Has_land_false (rb mask r : wasi.Rights) :
  wasi.Has rb r = false -> wasi.Has (Z.land rb mask) r = false.
Proof.
  intros H. apply not_true_iff_false. intros Hc.
  apply not_true_iff_false in H. apply H.
  apply Has_subseteq. apply Has_subseteq in Hc.
  exact (subseteq_trans _ _ _ Hc (land_subseteq_l rb mask)).
Qed.

Lemma lookupFD_lacking (p : Provider) (fd : Z) (f : loc) (r : wasi.Rights) :
  fds p !! fd = Some f ->
  wasi.Has (wasi.RightsBase (fdinfo.stat (deref p f))) r = false ->
  lookupFD p fd r = Failed wasi.ENOTCAPABLE.
Proof.
  intros Hf Hr. unfold lookupFD, descriptor.Lookup. rewrite Hf, Hr. reflexivity.
Qed.

(** X8. Dropping a right takes effect: after a successful
    [FDStatSetRights] whose requested base rights lack the right an
    operation needs, that operation on the descriptor returns
    [ENOTCAPABLE] and leaves the provider as it is, without any host call.
    This holds for [PathOpen], [FDSeek], [FDTell], [FDReadDir] and
    [FDStatSetFlags]. *)
Theorem dropped_rights_are_enforced :
  forall (h : unix.Host) (makeFileType : Z -> wasi.FileType) (sizeofDirEntry : Z)
         (p : Provider) (fd : Z) (rb ri : wasi.Rights),
    snd (FDStatSetRights p fd rb ri) = wasi.ESUCCESS ->
    let p' := fst (FDStatSetRights p fd rb ri) in
    (wasi.Has rb wasi.PathOpenRight = false ->
     forall lookupFlags path openFlags rightsBase rightsInheriting fdFlags,
       PathOpen h p' fd lookupFlags path openFlags rightsBase rightsInheriting
         fdFlags = (p', (-1, wasi.ENOTCAPABLE))) /\
    (wasi.Has rb wasi.FDSeekRight = false ->
     forall delta whence,
       FDSeek h p' fd delta whence = (p', (0, wasi.ENOTCAPABLE))) /\
    (wasi.Has rb wasi.FDTellRight = false ->
     FDTell h p' fd = (p', (0, wasi.ENOTCAPABLE))) /\
    (wasi.Has rb wasi.FDReadDirRight = false ->
     forall buffer limit cookie,
       FDReadDir h makeFileType sizeofDirEntry p' fd buffer limit cookie =
       (p', ([], wasi.ENOTCAPABLE))) /\
    (wasi.Has rb wasi.FDStatSetFlagsRight = false ->
     forall flags, FDStatSetFlags h p' fd flags = (p', wasi.ENOTCAPABLE)).
Proof.
  intros h mft sz p fd rb ri Hs. cbv zeta.
  destruct (FDStatSetRights_success p fd rb ri Hs) as (f & Hf & _ & _ & ->).
  set (p' := store p f _).
  assert (Hlook : forall r, wasi.Has rb r = false ->
                            lookupFD p' fd r = Failed wasi.ENOTCAPABLE).
  { intros r Hr. apply (lookupFD_lacking p' fd f); [exact Hf|].
    subst p'. rewrite deref_store. simpl. apply Has_land_false. exact Hr. }
  split; [|split; [|split; [|split]]]; intros Hr.
  - intros. unfold PathOpen. rewrite (Hlook _ Hr). reflexivity.
  - intros. unfold FDSeek, fdseek. rewrite (Hlook _ Hr). reflexivity.
  - unfold FDTell, fdseek. rewrite (Hlook _ Hr). reflexivity.
  - intros. unfold FDReadDir. rewrite (Hlook _ Hr). reflexivity.
  - intros. unfold FDStatSetFlags. rewrite (Hlook _ Hr). reflexivity.
Qed.

(** The pre-opened directory after every right was dropped. *)
Lemma dropped_rights_are_enforced_witness :
  let p' := fst (FDStatSetRights startProvider 3 0 0) in
  PathOpen hostOK p' 3 0 "x" wasi.OpenCreate wasi.FDReadRight 0 0 =
  (p', (-1, wasi.ENOTCAPABLE)).
Proof.
  cbv zeta.
  destruct (dropped_rights_are_enforced hostOK sampleFileType 24 startProvider 3
              0 0 ltac:(vm_compute; reflexivity)) as (Hopen & _).
  apply Hopen. vm_compute. reflexivity.
Defined.

(** ** [FDStatSetFlags], again *)

Lemma lookupFD_Failed (p : Provider) (fd : Z) (r : wasi.Rights) (errno : wasi.Errno) :
  lookupFD p fd r = Failed errno -> errno = wasi.EBADF \/ errno = wasi.ENOTCAPABLE.
Proof.
  unfold lookupFD. destruct (descriptor.Lookup (fds p) fd); [|intros [= <-]; auto].
  destruct (negb _); [intros [= <-]; auto | discriminate].
Qed.

Lemma entry_called (p : Provider) (c : unix.Syscall) (fd : Z) :
  entry (called p c) fd = entry p fd.
Proof. reflexivity. Qed.

(** X9. [FDStatSetFlags] is all or nothing on the cached flags: when it
    returns [ESUCCESS] the entry holds exactly the requested flags and is
    otherwise as before, and when it returns anything else no entry of the
    provider has changed. *)
Theorem FDStatSetFlags_all_or_nothing :
  forall (h : unix.Host) (p : Provider) (fd : Z) (flags : wasi.FDFlags),
    let r := FDStatSetFlags h p fd flags in
    (snd r = wasi.ESUCCESS ->
     exists e,
       entry p fd = Some e /\
       entry (fst r) fd =
         Some (fdinfo.mk (fdinfo.path e) (fdinfo.fd e)
                 (wasi.mkFDStat (wasi.StatFileType (fdinfo.stat e)) flags
                    (wasi.RightsBase (fdinfo.stat e))
                    (wasi.RightsInheriting (fdinfo.stat e)))
                 (fdinfo.dirEntries e))) /\
    (snd r <> wasi.ESUCCESS ->
     forall fd', entry (fst r) fd' = entry p fd').
Proof.
  intros h p fd flags. cbv zeta. unfold FDStatSetFlags.
  destruct (lookupFD p fd wasi.FDStatSetFlagsRight) as [f|errno] eqn:Hl.
  2:{ simpl. split; [|reflexivity].
      intros ->. apply lookupFD_Failed in Hl as [Hl|Hl]; discriminate. }
  apply lookupFD_Found in Hl as [Hf _]. cbv zeta.
  destruct (Z.eqb_spec (Z.lxor flags (wasi.Flags (fdinfo.stat (deref p f)))) 0)
    as [Hz|Hnz].
  { simpl. split; [|intros Hc; contradiction].
    intros _. apply Z.lxor_eq in Hz. exists (deref p f).
    unfold entry. rewrite Hf. simpl. split; [reflexivity|].
    rewrite Hz. destruct (deref p f) as [pa hfd [ty fl rb ri] des]. reflexivity. }
  destruct (wasi.Has _ (Z.lor (Z.lor wasi.Sync wasi.DSync) wasi.RSync)).
  { simpl. split; [discriminate | reflexivity]. }
  destruct (unix.fcntlInt h (syscalls p) _ unix.F_GETFL 0) as [err|fl].
  { simpl. split; [intros Hc; destruct (makeErrno_failure _ Hc) | reflexivity]. }
  match goal with
  | |- context [unix.fcntlInt h ?l ?a unix.F_SETFL ?b] =>
      destruct (unix.fcntlInt h l a unix.F_SETFL b) as [err|v]
  end.
  { simpl. split; [intros Hc; destruct (makeErrno_failure _ Hc) | reflexivity]. }
  simpl. split; [|intros Hc; contradiction].
  intros _. exists (deref p f).
  unfold entry. simpl. rewrite Hf. simpl. split; [reflexivity|].
  unfold deref at 1. simpl. rewrite lookup_total_insert_eq.
  rewrite lxor_cancel. reflexivity.
Qed.

Lemma testbit_O_APPEND (i : Z) : Z.testbit unix.O_APPEND i = (i =? 10).
Proof.
  change unix.O_APPEND with (2 ^ 10).
  destruct (Z.ltb_spec i 0) as [Hneg|Hpos].
  - rewrite Z.testbit_neg_r by assumption. symmetry. apply Z.eqb_neq. lia.
  - rewrite Z.pow2_bits_eqb by lia. apply Z.eqb_sym.
Qed.

Lemma testbit_O_NONBLOCK (i : Z) : Z.testbit unix.O_NONBLOCK i = (i =? 11).
Proof.
  change unix.O_NONBLOCK with (2 ^ 11).
  destruct (Z.ltb_spec i 0) as [Hneg|Hpos].
  - rewrite Z.testbit_neg_r by assumption. symmetry. apply Z.eqb_neq. lia.
  - rewrite Z.pow2_bits_eqb by lia. apply Z.eqb_sym.
Qed.

(** Setting or clearing one bit of a word. *)
Lemma testbit_set_or_clear (c : bool) (fl bit : Z) (i : Z) :
  Z.testbit (if c then Z.lor fl bit else wasi.andnot fl bit) i =
  if Z.testbit bit i then c else Z.testbit fl i.
Proof.
  unfold wasi.andnot. destruct c.
  - rewrite Z.lor_spec. destruct (Z.testbit bit i); [apply orb_true_r | apply orb_false_r].
  - rewrite Z.ldiff_spec. destruct (Z.testbit bit i); [apply andb_false_r | apply andb_true_r].
Qed.

(** X10. When [FDStatSetFlags] has flags to change, none of them among
    [Sync], [DSync] and [RSync] together, and the host answers [F_GETFL]
    with [fl], it then issues [F_SETFL] with a word that has [O_APPEND] and
    [O_NONBLOCK] as the requested flags say and every other bit as in
    [fl]: no other host flag is touched. *)
Theorem FDStatSetFlags_preserves_host_flags :
  forall (h : unix.Host) (p : Provider) (fd : Z) (flags : wasi.FDFlags)
         (f : loc) (fl : Z),
    lookupFD p fd wasi.FDStatSetFlagsRight = Found f ->
    let changes := Z.lxor flags (wasi.Flags (fdinfo.stat (deref p f))) in
    let hostfd := uintptr (fdinfo.fd (deref p f)) in
    changes <> 0 ->
    wasi.Has changes (Z.lor (Z.lor wasi.Sync wasi.DSync) wasi.RSync) = false ->
    unix.fcntlInt h (syscalls p) hostfd unix.F_GETFL 0 = inr fl ->
    exists fl',
      syscalls (fst (FDStatSetFlags h p fd flags)) =
        syscalls p ++ [unix.FcntlInt hostfd unix.F_GETFL 0;
                       unix.FcntlInt hostfd unix.F_SETFL fl'] /\
      Z.testbit fl' 10 = wasi.Has flags wasi.Append /\
      Z.testbit fl' 11 = wasi.Has flags wasi.NonBlock /\
      (forall i, i <> 10 -> i <> 11 -> Z.testbit fl' i = Z.testbit fl i).
Proof.
  intros h p fd flags f fl Hl. cbv zeta. intros Hnz Hsync Hget.
  unfold FDStatSetFlags. rewrite Hl. cbv zeta.
  apply Z.eqb_neq in Hnz. rewrite Hnz, Hsync, Hget.
  match goal with
  | |- context [unix.fcntlInt h ?l ?a unix.F_SETFL ?b] =>
      exists b; destruct (unix.fcntlInt h l a unix.F_SETFL b) as [err|v]
  end.
  all: split; [simpl; rewrite <- app_assoc; reflexivity|].
  all: rewrite !testbit_set_or_clear, !testbit_O_NONBLOCK, !testbit_O_APPEND.
  all: split; [reflexivity|]; split; [reflexivity|].
  all: intros i H10 H11; rewrite !testbit_set_or_clear, testbit_O_NONBLOCK,
         testbit_O_APPEND.
  all: apply Z.eqb_neq in H10, H11; rewrite H10, H11; reflexivity.
Qed.

(** Asking for [Append] on the standard output of [startProvider]. *)
Lemma FDStatSetFlags_preserves_host_flags_witness :
  exists fl',
    syscalls (fst (FDStatSetFlags hostOK startProvider 1 wasi.Append)) =
      [unix.FcntlInt 1 unix.F_GETFL 0; unix.FcntlInt 1 unix.F_SETFL fl'] /\
    Z.testbit fl' 10 = true.
Proof.
  destruct (FDStatSetFlags_preserves_host_flags hostOK startProvider 1
              wasi.Append 1%nat 0 ltac:(vm_compute; reflexivity)
              ltac:(vm_compute; discriminate) ltac:(vm_compute; reflexivity)
              ltac:(vm_compute; reflexivity)) as (fl' & Hlog & Hbit & _).
  exists fl'. split; [exact Hlog | exact Hbit].
Defined.

(** ** [PathOpen], again *)

(** The outcomes of [PathOpen]: it fails before any host call and leaves
    the provider as it is; or it passes every check and calls [openat],
    which fails, or succeeds and gives the new entry. *)
Lemma PathOpen_cases (h : unix.Host) (p : Provider) (fd : Z)
    (lf : wasi.LookupFlags) (path : string) (ofl : wasi.OpenFlags)
    (rb ri : wasi.Rights) (ff : wasi.FDFlags) :
  let r := PathOpen h p fd lf path ofl rb ri ff in
  (fst r = p /\ fst (snd r) = -1 /\
   (snd (snd r) = wasi.EBADF \/ snd (snd r) = wasi.ENOTCAPABLE \/
    snd (snd r) = wasi.EPERM)) \/
  (exists d,
     lookupFD p fd wasi.PathOpenRight = Found d /\
     let dir := deref p d in
     let inheriting := wasi.RightsInheriting (fdinfo.stat dir) in
     let granted := grantedBase ofl rb inheriting in
     let oflags := Z.lor (openatBase lf ofl ff) (accessMode ofl granted) in
     let isdir := negb (Z.land oflags unix.O_DIRECTORY =? 0) in
     let mode := if isdir then 0 else 420 in
     let call := unix.Openat (fdinfo.fd dir) path oflags mode in
     strings.HasPrefix (filepath.Clean path) "/" = false /\
     strings.HasPrefix (filepath.Clean path) "../" = false /\
     subseteq (Z.land rb wasi.AllRights) inheriting /\
     subseteq (Z.land ri wasi.AllRights) inheriting /\
     (wasi.Has ofl wasi.OpenCreate = true ->
      wasi.Has (wasi.RightsBase (fdinfo.stat dir)) wasi.PathCreateFileRight = true) /\
     (wasi.Has ofl wasi.OpenTruncate = true ->
      wasi.Has (wasi.RightsBase (fdinfo.stat dir)) wasi.PathFileStatSetSizeRight = true) /\
     ((exists err,
         unix.openat h (syscalls p) (fdinfo.fd dir) path oflags mode = inl err /\
         r = (called p call, (-1, makeErrno (Some err)))) \/
      (exists hostfd,
         unix.openat h (syscalls p) (fdinfo.fd dir) path oflags mode = inr hostfd /\
         r = (mkProvider (<[nextFD p := fresh (dom (heap p))]> (fds p))
                (preopens p) (pollfds p)
                (<[fresh (dom (heap p)) :=
                     fdinfo.mk (filepath.Join (fdinfo.path dir) path) hostfd
                       (wasi.mkFDStat
                          (if isdir then wasi.DirectoryType
                           else wasi.RegularFileType)
                          ff granted
                          (Z.land (Z.land ri wasi.AllRights) inheriting))
                       []]> (heap p))
                (syscalls p ++ [call]),
              (nextFD p, wasi.ESUCCESS))))).
Proof.
  cbv zeta. unfold PathOpen.
  destruct (lookupFD p fd wasi.PathOpenRight) as [d|errno] eqn:Hl.
  2:{ left. simpl. split; [reflexivity|]. split; [reflexivity|].
      apply lookupFD_Failed in Hl as [->| ->]; auto. }
  cbv zeta.
  destruct (strings.HasPrefix (filepath.Clean path) "/") eqn:Habs;
    [left; simpl; auto|].
  destruct (strings.HasPrefix (filepath.Clean path) "../") eqn:Hup;
    [left; simpl; auto|].
  simpl orb. cbv iota.
  match goal with
  | |- context [if ?c then (p, (-1, wasi.ENOTCAPABLE)) else _] => destruct c eqn:Hb
  end; [left; simpl; auto|].
  match goal with
  | |- context [if ?c then (p, (-1, wasi.ENOTCAPABLE)) else _] => destruct c eqn:Hi
  end; [left; simpl; auto|].
  apply negb_false_iff, andnot_eqb_subseteq in Hb, Hi.
  match goal with
  | |- context [if ?c then (p, (-1, wasi.ENOTCAPABLE)) else _] => destruct c eqn:Hc
  end; [left; simpl; auto|].
  match goal with
  | |- context [if ?c then (p, (-1, wasi.ENOTCAPABLE)) else _] => destruct c eqn:Ht
  end; [left; simpl; auto|].
  right. exists d. split; [reflexivity|].
  split; [reflexivity|]. split; [reflexivity|].
  split; [exact Hb|]. split; [exact Hi|].
  split.
  { intros Ho. rewrite Ho in Hc. simpl in Hc. apply negb_false_iff in Hc. exact Hc. }
  split.
  { intros Ho. rewrite Ho in Ht. simpl in Ht. apply negb_false_iff in Ht. exact Ht. }
  fold (openatBase lf ofl ff).
  assert (Hg :
    (if wasi.Has ofl wasi.OpenDirectory
     then wasi.andnot
            (Z.land (Z.land rb wasi.AllRights)
               (wasi.RightsInheriting (fdinfo.stat (deref p d))))
            wasi.FDSeekRight
     else Z.land (Z.land rb wasi.AllRights)
            (wasi.RightsInheriting (fdinfo.stat (deref p d)))) =
    grantedBase ofl rb (wasi.RightsInheriting (fdinfo.stat (deref p d))))
    by reflexivity.
  rewrite !Hg. clear Hg.
  set (granted := grantedBase ofl rb _).
  assert (Hacc :
    (if wasi.Has ofl wasi.OpenDirectory
     then Z.lor (openatBase lf ofl ff) unix.O_RDONLY
     else if wasi.HasAny granted wasi.ReadRights
             && wasi.HasAny granted wasi.WriteRights
     then Z.lor (openatBase lf ofl ff) unix.O_RDWR
     else if wasi.HasAny granted wasi.ReadRights
     then Z.lor (openatBase lf ofl ff) unix.O_RDONLY
     else if wasi.HasAny granted wasi.WriteRights
     then Z.lor (openatBase lf ofl ff) unix.O_WRONLY
     else Z.lor (openatBase lf ofl ff) unix.O_RDONLY) =
    Z.lor (openatBase lf ofl ff) (accessMode ofl granted)).
  { unfold accessMode.
    destruct (wasi.Has ofl wasi.OpenDirectory); [reflexivity|].
    destruct (wasi.HasAny granted wasi.ReadRights),
             (wasi.HasAny granted wasi.WriteRights); reflexivity. }
  rewrite Hacc.
  set (oflags := Z.lor (openatBase lf ofl ff) (accessMode ofl granted)).
  destruct (negb (Z.land oflags unix.O_DIRECTORY =? 0)); cbv iota.
  all: match goal with
       | |- context [unix.openat ?hh ?a ?b ?c ?dd ?e] =>
           destruct (unix.openat hh a b c dd e) as [err|hostfd]
       end.
  all: first [ left; exists err; split; reflexivity
             | right; exists hostfd; split; reflexivity ].
Qed.

Lemma testbit_orIf (c : bool) (x bit : Z) (i : Z) :
  Z.testbit (orIf c x bit) i = Z.testbit x i || (c && Z.testbit bit i).
Proof.
  unfold orIf. destruct c.
  - apply Z.lor_spec.
  - rewrite andb_false_l, orb_false_r. reflexivity.
Qed.

(** Replace the test of a bit of a numeral by its value. *)
Ltac eval_testbits :=
  repeat match goal with
         | |- context [Z.testbit ?c ?k] =>
             let v := eval vm_compute in (Z.testbit c k) in
             lazymatch v with
             | true => change (Z.testbit c k) with true
             | false => change (Z.testbit c k) with false
             end
         end;
  rewrite ?andb_false_r, ?andb_true_r, ?orb_false_r, ?orb_false_l.

(** The word [PathOpen] gathers, bit by bit. *)
Lemma openatBase_bits (lf : wasi.LookupFlags) (ofl : wasi.OpenFlags)
    (ff : wasi.FDFlags) :
  let w := openatBase lf ofl ff in
  Z.testbit w 0 = false /\
  Z.testbit w 1 = false /\
  Z.testbit w 6 = wasi.Has ofl wasi.OpenCreate /\
  Z.testbit w 7 = wasi.Has ofl wasi.OpenExclusive /\
  Z.testbit w 9 = wasi.Has ofl wasi.OpenTruncate /\
  Z.testbit w 10 = wasi.Has ff wasi.Append /\
  Z.testbit w 11 = wasi.Has ff wasi.NonBlock /\
  Z.testbit w 12 = wasi.Has ff wasi.DSync || wasi.Has ff wasi.Sync /\
  Z.testbit w 16 = wasi.Has ofl wasi.OpenDirectory /\
  Z.testbit w 17 = negb (wasi.Has lf wasi.SymlinkFollow) /\
  Z.testbit w 19 = true /\
  Z.testbit w 20 = wasi.Has ff wasi.Sync.
Proof.
  cbv zeta. unfold openatBase.
  repeat split; rewrite !testbit_orIf; eval_testbits; reflexivity.
Qed.

Lemma accessMode_small (ofl : wasi.OpenFlags) (granted : wasi.Rights) (i : Z) :
  2 <= i -> Z.testbit (accessMode ofl granted) i = false.
Proof.
  intros Hi. unfold accessMode.
  assert (H0 : Z.testbit unix.O_RDONLY i = false) by apply Z.bits_0.
  assert (H1 : Z.testbit unix.O_WRONLY i = false).
  { change unix.O_WRONLY with (2 ^ 0).
    rewrite Z.pow2_bits_eqb by lia. apply Z.eqb_neq. lia. }
  assert (H2 : Z.testbit unix.O_RDWR i = false).
  { change unix.O_RDWR with (2 ^ 1).
    rewrite Z.pow2_bits_eqb by lia. apply Z.eqb_neq. lia. }
  destruct (wasi.Has ofl wasi.OpenDirectory); [exact H0|].
  destruct (wasi.HasAny granted wasi.ReadRights),
           (wasi.HasAny granted wasi.WriteRights); simpl; assumption.
Qed.

(** The two low bits of the word handed to [openat] are the access mode. *)
Lemma openat_access_mode (lf : wasi.LookupFlags) (ofl : wasi.OpenFlags)
    (ff : wasi.FDFlags) (granted : wasi.Rights) :
  Z.land (Z.lor (openatBase lf ofl ff) (accessMode ofl granted)) 3 =
  accessMode ofl granted.
Proof.
  destruct (openatBase_bits lf ofl ff) as (B0 & B1 & _).
  apply Z.bits_inj'. intros n Hn.
  rewrite Z.land_spec, Z.lor_spec.
  destruct (Z.eq_dec n 0) as [->|N0].
  { rewrite B0. change (Z.testbit 3 0) with true.
    rewrite orb_false_l, andb_true_r. reflexivity. }
  destruct (Z.eq_dec n 1) as [->|N1].
  { rewrite B1. change (Z.testbit 3 1) with true.
    rewrite orb_false_l, andb_true_r. reflexivity. }
  assert (H3 : Z.testbit 3 n = false).
  { change 3 with (Z.ones 2). apply Z.ones_spec_high. lia. }
  rewrite H3, andb_false_r. symmetry. apply accessMode_small. lia.
Qed.

Lemma land_pow2_eqb (x k : Z) :
  0 <= k -> (Z.land x (2 ^ k) =? 0) = negb (Z.testbit x k).
Proof.
  intros Hk. destruct (Z.testbit x k) eqn:Hb; simpl.
  - apply Z.eqb_neq. intros H0.
    assert (Hc : Z.testbit (Z.land x (2 ^ k)) k = true).
    { rewrite Z.land_spec, Hb, Z.pow2_bits_eqb, Z.eqb_refl by assumption.
      reflexivity. }
    rewrite H0, Z.bits_0 in Hc. discriminate.
  - apply Z.eqb_eq. apply Z.bits_inj'. intros n Hn.
    rewrite Z.land_spec, Z.bits_0, Z.pow2_bits_eqb by assumption.
    destruct (Z.eqb_spec k n) as [->|_]; [rewrite Hb|]; [reflexivity|].
    apply andb_false_r.
Qed.

(** The word handed to [openat] has [O_DIRECTORY] exactly when
    [OpenDirectory] was requested. *)
Lemma openat_isdir (lf : wasi.LookupFlags) (ofl : wasi.OpenFlags)
    (ff : wasi.FDFlags) (granted : wasi.Rights) :
  negb (Z.land (Z.lor (openatBase lf ofl ff) (accessMode ofl granted))
          unix.O_DIRECTORY =? 0) =
  wasi.Has ofl wasi.OpenDirectory.
Proof.
  change unix.O_DIRECTORY with (2 ^ 16).
  rewrite land_pow2_eqb by lia. rewrite negb_involutive, Z.lor_spec.
  destruct (openatBase_bits lf ofl ff) as (_ & _ & _ & _ & _ & _ & _ & _ & B16 & _).
  rewrite B16, accessMode_small by lia. apply orb_false_r.
Qed.

(** X11. A [PathOpen] that does not return [ESUCCESS] creates nothing: it
    returns descriptor -1 and the table, the pre-open set and every entry
    are as before. *)
Theorem PathOpen_failure_creates_nothing :
  forall (h : unix.Host) (p : Provider) (fd : Z) (lookupFlags : wasi.LookupFlags)
         (path : string) (openFlags : wasi.OpenFlags)
         (rightsBase rightsInheriting : wasi.Rights) (fdFlags : wasi.FDFlags),
    let r := PathOpen h p fd lookupFlags path openFlags rightsBase
               rightsInheriting fdFlags in
    snd (snd r) <> wasi.ESUCCESS ->
    fst (snd r) = -1 /\
    fds (fst r) = fds p /\
    preopens (fst r) = preopens p /\
    heap (fst r) = heap p.
Proof.
  intros h p fd lf path ofl rb ri ff. cbv zeta. intros Hfail.
  destruct (PathOpen_cases h p fd lf path ofl rb ri ff)
    as [(Hp & Hfd & _)|(d & _ & Hrest)].
  - rewrite Hp. auto.
  - cbv zeta in Hrest.
    destruct Hrest as (_ & _ & _ & _ & _ & _ & [(err & _ & Hr)|(hostfd & _ & Hr)]);
      rewrite Hr in Hfail |- *; simpl.
    + auto.
    + contradiction.
Qed.

(** An absolute path is refused. *)
Lemma PathOpen_failure_creates_nothing_witness :
  let r := PathOpen hostOK startProvider 3 0 "/etc/passwd" 0 wasi.FDReadRight 0 0 in
  fst (snd r) = -1 /\ fds (fst r) = fds startProvider /\
  preopens (fst r) = preopens startProvider /\ heap (fst r) = heap startProvider.
Proof.
  cbv zeta.
  apply (PathOpen_failure_creates_nothing hostOK startProvider 3 0 "/etc/passwd"
           0 wasi.FDReadRight 0 0).
  vm_compute. discriminate.
Defined.

(** X12. A successful [PathOpen] returns the smallest descriptor number
    that was free and changes no other slot and no pre-open mark. The new
    entry holds the handle the host returned, the join of the directory's
    path and the requested path, the requested descriptor flags, an empty
    listing, and the directory type exactly when [OpenDirectory] was
    requested; the one host call made is an [openat] on the directory's
    handle with the path as the guest gave it. *)
Theorem PathOpen_success_fresh_descriptor :
  forall (h : unix.Host) (p : Provider) (fd : Z) (lookupFlags : wasi.LookupFlags)
         (path : string) (openFlags : wasi.OpenFlags)
         (rightsBase rightsInheriting : wasi.Rights) (fdFlags : wasi.FDFlags),
    let r := PathOpen h p fd lookupFlags path openFlags rightsBase
               rightsInheriting fdFlags in
    let new := fst (snd r) in
    snd (snd r) = wasi.ESUCCESS ->
    new = nextFD p /\ 0 <= new /\ entry p new = None /\
    (forall j, 0 <= j < new -> is_Some (fds p !! j)) /\
    (forall fd', fd' <> new -> fds (fst r) !! fd' = fds p !! fd') /\
    preopens (fst r) = preopens p /\
    exists d e oflags mode,
      entry p fd = Some d /\
      entry (fst r) new = Some e /\
      syscalls (fst r) =
        syscalls p ++ [unix.Openat (fdinfo.fd d) path oflags mode] /\
      unix.openat h (syscalls p) (fdinfo.fd d) path oflags mode =
        inr (fdinfo.fd e) /\
      fdinfo.path e = filepath.Join (fdinfo.path d) path /\
      wasi.Flags (fdinfo.stat e) = fdFlags /\
      fdinfo.dirEntries e = [] /\
      wasi.StatFileType (fdinfo.stat e) =
        (if wasi.Has openFlags wasi.OpenDirectory
         then wasi.DirectoryType else wasi.RegularFileType).
Proof.
  intros h p fd lf path ofl rb ri ff. cbv zeta. intros Hok.
  destruct (nextFD_spec p) as (Hge & Hfree & Hbelow).
  destruct (PathOpen_cases h p fd lf path ofl rb ri ff)
    as [(_ & _ & [He|[He|He]])|(d & Hl & Hrest)];
    try (rewrite He in Hok; discriminate).
  cbv zeta in Hrest.
  destruct Hrest as (_ & _ & _ & _ & _ & _ & [(err & _ & Hr)|(hostfd & Hopen & Hr)]).
  { rewrite Hr in Hok. simpl in Hok. destruct (makeErrno_failure _ Hok). }
  apply lookupFD_Found in Hl as [Hd _].
  rewrite Hr. simpl.
  split; [reflexivity|]. split; [exact Hge|].
  split; [unfold entry; rewrite Hfree; reflexivity|].
  split; [exact Hbelow|].
  split; [intros fd' Hne; apply lookup_insert_ne; congruence|].
  split; [reflexivity|].
  eexists (deref p d), _, _, _.
  split; [unfold entry; rewrite Hd; reflexivity|].
  split.
  { unfold entry, deref. simpl. rewrite lookup_insert_eq. simpl.
    rewrite lookup_total_insert_eq. reflexivity. }
  split; [reflexivity|]. split; [exact Hopen|].
  simpl. split; [reflexivity|]. split; [reflexivity|]. split; [reflexivity|].
  rewrite openat_isdir. reflexivity.
Qed.

(** Opening a file in the pre-opened directory of [startProvider]. *)
Lemma PathOpen_success_fresh_descriptor_witness :
  let r := PathOpen hostOK startProvider 3 0 "x" 0 wasi.FDReadRight 0 0 in
  fst (snd r) = nextFD startProvider /\ fst (snd r) = 4.
Proof.
  cbv zeta.
  destruct (PathOpen_success_fresh_descriptor hostOK startProvider 3 0 "x" 0
              wasi.FDReadRight 0 0 ltac:(vm_compute; reflexivity)) as (Hnew & _).
  split; [exact Hnew|]. vm_compute. reflexivity.
Defined.

(** *** Absolute paths *)

Lemma copyElement_suffix :
  forall rest rout, exists l, snd (filepath.copyElement rest rout) = l ++ rout.
Proof.
  induction rest as [|c rest IH]; intros rout; simpl.
  - exists []. reflexivity.
  - destruct (filepath.isPathSeparator c); [exists []; reflexivity|].
    destruct (IH (c :: rout)) as [l Hl]. exists (l ++ [c]).
    rewrite Hl, <- app_assoc. reflexivity.
Qed.

Lemma backtrack_rooted :
  forall l, l <> [] ->
            exists l', filepath.backtrack (l ++ ["/"%char]) 1 = l' ++ ["/"%char].
Proof.
  induction l as [|c l IH]; intros Hne; [contradiction|].
  destruct l as [|c2 l].
  - exists []. reflexivity.
  - change ((c :: c2 :: l) ++ ["/"%char]) with (c :: ((c2 :: l) ++ ["/"%char])).
    cbn [filepath.backtrack].
    destruct ((1 <? length ((c2 :: l) ++ ["/"%char]))%nat
              && negb (filepath.isPathSeparator c)).
    + apply IH. discriminate.
    + exists (c2 :: l). reflexivity.
Qed.

(** On a rooted path the output of [Clean] keeps its leading separator. *)
Lemma cleanLoop_rooted :
  forall fuel rest rout,
    (exists l, rout = l ++ ["/"%char]) ->
    exists l', filepath.cleanLoop fuel true rest rout 1 = l' ++ ["/"%char].
Proof.
  induction fuel as [|fuel IH]; intros rest rout Hrout; [exact Hrout|].
  cbn [filepath.cleanLoop].
  destruct rest as [|c r1]; [exact Hrout|].
  destruct (filepath.isPathSeparator c); [apply IH; exact Hrout|].
  destruct (filepath.isDot c && filepath.endOrSeparator r1);
    [apply IH; exact Hrout|].
  destruct (filepath.isDot c && _).
  - destruct (1 <? length rout)%nat eqn:Hlen.
    + apply IH. destruct Hrout as [l ->].
      apply backtrack_rooted. intros ->. vm_compute in Hlen. discriminate.
    + simpl negb. cbv iota. apply IH. exact Hrout.
  - cbv zeta.
    destruct (filepath.copyElement _ _) as [rest' rout2] eqn:Hcopy.
    apply IH.
    match type of Hcopy with
    | filepath.copyElement ?a ?b = _ =>
        destruct (copyElement_suffix a b) as [l Hl]; rewrite Hcopy in Hl
    end.
    simpl in Hl. subst rout2. destruct Hrout as [l0 ->].
    destruct (_ || _).
    + exists (l ++ "/"%char :: l0). rewrite <- app_assoc. reflexivity.
    + exists (l ++ l0). rewrite <- app_assoc. reflexivity.
Qed.

Lemma Clean_absolute (path : string) :
  strings.HasPrefix path "/" = true ->
  strings.HasPrefix (filepath.Clean path) "/" = true.
Proof.
  unfold strings.HasPrefix. intros Hp.
  destruct path as [|c rest]; [discriminate|].
  cbn [String.prefix] in Hp.
  destruct (ascii_dec "/" c) as [<-|]; [|discriminate].
  unfold filepath.Clean.
  change (list_ascii_of_string (String "/" rest))
    with ("/"%char :: list_ascii_of_string rest).
  cbv beta iota zeta.
  change (filepath.isPathSeparator "/") with true. cbv iota.
  destruct (cleanLoop_rooted
              (length ("/"%char :: list_ascii_of_string rest))
              (list_ascii_of_string rest) ["/"%char]
              (ex_intro _ [] eq_refl)) as [l' Hl'].
  rewrite Hl'. destruct (l' ++ ["/"%char]) as [|x xs] eqn:Hx.
  - destruct l'; discriminate.
  - rewrite <- Hx, rev_app_distr.
    change (rev ["/"%char] ++ rev l') with ("/"%char :: rev l').
    change (string_of_list_ascii ("/"%char :: rev l'))
      with (String "/" (string_of_list_ascii (rev l'))).
    cbn [String.prefix].
    destruct (ascii_dec "/" "/") as [_|Hne]; [|contradiction].
    destruct (string_of_list_ascii (rev l')); reflexivity.
Qed.

(** X13. [PathOpen] refuses every absolute path: through a live directory
    that holds [PathOpenRight], a path that starts with [/] is answered
    with [EPERM], no host call is made and the provider is unchanged. *)
Theorem PathOpen_refuses_absolute_paths :
  forall (h : unix.Host) (p : Provider) (fd : Z) (lookupFlags : wasi.LookupFlags)
         (path : string) (openFlags : wasi.OpenFlags)
         (rightsBase rightsInheriting : wasi.Rights) (fdFlags : wasi.FDFlags)
         (d : loc),
    lookupFD p fd wasi.PathOpenRight = Found d ->
    strings.HasPrefix path "/" = true ->
    PathOpen h p fd lookupFlags path openFlags rightsBase rightsInheriting
      fdFlags = (p, (-1, wasi.EPERM)).
Proof.
  intros h p fd lf path ofl rb ri ff d Hl Habs.
  unfold PathOpen. rewrite Hl. cbv zeta.
  rewrite (Clean_absolute path Habs). reflexivity.
Qed.

Lemma PathOpen_refuses_absolute_paths_witness :
  PathOpen hostOK startProvider 3 0 "/tmp/../etc/passwd" 0 wasi.FDReadRight 0 0 =
  (startProvider, (-1, wasi.EPERM)).
Proof.
  apply (PathOpen_refuses_absolute_paths hostOK startProvider 3 0
           "/tmp/../etc/passwd" 0 wasi.FDReadRight 0 0 3%nat);
    vm_compute; reflexivity.
Defined.

(** *** The call to the host *)

(** X14. Whatever [PathOpen] asks of the host is one [openat] on the
    directory's handle, with the path as the guest gave it and a flags
    word that mirrors the request bit for bit: [O_CLOEXEC] always,
    [O_DIRECTORY], [O_CREAT], [O_EXCL], [O_TRUNC], [O_APPEND] and
    [O_NONBLOCK] exactly when the matching WASI flag is set, [O_NOFOLLOW]
    exactly when [SymlinkFollow] is not, the [O_DSYNC] bit when [DSync] or
    [Sync] is set and the further bit of [O_SYNC] when [Sync] is, the
    access mode chosen from the rights granted, and mode 0 for a directory
    and 0644 otherwise. *)
Theorem PathOpen_openat_flags :
  forall (h : unix.Host) (p : Provider) (fd : Z) (lookupFlags : wasi.LookupFlags)
         (path : string) (openFlags : wasi.OpenFlags)
         (rightsBase rightsInheriting : wasi.Rights) (fdFlags : wasi.FDFlags)
         (calls : list unix.Syscall),
    let r := PathOpen h p fd lookupFlags path openFlags rightsBase
               rightsInheriting fdFlags in
    syscalls (fst r) = syscalls p ++ calls ->
    calls <> [] ->
    exists d oflags mode,
      entry p fd = Some d /\
      calls = [unix.Openat (fdinfo.fd d) path oflags mode] /\
      Z.land oflags 3 =
        accessMode openFlags
          (grantedBase openFlags rightsBase
             (wasi.RightsInheriting (fdinfo.stat d))) /\
      Z.testbit oflags 6 = wasi.Has openFlags wasi.OpenCreate /\
      Z.testbit oflags 7 = wasi.Has openFlags wasi.OpenExclusive /\
      Z.testbit oflags 9 = wasi.Has openFlags wasi.OpenTruncate /\
      Z.testbit oflags 10 = wasi.Has fdFlags wasi.Append /\
      Z.testbit oflags 11 = wasi.Has fdFlags wasi.NonBlock /\
      Z.testbit oflags 12 = wasi.Has fdFlags wasi.DSync || wasi.Has fdFlags wasi.Sync /\
      Z.testbit oflags 16 = wasi.Has openFlags wasi.OpenDirectory /\
      Z.testbit oflags 17 = negb (wasi.Has lookupFlags wasi.SymlinkFollow) /\
      Z.testbit oflags 19 = true /\
      Z.testbit oflags 20 = wasi.Has fdFlags wasi.Sync /\
      mode = (if wasi.Has openFlags wasi.OpenDirectory then 0 else 420).
Proof.
  intros h p fd lf path ofl rb ri ff calls. cbv zeta. intros Hlog Hcalls.
  destruct (PathOpen_cases h p fd lf path ofl rb ri ff)
    as [(Hp & _)|(d & Hl & Hrest)].
  { exfalso. rewrite Hp in Hlog. apply Hcalls.
    apply (app_inv_head (syscalls p)). rewrite app_nil_r. symmetry. exact Hlog. }
  cbv zeta in Hrest.
  apply lookupFD_Found in Hl as [Hd _].
  set (granted := grantedBase ofl rb _) in *.
  set (oflags := Z.lor (openatBase lf ofl ff) (accessMode ofl granted)) in *.
  assert (Hcall : calls =
            [unix.Openat (fdinfo.fd (deref p d)) path oflags
               (if negb (Z.land oflags unix.O_DIRECTORY =? 0) then 0 else 420)]).
  { destruct Hrest as (_ & _ & _ & _ & _ & _ & [(err & _ & Hr)|(hostfd & _ & Hr)]);
      rewrite Hr in Hlog; simpl in Hlog;
      apply (app_inv_head (syscalls p)); symmetry; exact Hlog. }
  exists (deref p d), oflags,
    (if negb (Z.land oflags unix.O_DIRECTORY =? 0) then 0 else 420).
  split; [unfold entry; rewrite Hd; reflexivity|].
  split; [exact Hcall|].
  split; [apply openat_access_mode|].
  destruct (openatBase_bits lf ofl ff)
    as (_ & _ & B6 & B7 & B9 & B10 & B11 & B12 & B16 & B17 & B19 & B20).
  subst oflags.
  rewrite !Z.lor_spec, !(accessMode_small ofl granted) by lia.
  rewrite !orb_false_r, openat_isdir.
  repeat (split; [assumption|]). reflexivity.
Qed.

(** Creating a file for writing only, with [Append], without following
    symbolic links. *)
Lemma PathOpen_openat_flags_witness :
  syscalls (fst (PathOpen hostOK startProvider 3 0 "log" wasi.OpenCreate
                   wasi.FDWriteRight 0 wasi.Append)) =
  [unix.Openat 7 "log"
     (Z.lor (Z.lor (Z.lor (Z.lor unix.O_CLOEXEC unix.O_CREAT) unix.O_APPEND)
               unix.O_NOFOLLOW) unix.O_WRONLY)
     420].
Proof.
  destruct (PathOpen_openat_flags hostOK startProvider 3 0 "log" wasi.OpenCreate
              wasi.FDWriteRight 0 wasi.Append
              (syscalls (fst (PathOpen hostOK startProvider 3 0 "log"
                                wasi.OpenCreate wasi.FDWriteRight 0 wasi.Append)))
              ltac:(vm_compute; reflexivity) ltac:(vm_compute; discriminate))
    as (d & oflags & mode & _ & Hcalls & _).
  vm_compute. reflexivity.
Defined.

(** *** Directories *)

Lemma Has_andnot_self (x b : wasi.Rights) :
  b <> 0 -> wasi.Has (wasi.andnot x b) b = false.
Proof.
  intros Hb. unfold wasi.Has, wasi.andnot. apply Z.eqb_neq. intros Hc.
  apply Hb. rewrite <- Hc. apply Z.bits_inj'. intros n _.
  rewrite Z.land_spec, Z.ldiff_spec, Z.bits_0.
  destruct (Z.testbit x n), (Z.testbit b n); reflexivity.
Qed.

(** X15. A directory opened through [PathOpen] can never be seeked:
    whatever rights were requested, [FDSeek] on the descriptor returned by
    a successful [PathOpen] with [OpenDirectory] answers [ENOTCAPABLE]
    without a host call. *)
Theorem PathOpen_directory_not_seekable :
  forall (h h' : unix.Host) (p : Provider) (fd : Z)
         (lookupFlags : wasi.LookupFlags) (path : string)
         (openFlags : wasi.OpenFlags)
         (rightsBase rightsInheriting : wasi.Rights) (fdFlags : wasi.FDFlags)
         (delta : Z) (whence : wasi.Whence),
    let r := PathOpen h p fd lookupFlags path openFlags rightsBase
               rightsInheriting fdFlags in
    snd (snd r) = wasi.ESUCCESS ->
    wasi.Has openFlags wasi.OpenDirectory = true ->
    FDSeek h' (fst r) (fst (snd r)) delta whence =
    (fst r, (0, wasi.ENOTCAPABLE)).
Proof.
  intros h h' p fd lf path ofl rb ri ff delta whence. cbv zeta. intros Hok Hdir.
  destruct (PathOpen_cases h p fd lf path ofl rb ri ff)
    as [(_ & _ & [He|[He|He]])|(d & Hl & Hrest)];
    try (rewrite He in Hok; discriminate).
  cbv zeta in Hrest.
  destruct Hrest as (_ & _ & _ & _ & _ & _ & [(err & _ & Hr)|(hostfd & Hopen & Hr)]).
  { rewrite Hr in Hok. simpl in Hok. destruct (makeErrno_failure _ Hok). }
  rewrite Hr. simpl fst. simpl snd.
  unfold FDSeek, fdseek.
  rewrite (lookupFD_lacking _ (nextFD p) (fresh (dom (heap p))) wasi.FDSeekRight).
  - reflexivity.
  - simpl. apply lookup_insert_eq.
  - unfold deref. simpl. rewrite lookup_total_insert_eq. simpl.
    unfold grantedBase. rewrite Hdir. apply Has_andnot_self.
    vm_compute. discriminate.
Qed.

Lemma PathOpen_directory_not_seekable_witness :
  let r := PathOpen hostOK startProvider 3 0 "sub" wasi.OpenDirectory
             wasi.AllRights wasi.AllRights 0 in
  FDSeek hostOK (fst r) 4 0 wasi.SeekStart = (fst r, (0, wasi.ENOTCAPABLE)).
Proof.
  cbv zeta.
  apply (PathOpen_directory_not_seekable hostOK hostOK startProvider 3 0 "sub"
           wasi.OpenDirectory wasi.AllRights wasi.AllRights 0 0 wasi.SeekStart);
    vm_compute; reflexivity.
Defined.


(** ** What every reachable state satisfies *)

Lemma consistent_deref (p : Provider) (fd : Z) (f : loc) :
  consistent p -> fds p !! fd = Some f ->
  heap p !! f = Some (deref p f) /\
  subseteq (wasi.RightsBase (fdinfo.stat (deref p f))) wasi.AllRights /\
  subseteq (wasi.RightsInheriting (fdinfo.stat (deref p f))) wasi.AllRights.
Proof.
  intros (_ & Halloc & Hrights) Hf.
  destruct (Halloc fd f Hf) as [e He].
  assert (Hd : deref p f = e).
  { unfold deref. apply lookup_total_correct. exact He. }
  rewrite Hd. split; [exact He|]. exact (Hrights f e He).
Qed.

(** A step that touches neither the table nor the entries. *)
Lemma consistent_same (p p' : Provider) :
  fds p' = fds p -> preopens p' = preopens p -> heap p' = heap p ->
  consistent p -> consistent p'.
Proof.
  intros Hf Hp Hh (H1 & H2 & H3). unfold consistent, isPreopen, descriptor.Lookup.
  rewrite Hf, Hp, Hh. auto.
Qed.

(** A step that rewrites the entry of a live descriptor, keeping its
    rights within [AllRights]. *)
Lemma consistent_update (p p' : Provider) (fd : Z) (f : loc) (e' : fdinfo.t) :
  fds p' = fds p -> preopens p' = preopens p ->
  fds p !! fd = Some f ->
  heap p' = <[f := e']> (heap p) ->
  subseteq (wasi.RightsBase (fdinfo.stat e')) wasi.AllRights ->
  subseteq (wasi.RightsInheriting (fdinfo.stat e')) wasi.AllRights ->
  consistent p -> consistent p'.
Proof.
  intros Hf Hp Hfd Hh Hb Hi (H1 & H2 & H3).
  unfold consistent, isPreopen, descriptor.Lookup. rewrite Hf, Hp, Hh.
  split; [exact H1|]. split.
  - intros k g Hk. apply lookup_insert_is_Some'. right. eauto.
  - intros g e Hg. destruct (decide (f = g)) as [->|Hne].
    + rewrite lookup_insert_eq in Hg. injection Hg as <-. auto.
    + rewrite lookup_insert_ne in Hg by assumption. eauto.
Qed.

(** A step that adds an entry at a new address and a new descriptor. *)
Lemma consistent_insert (p p' : Provider) (fd : Z) (e : fdinfo.t) (mark : bool) :
  fds p' = <[fd := fresh (dom (heap p))]> (fds p) ->
  preopens p' = (if mark then <[fd := ()]> (preopens p) else preopens p) ->
  heap p' = <[fresh (dom (heap p)) := e]> (heap p) ->
  subseteq (wasi.RightsBase (fdinfo.stat e)) wasi.AllRights ->
  subseteq (wasi.RightsInheriting (fdinfo.stat e)) wasi.AllRights ->
  consistent p -> consistent p'.
Proof.
  intros Hf Hp Hh Hb Hi (H1 & H2 & H3).
  unfold consistent, isPreopen, descriptor.Lookup. rewrite Hf, Hp, Hh.
  split; [|split].
  - intros k Hk. apply lookup_insert_is_Some'.
    destruct (decide (fd = k)) as [->|Hne]; [left; reflexivity|]. right.
    apply H1. unfold isPreopen, descriptor.Lookup.
    destruct mark; [rewrite lookup_insert_ne in Hk by assumption|]; exact Hk.
  - intros k g Hk. apply lookup_insert_is_Some'.
    destruct (decide (fd = k)) as [->|Hne].
    + rewrite lookup_insert_eq in Hk. injection Hk as <-. left. reflexivity.
    + rewrite lookup_insert_ne in Hk by assumption. right. eauto.
  - intros g e0 Hg. destruct (decide (fresh (dom (heap p)) = g)) as [<-|Hne].
    + rewrite lookup_insert_eq in Hg. injection Hg as <-. auto.
    + rewrite lookup_insert_ne in Hg by assumption. eauto.
Qed.

Lemma Preopen_consistent (p : Provider) (hostfd : Z) (path : string)
    (fdstat : wasi.FDStat) :
  consistent p -> consistent (Preopen p hostfd path fdstat).
Proof.
  rewrite Preopen_eq. cbv zeta.
  intros Hc.
  eapply (consistent_insert p _ (nextFD p) _ true); try reflexivity;
    try exact Hc; simpl; apply land_subseteq_r.
Qed.

Lemma FDClose_consistent (h : unix.Host) (p : Provider) (fd : Z) :
  consistent p -> consistent (fst (FDClose h p fd)).
Proof.
  intros Hc. unfold FDClose.
  destruct (lookupFD p fd 0) as [f|errno]; [|exact Hc].
  destruct Hc as (H1 & H2 & H3).
  unfold consistent, isPreopen, descriptor.Lookup, descriptor.Delete. simpl.
  split; [|split].
  - intros k Hk. destruct (decide (fd = k)) as [->|Hne].
    + rewrite lookup_delete_eq in Hk. discriminate.
    + rewrite lookup_delete_ne by assumption.
      rewrite (lookup_delete_ne (preopens p) fd k Hne) in Hk. apply H1.
      unfold isPreopen, descriptor.Lookup. exact Hk.
  - intros k g Hk. destruct (decide (fd = k)) as [->|Hne].
    + rewrite lookup_delete_eq in Hk. discriminate.
    + rewrite lookup_delete_ne in Hk by assumption. eauto.
  - exact H3.
Qed.

Lemma FDStatSetFlags_consistent (h : unix.Host) (p : Provider) (fd : Z)
    (flags : wasi.FDFlags) :
  consistent p -> consistent (fst (FDStatSetFlags h p fd flags)).
Proof.
  intros Hc. unfold FDStatSetFlags.
  destruct (lookupFD p fd wasi.FDStatSetFlagsRight) as [f|errno] eqn:Hl;
    [|exact Hc].
  apply lookupFD_Found in Hl as [Hf _]. cbv zeta.
  destruct (_ =? 0); [exact Hc|].
  destruct (wasi.Has _ _); [exact Hc|].
  destruct (unix.fcntlInt h (syscalls p) _ unix.F_GETFL 0) as [err|fl];
    [exact (consistent_same p _ eq_refl eq_refl eq_refl Hc)|].
  match goal with
  | |- context [unix.fcntlInt h ?l ?a unix.F_SETFL ?b] =>
      destruct (unix.fcntlInt h l a unix.F_SETFL b) as [err|v]
  end; [exact (consistent_same p _ eq_refl eq_refl eq_refl Hc)|].
  destruct (consistent_deref p fd f Hc Hf) as (_ & Hb & Hi).
  simpl fst.
  eapply (consistent_update p _ fd f); try reflexivity; try exact Hc;
    try exact Hf; simpl; assumption.
Qed.

Lemma FDStatSetRights_consistent (p : Provider) (fd : Z) (rb ri : wasi.Rights) :
  consistent p -> consistent (fst (FDStatSetRights p fd rb ri)).
Proof.
  intros Hc. destruct (fds p !! fd) as [f|] eqn:Hf.
  - destruct (FDStatSetRights_cases p fd rb ri f Hf) as [(_ & _ & ->)|[_ ->]];
      [|exact Hc].
    simpl fst.
    eapply (consistent_update p _ fd f); try reflexivity; try exact Hc;
      try exact Hf; simpl; apply land_subseteq_r.
  - rewrite (FDStatSetRights_dead p fd rb ri Hf). exact Hc.
Qed.

Lemma FDRenumber_consistent (p : Provider) (from to : Z) :
  consistent p -> consistent (fst (FDRenumber p from to)).
Proof.
  intros Hc. unfold FDRenumber.
  destruct (isPreopen p from || isPreopen p to); [exact Hc|].
  destruct (lookupFD p from 0) as [f|errno] eqn:Hl; [|exact Hc].
  apply lookupFD_Found in Hl as [Hf _].
  assert (Hc' : consistent (setFds p (<[to := f]> (fds p)))).
  { destruct Hc as (H1 & H2 & H3).
    unfold consistent, isPreopen, descriptor.Lookup. simpl.
    split; [|split; [|exact H3]].
    - intros k Hk. apply lookup_insert_is_Some'. right. apply H1. exact Hk.
    - intros k g Hk. destruct (decide (to = k)) as [->|Hne].
      + rewrite lookup_insert_eq in Hk. injection Hk as <-. eauto.
      + rewrite lookup_insert_ne in Hk by assumption. eauto. }
  unfold descriptor.Assign.
  destruct (fds p !! to); [|exact Hc'].
  exact (consistent_same _ _ eq_refl eq_refl eq_refl Hc').
Qed.

Lemma fdseek_consistent (h : unix.Host) (p : Provider) (fd : Z)
    (rights : wasi.Rights) (delta : Z) (whence : wasi.Whence) :
  consistent p -> consistent (fst (fdseek h p fd rights delta whence)).
Proof.
  intros Hc. unfold fdseek.
  destruct (lookupFD p fd rights); [|exact Hc]. cbv zeta.
  destruct (whence =? wasi.SeekStart);
    [|destruct (whence =? wasi.SeekCurrent);
      [|destruct (whence =? wasi.SeekEnd); [|exact Hc]]].
  all: destruct (unix.lseek h _ _ _ _) as [off err];
    exact (consistent_same p _ eq_refl eq_refl eq_refl Hc).
Qed.

(** Reloading a listing rewrites the cached entries of [f] only. *)
Lemma reloadDirEntries_effect (h : unix.Host) (p : Provider) (f : loc) :
  let p1 := fst (reloadDirEntries h p f) in
  fds p1 = fds p /\ preopens p1 = preopens p /\
  (heap p1 = heap p \/
   exists e', heap p1 = <[f := e']> (heap p) /\
              fdinfo.stat e' = fdinfo.stat (deref p f)).
Proof.
  cbv zeta. unfold reloadDirEntries. cbv zeta.
  destruct (unix.readDir h (syscalls p) _) as [err|names]; simpl.
  - auto.
  - split; [reflexivity|]. split; [reflexivity|]. right.
    eexists. split; reflexivity.
Qed.

Lemma FDReadDir_consistent (h : unix.Host) (makeFileType : Z -> wasi.FileType)
    (sizeofDirEntry : Z) (p : Provider) (fd : Z)
    (buffer : list wasi.DirEntryName) (limit cookie : Z) :
  consistent p ->
  consistent (fst (FDReadDir h makeFileType sizeofDirEntry p fd buffer limit cookie)).
Proof.
  intros Hc. unfold FDReadDir.
  destruct (lookupFD p fd wasi.FDReadDirRight) as [f|errno] eqn:Hl; [|exact Hc].
  apply lookupFD_Found in Hl as [Hf _].
  assert (Hp1 : forall p1 : Provider,
             fds p1 = fds p -> preopens p1 = preopens p ->
             (heap p1 = heap p \/
              exists e', heap p1 = <[f := e']> (heap p) /\
                         fdinfo.stat e' = fdinfo.stat (deref p f)) ->
             consistent p1).
  { intros p1 H1 H2 [H3|(e' & H3 & Hs)].
    - exact (consistent_same p p1 H1 H2 H3 Hc).
    - destruct (consistent_deref p fd f Hc Hf) as (_ & Hb & Hi).
      apply (consistent_update p p1 fd f e' H1 H2 Hf H3);
        [rewrite Hs; exact Hb | rewrite Hs; exact Hi | exact Hc]. }
  assert (Hstart : consistent
            (fst (if cookie =? 0 then reloadDirEntries h p f else (p, None)))).
  { destruct (cookie =? 0); [|exact Hc].
    destruct (reloadDirEntries_effect h p f) as (H1 & H2 & H3).
    exact (Hp1 _ H1 H2 H3). }
  destruct (if cookie =? 0 then reloadDirEntries h p f else (p, None))
    as [p1 err]. simpl in Hstart.
  destruct err as [err|]; [exact Hstart|].
  destruct (cookie >? MaxInt); [exact Hstart|]. cbv zeta.
  destruct (readDirLoop _ _ _ _ _ _ _ _ _) as [log r].
  exact (consistent_same p1 _ eq_refl eq_refl eq_refl Hstart).
Qed.

Lemma grantedBase_within (ofl : wasi.OpenFlags) (rb inh : wasi.Rights) :
  subseteq (grantedBase ofl rb inh) wasi.AllRights.
Proof.
  unfold grantedBase. cbv zeta.
  assert (H : subseteq (Z.land (Z.land rb wasi.AllRights) inh) wasi.AllRights).
  { eapply subseteq_trans; [apply land_subseteq_l | apply land_subseteq_r]. }
  destruct (wasi.Has ofl wasi.OpenDirectory); [|exact H].
  eapply subseteq_trans; [apply andnot_subseteq_l | exact H].
Qed.

Lemma PathOpen_consistent (h : unix.Host) (p : Provider) (fd : Z)
    (lf : wasi.LookupFlags) (path : string) (ofl : wasi.OpenFlags)
    (rb ri : wasi.Rights) (ff : wasi.FDFlags) :
  consistent p -> consistent (fst (PathOpen h p fd lf path ofl rb ri ff)).
Proof.
  intros Hc.
  destruct (PathOpen_cases h p fd lf path ofl rb ri ff)
    as [(Hp & _)|(d & _ & Hrest)]; [rewrite Hp; exact Hc|].
  cbv zeta in Hrest.
  destruct Hrest as (_ & _ & _ & _ & _ & _ & [(err & _ & Hr)|(hostfd & _ & Hr)]);
    rewrite Hr; simpl fst.
  - exact (consistent_same p _ eq_refl eq_refl eq_refl Hc).
  - eapply (consistent_insert p _ (nextFD p) _ false); try reflexivity;
      try exact Hc; simpl.
    + apply grantedBase_within.
    + eapply subseteq_trans; [apply land_subseteq_l | apply land_subseteq_r].
Qed.

Lemma PollOneOff_frame (h : unix.Host) (p p' : Provider)
    (subscriptions : list wasi.Subscription) (events : list wasi.Event)
    (r : list wasi.Event * wasi.Errno) :
  PollOneOff h p subscriptions events = Returns (p', r) ->
  fds p' = fds p /\ preopens p' = preopens p /\ heap p' = heap p.
Proof.
  unfold PollOneOff.
  destruct subscriptions as [|s rest]; [intros [= <- _]; auto|].
  destruct (pollSubscriptions p (s :: rest) [] (-1)) as [pfds [errno|timeout]];
    [intros [= <- _]; auto|].
  cbv zeta. destruct pfds as [|pf pfds].
  - destruct (timeout >=? 0); [|intros [= <- _]; auto].
    destruct (unix.sleep h _ _); intros [= <- _]; auto.
  - destruct (unix.poll h _ _ _) as [err|[n revents]]; [intros [= <- _]; auto|].
    destruct (pollEvents _ _ _ _) as [events'|msg]; [|discriminate].
    destruct (negb _); [discriminate|]. intros [= <- _]. auto.
Qed.

Lemma SockAccept_consistent
    (accept : list unix.Syscall -> Z -> unix.error + Z)
    (setNonblock : list unix.Syscall -> Z -> bool -> option unix.error)
    (p : Provider) (fd : Z) (flags : wasi.FDFlags) :
  consistent p -> consistent (fst (SockAccept accept setNonblock p fd flags)).
Proof.
  intros Hc. unfold SockAccept.
  destruct (lookupSocketFD p fd wasi.SockAcceptRight) as [socket|errno] eqn:Hl;
    [|exact Hc].
  assert (Hf : fds p !! fd = Some socket).
  { unfold lookupSocketFD in Hl.
    destruct (lookupFD p fd wasi.SockAcceptRight) as [f|] eqn:Hl'; [|discriminate].
    apply lookupFD_Found in Hl' as [Hf _].
    destruct (wasi.StatFileType _); try discriminate; injection Hl as <-; exact Hf. }
  destruct (negb _); [exact Hc|]. cbv zeta.
  destruct (accept _ _) as [err|connfd]; [exact Hc|].
  destruct (setNonblock _ _ _) as [err|].
  - exact (consistent_same p _ eq_refl eq_refl eq_refl Hc).
  - destruct (consistent_deref p fd socket Hc Hf) as (_ & _ & Hi).
    simpl fst.
    eapply (consistent_insert p _ (nextFD p) _ false); try reflexivity;
      try exact Hc; simpl; exact Hi.
Qed.

Lemma Close_consistent (p : Provider) : consistent p -> consistent (Close p).
Proof.
  intros (_ & _ & H3).
  unfold consistent, Close, isPreopen, descriptor.Lookup, descriptor.Reset. simpl.
  split; [|split; [|exact H3]].
  - intros k Hk. rewrite lookup_empty in Hk. discriminate.
  - intros k g Hk. rewrite lookup_empty in Hk. discriminate.
Qed.

Lemma step_consistent (p p' : Provider) :
  step p p' -> consistent p -> consistent p'.
Proof.
  intros Hstep Hc. destruct Hstep.
  - apply Preopen_consistent; exact Hc.
  - apply FDClose_consistent; exact Hc.
  - apply FDStatSetFlags_consistent; exact Hc.
  - apply FDStatSetRights_consistent; exact Hc.
  - apply FDRenumber_consistent; exact Hc.
  - apply fdseek_consistent; exact Hc.
  - apply fdseek_consistent; exact Hc.
  - apply FDReadDir_consistent; exact Hc.
  - apply PathOpen_consistent; exact Hc.
  - match goal with
    | H : PollOneOff _ _ _ _ = Returns _ |- _ =>
        destruct (PollOneOff_frame _ _ _ _ _ _ H) as (H1 & H2 & H3)
    end.
    exact (consistent_same _ _ H1 H2 H3 Hc).
  - apply SockAccept_consistent; exact Hc.
  - apply Close_consistent; exact Hc.
Qed.

Lemma reachable_consistent (p : Provider) : reachable p -> consistent p.
Proof.
  induction 1 as [|p p' _ IH Hstep].
  - unfold consistent, emptyProvider, isPreopen, descriptor.Lookup. simpl.
    split; [|split]; intros *; rewrite lookup_empty; discriminate.
  - exact (step_consistent p p' Hstep IH).
Qed.

Lemma startProvider_reachable : reachable startProvider.
Proof.
  unfold startProvider.
  repeat (eapply reachable_step; [|apply step_Preopen]).
  apply reachable_zero.
Qed.

(** X16. In every state a provider can reach, each descriptor marked as a
    pre-open is live: no operation leaves a pre-open mark behind on a
    closed or overwritten descriptor. *)
Theorem reachable_preopens_are_live :
  forall (p : Provider) (fd : Z),
    reachable p -> isPreopen p fd = true ->
    exists e, entry p fd = Some e.
Proof.
  intros p fd Hr Hpre.
  destruct (reachable_consistent p Hr) as (H1 & _).
  destruct (H1 fd Hpre) as [f Hf].
  exists (deref p f). unfold entry. rewrite Hf. reflexivity.
Qed.

Lemma reachable_preopens_are_live_witness :
  exists e, entry startProvider 3 = Some e.
Proof.
  apply (reachable_preopens_are_live startProvider 3 startProvider_reachable).
  vm_compute. reflexivity.
Defined.

(** X17. In every state a provider can reach, the base and inheriting
    rights of every live descriptor lie within [AllRights]: whatever words
    the embedder and the guest pass, no entry ever holds a bit that names
    no right. *)
Theorem reachable_rights_within_AllRights :
  forall (p : Provider) (fd : Z) (e : fdinfo.t),
    reachable p -> entry p fd = Some e ->
    subseteq (wasi.RightsBase (fdinfo.stat e)) wasi.AllRights /\
    subseteq (wasi.RightsInheriting (fdinfo.stat e)) wasi.AllRights.
Proof.
  intros p fd e Hr He.
  apply entry_Some in He as (f & Hf & ->).
  destruct (consistent_deref p fd f (reachable_consistent p Hr) Hf) as (_ & H).
  exact H.
Qed.

(** A file pre-opened with a word that has every bit set. *)
Lemma reachable_rights_within_AllRights_witness :
  let p := Preopen emptyProvider 5 "/srv"
             (wasi.mkFDStat wasi.DirectoryType 0 (-1) (-1)) in
  let e := fdinfo.mk "/srv" 5
             (wasi.mkFDStat wasi.DirectoryType 0 wasi.AllRights wasi.AllRights)
             [] in
  entry p 0 = Some e /\
  subseteq (wasi.RightsBase (fdinfo.stat e)) wasi.AllRights /\
  subseteq (wasi.RightsInheriting (fdinfo.stat e)) wasi.AllRights.
Proof.
  cbv zeta.
  assert (He : entry (Preopen emptyProvider 5 "/srv"
                        (wasi.mkFDStat wasi.DirectoryType 0 (-1) (-1))) 0 =
               Some (fdinfo.mk "/srv" 5
                       (wasi.mkFDStat wasi.DirectoryType 0 wasi.AllRights
                          wasi.AllRights) [])).
  { vm_compute. reflexivity. }
  split; [exact He|].
  apply (reachable_rights_within_AllRights _ 0 _
           (reachable_step _ _ reachable_zero (step_Preopen _ _ _ _)) He).
Defined.

(** *** Opening, then closing *)

(** X18. In a state the provider can reach, closing the descriptor that a
    successful [PathOpen] returned gives back the table as it was: the
    descriptor is free again and is the next to be handed out, the
    pre-open set is untouched, and the host has seen the [openat] followed
    by the close of the handle it returned. *)
Theorem PathOpen_then_FDClose :
  forall (h h' : unix.Host) (p : Provider) (fd : Z)
         (lookupFlags : wasi.LookupFlags) (path : string)
         (openFlags : wasi.OpenFlags)
         (rightsBase rightsInheriting : wasi.Rights) (fdFlags : wasi.FDFlags),
    let r := PathOpen h p fd lookupFlags path openFlags rightsBase
               rightsInheriting fdFlags in
    let p'' := fst (FDClose h' (fst r) (fst (snd r))) in
    reachable p ->
    snd (snd r) = wasi.ESUCCESS ->
    fds p'' = fds p /\
    preopens p'' = preopens p /\
    nextFD p'' = nextFD p /\
    exists d oflags mode hostfd,
      entry p fd = Some d /\
      unix.openat h (syscalls p) (fdinfo.fd d) path oflags mode = inr hostfd /\
      syscalls p'' =
        syscalls p ++ [unix.Openat (fdinfo.fd d) path oflags mode;
                       unix.Close hostfd].
Proof.
  intros h h' p fd lf path ofl rb ri ff. cbv zeta. intros Hreach Hok.
  destruct (reachable_consistent p Hreach) as (Hpre & _).
  destruct (nextFD_spec p) as (_ & Hfree & _).
  assert (Hnp : preopens p !! nextFD p = None).
  { destruct (preopens p !! nextFD p) as [u|] eqn:Hu; [|reflexivity].
    exfalso. destruct (Hpre (nextFD p)) as [x Hx].
    - unfold isPreopen, descriptor.Lookup. rewrite Hu. reflexivity.
    - rewrite Hfree in Hx. discriminate. }
  destruct (PathOpen_cases h p fd lf path ofl rb ri ff)
    as [(_ & _ & [He|[He|He]])|(d & Hl & Hrest)];
    try (rewrite He in Hok; discriminate).
  cbv zeta in Hrest.
  destruct Hrest as (_ & _ & _ & _ & _ & _ & [(err & _ & Hr)|(hostfd & Hopen & Hr)]).
  { rewrite Hr in Hok. simpl in Hok. destruct (makeErrno_failure _ Hok). }
  apply lookupFD_Found in Hl as [Hd _].
  rewrite Hr. simpl fst. simpl snd.
  unfold FDClose.
  rewrite (lookupFD_no_rights _ (nextFD p) (fresh (dom (heap p))))
    by (simpl; apply lookup_insert_eq).
  cbv zeta. unfold descriptor.Delete, setFds, setPreopens, called, deref.
  cbn [fst snd fds preopens heap syscalls pollfds].
  rewrite (delete_insert_id (fds p) _ _ Hfree), (delete_id _ _ Hnp).
  split; [reflexivity|]. split; [reflexivity|].
  split; [reflexivity|].
  eexists (heap p !!! d), _, _, hostfd.
  split; [unfold entry; rewrite Hd; reflexivity|].
  split; [exact Hopen|].
  rewrite lookup_total_insert_eq. cbn [fdinfo.fd].
  rewrite <- app_assoc. reflexivity.
Qed.

Lemma PathOpen_then_FDClose_witness :
  let r := PathOpen hostOK startProvider 3 0 "x" 0 wasi.FDReadRight 0 0 in
  fds (fst (FDClose hostOK (fst r) (fst (snd r)))) = fds startProvider.
Proof.
  cbv zeta.
  destruct (PathOpen_then_FDClose hostOK hostOK startProvider 3 0 "x" 0
              wasi.FDReadRight 0 0 startProvider_reachable
              ltac:(vm_compute; reflexivity)) as (Hfds & _).
  exact Hfds.
Defined.

(** ** Sockets *)

Lemma lookupSocketFD_Found (p : Provider) (fd : Z) (rights : wasi.Rights) (f : loc) :
  lookupSocketFD p fd rights = Found f ->
  fds p !! fd = Some f /\
  wasi.Has (wasi.RightsBase (fdinfo.stat (deref p f))) rights = true /\
  (wasi.StatFileType (fdinfo.stat (deref p f)) = wasi.SocketStreamType \/
   wasi.StatFileType (fdinfo.stat (deref p f)) = wasi.SocketDGramType).
Proof.
  unfold lookupSocketFD.
  destruct (lookupFD p fd rights) as [g|] eqn:Hl; [|discriminate].
  apply lookupFD_Found in Hl as [Hf Hr].
  destruct (wasi.StatFileType (fdinfo.stat (deref p g))) eqn:Ht;
    try discriminate; intros [= <-]; rewrite Ht; auto.
Qed.

Lemma lookupSocketFD_Failed (p : Provider) (fd : Z) (rights : wasi.Rights)
    (errno : wasi.Errno) :
  lookupSocketFD p fd rights = Failed errno ->
  errno = wasi.EBADF \/ errno = wasi.ENOTCAPABLE \/ errno = wasi.ENOTSOCK.
Proof.
  unfold lookupSocketFD.
  destruct (lookupFD p fd rights) as [g|e] eqn:Hl.
  - destruct (wasi.StatFileType _); intros [= <-]; auto.
  - intros [= <-]. apply lookupFD_Failed in Hl as [->| ->]; auto.
Qed.

(** A word with no bit but that of [NonBlock] is 0 or [NonBlock]. *)
Lemma only_NonBlock (flags : Z) :
  Z.land flags (Z.lnot wasi.NonBlock) = 0 ->
  flags = 0 \/ flags = wasi.NonBlock.
Proof.
  intros H.
  assert (Hbits : forall n, 0 <= n -> n <> 2 -> Z.testbit flags n = false).
  { intros n Hn Hne.
    assert (Hb : Z.testbit (Z.land flags (Z.lnot wasi.NonBlock)) n = false)
      by (rewrite H; apply Z.bits_0).
    rewrite Z.land_spec, Z.lnot_spec in Hb by assumption.
    change wasi.NonBlock with (2 ^ 2) in Hb.
    rewrite Z.pow2_bits_eqb in Hb by lia.
    destruct (Z.eqb_spec 2 n) as [E|_]; [congruence|].
    simpl in Hb. rewrite andb_true_r in Hb. exact Hb. }
  destruct (Z.testbit flags 2) eqn:H2.
  - right. apply Z.bits_inj'. intros n Hn.
    change wasi.NonBlock with (2 ^ 2). rewrite Z.pow2_bits_eqb by lia.
    destruct (Z.eqb_spec 2 n) as [E|Hne]; [rewrite <- E; exact H2|].
    apply Hbits; [assumption | congruence].
  - left. apply Z.bits_inj'. intros n Hn. rewrite Z.bits_0.
    destruct (Z.eq_dec n 2) as [->|Hne]; [exact H2 | auto].
Qed.

(** X19. A successful [SockAccept] registers the connection the host
    accepted at the smallest free descriptor, as a stream socket whose
    base and inheriting rights are both the inheriting rights of the
    listening socket and whose flags are the requested ones, which can
    only be none or [NonBlock]; the listening descriptor is a socket that
    holds [SockAcceptRight], and no handle is closed. *)
Theorem SockAccept_registers_connection :
  forall (accept : list unix.Syscall -> Z -> unix.error + Z)
         (setNonblock : list unix.Syscall -> Z -> bool -> option unix.error)
         (p : Provider) (fd : Z) (flags : wasi.FDFlags),
    let r := SockAccept accept setNonblock p fd flags in
    snd (snd r) = wasi.ESUCCESS ->
    exists sock connfd,
      entry p fd = Some sock /\
      wasi.Has (wasi.RightsBase (fdinfo.stat sock)) wasi.SockAcceptRight = true /\
      (wasi.StatFileType (fdinfo.stat sock) = wasi.SocketStreamType \/
       wasi.StatFileType (fdinfo.stat sock) = wasi.SocketDGramType) /\
      (flags = 0 \/ flags = wasi.NonBlock) /\
      accept (syscalls p) (fdinfo.fd sock) = inr connfd /\
      fst (snd r) = nextFD p /\
      entry (fst r) (nextFD p) =
        Some (fdinfo.mk "" connfd
                (wasi.mkFDStat wasi.SocketStreamType flags
                   (wasi.RightsInheriting (fdinfo.stat sock))
                   (wasi.RightsInheriting (fdinfo.stat sock)))
                []) /\
      (forall fd', fd' <> nextFD p -> fds (fst r) !! fd' = fds p !! fd') /\
      syscalls (fst r) = syscalls p.
Proof.
  intros accept setNonblock p fd flags. cbv zeta. unfold SockAccept.
  destruct (lookupSocketFD p fd wasi.SockAcceptRight) as [s|errno] eqn:Hl.
  2:{ simpl. intros ->.
      apply lookupSocketFD_Failed in Hl as [Hl|[Hl|Hl]]; discriminate. }
  apply lookupSocketFD_Found in Hl as (Hf & Hr & Ht).
  destruct (Z.eqb_spec (Z.land flags (Z.lnot wasi.NonBlock)) 0) as [Hfl|Hfl];
    simpl negb; cbv iota; [|discriminate].
  cbv zeta.
  destruct (accept (syscalls p) (fdinfo.fd (deref p s))) as [err|connfd] eqn:Hacc.
  { simpl. intros Hc. destruct (makeErrno_failure _ Hc). }
  destruct (setNonblock _ _ _) as [err|].
  { simpl. intros Hc. destruct (makeErrno_failure _ Hc). }
  intros _. exists (deref p s), connfd.
  split; [unfold entry; rewrite Hf; reflexivity|].
  split; [exact Hr|]. split; [exact Ht|].
  split; [apply only_NonBlock; exact Hfl|].
  split; [exact Hacc|]. split; [reflexivity|].
  split.
  { unfold entry, deref. simpl. rewrite lookup_insert_eq. simpl.
    rewrite lookup_total_insert_eq. reflexivity. }
  split; [|reflexivity].
  intros fd' Hne. simpl. apply lookup_insert_ne.
  intros E. apply Hne. symmetry. exact E.
Qed.

(** Accepting on the listening socket of [socketProvider]. *)
Lemma SockAccept_registers_connection_witness :
  let r := SockAccept acceptOK setNonblockOK socketProvider 4 wasi.NonBlock in
  fst (snd r) = 5 /\
  entry (fst r) 5 =
    Some (fdinfo.mk "" 200
            (wasi.mkFDStat wasi.SocketStreamType wasi.NonBlock
               (Z.lor wasi.FDReadRight wasi.FDWriteRight)
               (Z.lor wasi.FDReadRight wasi.FDWriteRight))
            []).
Proof.
  cbv zeta.
  destruct (SockAccept_registers_connection acceptOK setNonblockOK socketProvider
              4 wasi.NonBlock ltac:(vm_compute; reflexivity))
    as (sock & connfd & Hs & _ & _ & _ & Hacc & Hfd & He & _).
  assert (Hnext : nextFD socketProvider = 5) by (vm_compute; reflexivity).
  rewrite Hnext in Hfd, He.
  split; [exact Hfd|].
  vm_compute in Hs. injection Hs as <-.
  vm_compute in Hacc. injection Hacc as <-.
  exact He.
Defined.

(** X20. A [SockAccept] that fails leaks nothing: it returns descriptor
    -1, the table and the entries are as before, and if the host had
    already accepted a connection, which then could not be switched to
    the requested blocking mode, the handle of that connection has been
    closed. *)
Theorem SockAccept_failure_leaks_nothing :
  forall (accept : list unix.Syscall -> Z -> unix.error + Z)
         (setNonblock : list unix.Syscall -> Z -> bool -> option unix.error)
         (p : Provider) (fd : Z) (flags : wasi.FDFlags),
    let r := SockAccept accept setNonblock p fd flags in
    snd (snd r) <> wasi.ESUCCESS ->
    fst (snd r) = -1 /\
    fds (fst r) = fds p /\ preopens (fst r) = preopens p /\
    heap (fst r) = heap p /\
    forall s connfd,
      lookupSocketFD p fd wasi.SockAcceptRight = Found s ->
      Z.land flags (Z.lnot wasi.NonBlock) = 0 ->
      accept (syscalls p) (fdinfo.fd (deref p s)) = inr connfd ->
      syscalls (fst r) = syscalls p ++ [unix.Close connfd].
Proof.
  intros accept setNonblock p fd flags. cbv zeta. unfold SockAccept.
  destruct (lookupSocketFD p fd wasi.SockAcceptRight) as [s|errno] eqn:Hl.
  2:{ simpl. intros _. repeat split. intros s connfd Hs. discriminate. }
  destruct (Z.eqb_spec (Z.land flags (Z.lnot wasi.NonBlock)) 0) as [Hfl|Hfl];
    simpl negb; cbv iota.
  2:{ simpl. intros _. repeat split. intros s' connfd _ Hz. contradiction. }
  cbv zeta.
  destruct (accept (syscalls p) (fdinfo.fd (deref p s))) as [err|connfd] eqn:Hacc.
  { simpl. intros _. repeat split. intros s' connfd' [= <-] _ Hacc'.
    rewrite Hacc in Hacc'. discriminate. }
  destruct (setNonblock _ _ _) as [err|].
  - simpl. intros _. repeat split. intros s' connfd' [= <-] _ Hacc'.
    rewrite Hacc in Hacc'. injection Hacc' as <-. reflexivity.
  - simpl. intros Hc. contradiction.
Qed.

Lemma SockAccept_failure_leaks_nothing_witness :
  let r := SockAccept acceptOK setNonblockFails socketProvider 4 0 in
  fds (fst r) = fds socketProvider /\
  syscalls (fst r) = syscalls socketProvider ++ [unix.Close 200].
Proof.
  cbv zeta.
  destruct (SockAccept_failure_leaks_nothing acceptOK setNonblockFails
              socketProvider 4 0 ltac:(vm_compute; discriminate))
    as (_ & Hfds & _ & _ & Hclose).
  split; [exact Hfds|].
  apply (Hclose 4%nat 200); vm_compute; reflexivity.
Defined.

(** X21. [SockRecv] and [SockSend] are not implemented: on a socket that
    holds the right they need they return [ENOSYS], on anything else the
    error of the lookup; they never return [ESUCCESS], never transfer a
    byte and never change the provider. *)
Theorem SockRecv_SockSend_not_implemented :
  forall (p : Provider) (fd : Z) (iovecs : list wasi.IOVec) (flags : Z),
    let recv := SockRecv p fd iovecs flags in
    let send := SockSend p fd iovecs flags in
    fst recv = p /\ fst send = p /\
    fst (fst (snd recv)) = 0 /\ fst (snd send) = 0 /\
    snd (snd recv) <> wasi.ESUCCESS /\ snd (snd send) <> wasi.ESUCCESS /\
    (forall s, lookupSocketFD p fd wasi.FDReadRight = Found s ->
               snd (snd recv) = wasi.ENOSYS) /\
    (forall s, lookupSocketFD p fd wasi.FDWriteRight = Found s ->
               snd (snd send) = wasi.ENOSYS).
Proof.
  intros p fd iovecs flags. cbv zeta. unfold SockRecv, SockSend.
  destruct (lookupSocketFD p fd wasi.FDReadRight) as [s|e1] eqn:H1;
    destruct (lookupSocketFD p fd wasi.FDWriteRight) as [s'|e2] eqn:H2; simpl.
  all: repeat split; try discriminate; try reflexivity.
  all: try (intros ->;
            match goal with
            | H : lookupSocketFD _ _ _ = Failed wasi.ESUCCESS |- _ =>
                apply lookupSocketFD_Failed in H as [H|[H|H]]; discriminate
            end).
Qed.

(** ** Symbolic links *)


(** ** Closing the provider *)

Lemma Range_elem (t : gmap Z loc) (fd : Z) (f : loc) :
  (fd, f) ∈ Range t <-> t !! fd = Some f.
Proof.
  unfold Range. rewrite merge_sort_Permutation. apply elem_of_map_to_list.
Qed.

Lemma Range_length (t : gmap Z loc) : length (Range t) = size t.
Proof.
  unfold Range. rewrite merge_sort_Permutation. apply length_map_to_list.
Qed.

(** X23. [Close] releases everything: it closes the host handle of every
    live descriptor, one host close per descriptor and nothing else, and
    leaves a provider in which every descriptor is dead, nothing is a
    pre-open, and the next descriptor handed out is 0. *)
Theorem Close_releases_everything :
  forall (p : Provider),
    let p' := Close p in
    (forall fd rights, lookupFD p' fd rights = Failed wasi.EBADF) /\
    (forall fd, isPreopen p' fd = false) /\
    nextFD p' = 0 /\
    exists closes,
      syscalls p' = syscalls p ++ closes /\
      length closes = size (fds p) /\
      (forall fd e, entry p fd = Some e -> unix.Close (fdinfo.fd e) ∈ closes) /\
      (forall c, c ∈ closes ->
                 exists fd e, entry p fd = Some e /\ c = unix.Close (fdinfo.fd e)).
Proof.
  intros p. cbv zeta. unfold Close.
  split.
  { intros fd rights. apply lookupFD_dead. simpl. apply lookup_empty. }
  split.
  { intros fd. unfold isPreopen, descriptor.Lookup, descriptor.Reset. simpl.
    rewrite lookup_empty. reflexivity. }
  split; [reflexivity|].
  eexists. split; [reflexivity|].
  split; [rewrite length_map; apply Range_length|].
  split.
  - intros fd e He. apply entry_Some in He as (f & Hf & ->).
    apply list_elem_of_fmap. exists (fd, f).
    split; [reflexivity | apply Range_elem; exact Hf].
  - intros c Hc. apply list_elem_of_fmap in Hc as ([fd f] & -> & Hin).
    apply Range_elem in Hin. exists fd, (deref p f).
    split; [unfold entry; rewrite Hin|]; reflexivity.
Qed.

(** ** [FDReadDir], again *)




(** ** [PollOneOff], again *)

(** The second loop only ever appends, one event at most for each
    descriptor subscription, tagged with its user data and event type. *)
Lemma pollEvents_extends (pfds : list unix.PollFd) :
  forall (subs : list wasi.Subscription) (j : nat) (events events' : list wasi.Event),
    pollEvents subs pfds j events = Returns events' ->
    exists new,
      events' = events ++ new /\
      (length new <= countFD subs)%nat /\
      Forall (fun e => exists s, s ∈ subs /\ isFDSubscription s /\
                         wasi.EvUserData e = wasi.UserData s /\
                         wasi.EvEventType e = wasi.SubEventType s) new.
Proof.
  induction subs as [|s subs IH]; intros j events events' Hrun; simpl in Hrun.
  - injection Hrun as <-. exists []. rewrite app_nil_r.
    split; [reflexivity|]. split; [simpl; lia | constructor].
  - assert (Hweaken : forall new : list wasi.Event,
               Forall (fun e => exists s0, s0 ∈ subs /\ isFDSubscription s0 /\
                                  wasi.EvUserData e = wasi.UserData s0 /\
                                  wasi.EvEventType e = wasi.SubEventType s0) new ->
               Forall (fun e => exists s0, s0 ∈ s :: subs /\ isFDSubscription s0 /\
                                  wasi.EvUserData e = wasi.UserData s0 /\
                                  wasi.EvEventType e = wasi.SubEventType s0) new).
    { intros new HF. apply (Forall_impl _ _ _ HF). intros e (s0 & Hin & Hrest).
      exists s0. split; [apply list_elem_of_further; exact Hin | exact Hrest]. }
    simpl countFD.
    destruct (decide (wasi.SubEventType s = wasi.ClockEvent)) as [Hty|Hty].
    + destruct (IH _ _ _ Hrun) as (new & -> & Hlen & Hall).
      exists new. auto.
    + destruct (pfds !! j) as [pf|]; [|discriminate].
      destruct (unix.Revents pf =? 0).
      * destruct (IH _ _ _ Hrun) as (new & -> & Hlen & Hall).
        exists new. split; [reflexivity|]. split; [lia | auto].
      * destruct (IH _ _ _ Hrun) as (new & -> & Hlen & Hall).
        exists (makeEvent s pf :: new).
        split; [rewrite <- app_assoc; reflexivity|].
        split; [simpl; lia|].
        constructor; [|auto].
        exists s. split; [apply list_elem_of_here|]. split; [exact Hty|].
        split; reflexivity.
Qed.

(** X25. [PollOneOff] only ever appends to the events it is given: when
    it returns, the list it hands back starts with the given list, the
    events after it are at most one for each descriptor subscription, each
    carrying the user data and event type of such a subscription, and none
    at all unless the call returns [ESUCCESS]; the table and the entries of
    the provider are untouched. *)
Theorem PollOneOff_keeps_given_events :
  forall (h : unix.Host) (p p' : Provider)
         (subscriptions : list wasi.Subscription)
         (events events' : list wasi.Event) (errno : wasi.Errno),
    PollOneOff h p subscriptions events = Returns (p', (events', errno)) ->
    fds p' = fds p /\ preopens p' = preopens p /\ heap p' = heap p /\
    exists new,
      events' = events ++ new /\
      (errno <> wasi.ESUCCESS -> new = []) /\
      (length new <= countFD subscriptions)%nat /\
      Forall (fun e => exists s, s ∈ subscriptions /\ isFDSubscription s /\
                         wasi.EvUserData e = wasi.UserData s /\
                         wasi.EvEventType e = wasi.SubEventType s) new.
Proof.
  intros h p p' subs events events' errno Hrun.
  destruct (PollOneOff_frame _ _ _ _ _ _ Hrun) as (H1 & H2 & H3).
  split; [exact H1|]. split; [exact H2|]. split; [exact H3|].
  assert (Hnone : forall e : wasi.Errno,
             exists new : list wasi.Event,
               events = events ++ new /\
               (e <> wasi.ESUCCESS -> new = []) /\
               (length new <= countFD subs)%nat /\
               Forall (fun e => exists s, s ∈ subs /\ isFDSubscription s /\
                                  wasi.EvUserData e = wasi.UserData s /\
                                  wasi.EvEventType e = wasi.SubEventType s) new).
  { intros e. exists []. rewrite app_nil_r.
    split; [reflexivity|]. split; [reflexivity|].
    split; [simpl; lia | constructor]. }
  unfold PollOneOff in Hrun.
  destruct subs as [|s rest]; [injection Hrun as _ <- <-; apply Hnone|].
  destruct (pollSubscriptions p (s :: rest) [] (-1)) as [pfds [e|timeout]];
    [injection Hrun as _ <- <-; apply Hnone|].
  cbv zeta in Hrun. destruct pfds as [|pf pfds].
  - destruct (timeout >=? 0); [|injection Hrun as _ <- <-; apply Hnone].
    destruct (unix.sleep h _ _); injection Hrun as _ <- <-; apply Hnone.
  - destruct (unix.poll h _ _ _) as [err|[n revents]];
      [injection Hrun as _ <- <-; apply Hnone|].
    destruct (pollEvents _ _ _ _) as [evs|msg] eqn:Hev; [|discriminate].
    destruct (negb _); [discriminate|]. injection Hrun as _ <- <-.
    destruct (pollEvents_extends _ _ _ _ _ Hev) as (new & -> & Hlen & Hall).
    exists new. split; [reflexivity|]. split; [intros Hc; contradiction|].
    auto.
Qed.

(** Polling the standard input with an empty list of events. *)
Lemma PollOneOff_keeps_given_events_witness :
  exists p' new,
    PollOneOff hostOK startProvider [readStdin] [] =
      Returns (p', ([] ++ new, wasi.ESUCCESS)) /\
    (length new <= 1)%nat.
Proof.
  assert (Hex : exists p',
             PollOneOff hostOK startProvider [readStdin] [] =
             Returns (p', ([wasi.mkEvent 1 wasi.ESUCCESS wasi.FDReadEvent 1 0],
                           wasi.ESUCCESS)))
    by (eexists; vm_compute; reflexivity).
  destruct Hex as [p' Hrun].
  destruct (PollOneOff_keeps_given_events _ _ _ _ _ _ _ Hrun)
    as (_ & _ & _ & new & Hnew & _ & Hlen & _).
  exists p', new. rewrite <- Hnew. split; [exact Hrun | exact Hlen].
Defined.





(** ** [FDRenumber], again *)

Lemma FDStatSetRights_fds (p : Provider) (fd : Z) (rb ri : wasi.Rights) :
  fds (fst (FDStatSetRights p fd rb ri)) = fds p.
Proof.
  destruct (fds p !! fd) as [f|] eqn:Hf.
  - destruct (FDStatSetRights_cases p fd rb ri f Hf) as [(_ & _ & ->)|[_ ->]];
      reflexivity.
  - rewrite (FDStatSetRights_dead p fd rb ri Hf). reflexivity.
Qed.

(** X27. After [FDRenumber] the two descriptors are two names of one
    entry: when [from] is live, the descriptors differ and neither is a
    pre-open, whatever [FDStatSetRights] then does through [to] shows
    through [from] as well, and closing [to] closes the host handle but
    leaves [from] live, still naming an entry with that handle. *)
Theorem FDRenumber_leaves_alias :
  forall (h : unix.Host) (p : Provider) (from to : Z) (f : loc)
         (rb ri : wasi.Rights),
    fds p !! from = Some f ->
    from <> to ->
    isPreopen p from = false -> isPreopen p to = false ->
    let p1 := fst (FDRenumber p from to) in
    let p2 := fst (FDStatSetRights p1 to rb ri) in
    let p3 := fst (FDClose h p1 to) in
    entry p1 from = entry p1 to /\
    entry p2 from = entry p2 to /\
    (snd (FDStatSetRights p1 to rb ri) = wasi.ESUCCESS ->
     exists e, entry p2 from = Some e /\
               wasi.RightsBase (fdinfo.stat e) = Z.land rb wasi.AllRights) /\
    entry p3 to = None /\
    entry p3 from = Some (deref p f) /\
    exists calls,
      syscalls p3 = calls ++ [unix.Close (fdinfo.fd (deref p f))].
Proof.
  intros h p from to f rb ri Hf Hne Hpf Hpt. cbv zeta.
  assert (Hren : exists log,
             fst (FDRenumber p from to) =
             mkProvider (<[to := f]> (fds p)) (preopens p) (pollfds p) (heap p) log).
  { unfold FDRenumber. rewrite Hpf, Hpt, (lookupFD_no_rights _ _ _ Hf). simpl.
    unfold descriptor.Assign. destruct (fds p !! to); simpl; eauto. }
  destruct Hren as [log ->].
  set (p1 := mkProvider _ _ _ _ log).
  assert (Hto : fds p1 !! to = Some f) by apply lookup_insert_eq.
  assert (Hfrom : fds p1 !! from = Some f).
  { subst p1. simpl. rewrite lookup_insert_ne by congruence. exact Hf. }
  assert (Halias : forall q : Provider, fds q = fds p1 -> entry q from = entry q to).
  { intros q Hq. unfold entry. rewrite Hq, Hto, Hfrom. reflexivity. }
  split; [apply Halias; reflexivity|].
  split; [apply Halias, FDStatSetRights_fds|].
  split.
  { intros Hok. rewrite (Halias _ (FDStatSetRights_fds p1 to rb ri)).
    destruct (FDStatSetRights_success p1 to rb ri Hok) as (g & Hg & _ & _ & ->).
    rewrite Hto in Hg. injection Hg as <-.
    eexists. split.
    - unfold entry. rewrite fds_store, Hto. simpl. rewrite deref_store. reflexivity.
    - reflexivity. }
  unfold FDClose. rewrite (lookupFD_no_rights p1 to f Hto). cbv zeta.
  unfold entry, descriptor.Delete, setFds, setPreopens, called, deref.
  cbn [fst fds preopens heap syscalls pollfds p1].
  rewrite lookup_delete_eq, lookup_delete_ne by congruence.
  rewrite lookup_insert_ne by congruence. rewrite Hf.
  split; [reflexivity|]. split; [reflexivity|]. eauto.
Qed.

(** Renumbering 4 onto 5 in [twoFilesProvider], then closing 5. *)
Lemma FDRenumber_leaves_alias_witness :
  let p1 := fst (FDRenumber twoFilesProvider 4 5) in
  entry (fst (FDClose hostOK p1 5)) 4 = Some (deref twoFilesProvider 4%nat) /\
  fdinfo.fd (deref twoFilesProvider 4%nat) = 100.
Proof.
  cbv zeta.
  destruct (FDRenumber_leaves_alias hostOK twoFilesProvider 4 5 4%nat 0 0
              ltac:(vm_compute; reflexivity) ltac:(lia)
              ltac:(vm_compute; reflexivity) ltac:(vm_compute; reflexivity))
    as (_ & _ & _ & _ & Hlive & _).
  split; [exact Hlive | vm_compute; reflexivity].
Defined.

(** ** Clocks *)

(** X28. [ClockResGet] and [ClockTimeGet] agree on the clocks there are:
    the resolution is available exactly for [Realtime] and [Monotonic],
    the time only for these; for every other id both return 0 with the
    same error, [ENOTSUP] for the two CPU-time clocks and [EINVAL] for an
    id that names no clock; a clock whose function is not set answers
    [ENOTSUP]; and the precision argument has no effect. *)
Theorem clocks_agree_on_ids :
  forall (c : Clocks) (p : Provider) (id : wasi.ClockID) (precision : Z),
    let res := ClockResGet c id in
    let time := ClockTimeGet c p id precision in
    (snd res = wasi.ESUCCESS <-> id = wasi.Realtime \/ id = wasi.Monotonic) /\
    (snd time = wasi.ESUCCESS -> snd res = wasi.ESUCCESS) /\
    (snd res <> wasi.ESUCCESS -> time = res) /\
    (snd res = wasi.ENOTSUP <->
     id = wasi.ProcessCPUTimeID \/ id = wasi.ThreadCPUTimeID) /\
    (snd res = wasi.EINVAL <-> ~ 0 <= id <= 3) /\
    (id = wasi.Realtime -> Realtime c = None -> time = (0, wasi.ENOTSUP)) /\
    (id = wasi.Monotonic -> Monotonic c = None -> time = (0, wasi.ENOTSUP)) /\
    (forall precision', ClockTimeGet c p id precision' = time).
Proof.
  intros c p id precision. cbv zeta. unfold ClockResGet, ClockTimeGet.
  change wasi.Realtime with 0. change wasi.Monotonic with 1.
  change wasi.ProcessCPUTimeID with 2. change wasi.ThreadCPUTimeID with 3.
  destruct (Z.eqb_spec id 0) as [->|H0].
  { simpl. repeat split; try tauto; try discriminate; try lia; auto.
    - intros _ ->. reflexivity. }
  destruct (Z.eqb_spec id 1) as [->|H1].
  { simpl. repeat split; try tauto; try discriminate; try lia; auto.
    - intros _ ->. reflexivity. }
  destruct (Z.eqb_spec id 2) as [->|H2].
  { simpl. repeat split; try tauto; try discriminate; try lia; auto. }
  destruct (Z.eqb_spec id 3) as [->|H3].
  { simpl. repeat split; try tauto; try discriminate; try lia; auto. }
  simpl. repeat split; try tauto; try discriminate; try lia; auto.
  all: try (intros [Hc|Hc]; congruence).
Qed.

(** * Properties of the request registry *)

Lemma uint32_small (z : Z) : 0 <= z < 2 ^ 32 -> wasiunix.uint32 z = z.
Proof. intros Hz. unfold wasiunix.uint32. apply Z.mod_small. exact Hz. Qed.

Lemma GetRequest_assign_eq (r : types.requests) (id : Z)
    (f : types.Request -> types.Request) :
  types.GetRequest (types.assign r id f) id = f <$> types.GetRequest r id.
Proof. unfold types.GetRequest, types.assign. simpl. apply lookup_alter_eq. Qed.

Lemma GetRequest_assign_ne (r : types.requests) (id k : Z)
    (f : types.Request -> types.Request) :
  k <> id -> types.GetRequest (types.assign r id f) k = types.GetRequest r k.
Proof.
  intros Hne. unfold types.GetRequest, types.assign. simpl.
  apply lookup_alter_ne. congruence.
Qed.

(** What [newRequest] does to a registry whose handles lie below its
    base, while the base can still grow. *)
Lemma newRequest_spec (r : types.requests) :
  types.handlesBelowBase r ->
  types.requestIdBase r < 2 ^ 32 - 1 ->
  let id := types.requestIdBase r + 1 in
  types.newRequest r =
    (types.mkRequests (<[id := types.zeroRequest]> (types.requests' r)) id, id) /\
  types.GetRequest r id = None.
Proof.
  intros [Hbase Hlive] Hroom. cbv zeta. split.
  - unfold types.newRequest. rewrite uint32_small by lia. reflexivity.
  - unfold types.GetRequest.
    destruct (types.requests' r !! (types.requestIdBase r + 1)) as [q|] eqn:Hq;
      [|reflexivity].
    destruct (Hlive (types.requestIdBase r + 1)) as [_ Hle]; [eauto | lia].
Qed.

(** X29. While the counter of the registry is below 2^32 - 1,
    [newRequest] hands out a handle that is new: one more than the last,
    never 0, not in use before, and from then on naming an empty request,
    with every other handle untouched; deleting it again gives back the
    map of requests as it was, but not the handle, which is not handed
    out a second time. *)
Theorem newRequest_hands_out_new_handles :
  forall (r : types.requests),
    types.handlesBelowBase r ->
    types.requestIdBase r < 2 ^ 32 - 1 ->
    let r' := fst (types.newRequest r) in
    let id := snd (types.newRequest r) in
    let r'' := types.deleteRequest r' id in
    id = types.requestIdBase r + 1 /\ id <> 0 /\
    types.GetRequest r id = None /\
    types.GetRequest r' id = Some types.zeroRequest /\
    (forall k, k <> id -> types.GetRequest r' k = types.GetRequest r k) /\
    types.handlesBelowBase r' /\
    types.requests' r'' = types.requests' r /\
    types.handlesBelowBase r'' /\
    snd (types.newRequest r'') <> id.
Proof.
  intros r Hwf Hroom. cbv zeta.
  destruct (newRequest_spec r Hwf Hroom) as [-> Hfree].
  destruct Hwf as [Hbase Hlive]. simpl fst. simpl snd.
  assert (Hwf' : types.handlesBelowBase
            (types.mkRequests
               (<[types.requestIdBase r + 1 := types.zeroRequest]>
                  (types.requests' r))
               (types.requestIdBase r + 1))).
  { split; simpl; [lia|]. intros k Hk.
    apply lookup_insert_is_Some' in Hk as [<-|Hk]; [lia|].
    specialize (Hlive k Hk). lia. }
  split; [reflexivity|]. split; [lia|]. split; [exact Hfree|].
  split; [unfold types.GetRequest; simpl; apply lookup_insert_eq|].
  split.
  { intros k Hne. unfold types.GetRequest. simpl.
    apply lookup_insert_ne. congruence. }
  split; [exact Hwf'|].
  split.
  { unfold types.deleteRequest. simpl. apply delete_insert_id. exact Hfree. }
  split.
  { split; simpl; [lia|]. intros k Hk.
    rewrite (delete_insert_id _ _ _ Hfree) in Hk.
    specialize (Hlive k Hk). lia. }
  unfold types.newRequest, types.deleteRequest. simpl.
  destruct (Z.eq_dec (types.requestIdBase r + 1) (2 ^ 32 - 1)) as [E|E].
  - rewrite E. vm_compute. discriminate.
  - rewrite uint32_small by lia. lia.
Qed.

(** The registry as the package starts with hands out 2 first. *)
Lemma newRequest_hands_out_new_handles_witness :
  snd (types.newRequest types.r) = 2 /\
  types.GetRequest (fst (types.newRequest types.r)) 2 = Some types.zeroRequest.
Proof.
  assert (Hwf : types.handlesBelowBase types.r).
  { split; [simpl; lia|]. intros k [q Hq]. simpl in Hq.
    rewrite lookup_empty in Hq. discriminate. }
  destruct (newRequest_hands_out_new_handles types.r Hwf ltac:(simpl; lia))
    as (Hid & _ & _ & Hget & _).
  rewrite Hid in Hget |- *. split; [reflexivity | exact Hget].
Defined.


Lemma methodName_None (method : Z) :
  types.methodName method = None <-> ~ 0 <= method <= 8.
Proof.
  destruct method as [|q|q].
  - simpl. split; [discriminate | lia].
  - destruct q as [[[[q|q|]|[q|q|]|]|[[q|q|]|[q|q|]|]|]
                  |[[[q|q|]|[q|q|]|]|[[q|q|]|[q|q|]|]|]|];
      simpl; split; try discriminate; try reflexivity; lia.
  - simpl. split; [lia | reflexivity].
Qed.

Lemma GetRequest_new (t : gmap Z types.Request) (id base : Z) (q : types.Request) :
  types.GetRequest (types.mkRequests (<[id := q]> t) base) id = Some q.
Proof. unfold types.GetRequest. simpl. apply lookup_insert_eq. Qed.

(** X30. [newOutgoingRequestFn] registers the request before it reads
    anything. With a method code outside 0 to 8 it ends the process;
    otherwise it returns the new handle or 0, and in both cases the
    registry then holds a request with the method's name under the new
    handle: the request of a call that returns 0 stays in the registry
    under a handle the guest never learns. When the call returns the
    handle, the path, the query and the authority are what the guest
    memory holds, the headers are the handle passed in, no body is
    attached, and the scheme is [https] unless the guest asked for [http]
    or gave its own. *)
Theorem newOutgoingRequestFn_registers_first :
  forall (Read : Z -> Z -> option string) (r : types.requests)
         (method method_ptr method_len path_ptr path_len query_ptr query_len
          scheme_is_some scheme scheme_ptr scheme_len
          authority_ptr authority_len header_handle : Z),
    types.handlesBelowBase r ->
    types.requestIdBase r < 2 ^ 32 - 1 ->
    let id := types.requestIdBase r + 1 in
    let result :=
      types.newOutgoingRequestFn Read r method method_ptr method_len
        path_ptr path_len query_ptr query_len scheme_is_some scheme
        scheme_ptr scheme_len authority_ptr authority_len header_handle in
    (~ 0 <= method <= 8 -> exists msg, result = types.Fatal msg) /\
    (0 <= method <= 8 ->
     exists r' ret q,
       result = types.Done (r', ret) /\
       (ret = 0 \/ ret = id) /\
       types.GetRequest r id = None /\
       types.GetRequest r' id = Some q /\
       types.methodName method = Some (types.Method q) /\
       (forall k, k <> id -> types.GetRequest r' k = types.GetRequest r k) /\
       (ret = id ->
        Read (wasiunix.uint32 path_ptr) (wasiunix.uint32 path_len) =
          Some (types.Path q) /\
        Read (wasiunix.uint32 query_ptr) (wasiunix.uint32 query_len) =
          Some (types.Query q) /\
        Read (wasiunix.uint32 authority_ptr) (wasiunix.uint32 authority_len) =
          Some (types.Authority q) /\
        types.Headers q = header_handle /\
        types.BodyBuffer q = None /\
        if (scheme_is_some =? 1) && (scheme =? 2)
        then Read (wasiunix.uint32 scheme_ptr) (wasiunix.uint32 scheme_len) =
               Some (types.Scheme q)
        else types.Scheme q =
               if (scheme_is_some =? 1) && (scheme =? 0)
               then "http"%string else "https"%string)).
Proof.
  intros Read r method method_ptr method_len path_ptr path_len query_ptr
    query_len sis scheme scheme_ptr scheme_len authority_ptr authority_len
    header_handle Hwf Hroom. cbv zeta.
  destruct (newRequest_spec r Hwf Hroom) as [Hnew Hfree].
  destruct Hwf as [Hbase _].
  unfold types.newOutgoingRequestFn. rewrite Hnew.
  split.
  { intros Hm. apply methodName_None in Hm. rewrite Hm. eauto. }
  intros Hm.
  destruct (types.methodName method) as [name|] eqn:Hname.
  2:{ apply methodName_None in Hname. contradiction. }
  set (id := types.requestIdBase r + 1) in *.
  assert (Hid : 0 <> id) by (subst id; lia).
  unfold types.readAuthority.
  destruct (Read (wasiunix.uint32 path_ptr) (wasiunix.uint32 path_len))
    as [path|] eqn:Hpath.
  2:{ eexists _, 0, _. split; [reflexivity|]. split; [auto|].
      split; [exact Hfree|].
      split; [rewrite GetRequest_assign_eq, GetRequest_new; reflexivity|].
      split; [reflexivity|].
      split; [|intros Hc; contradiction].
      intros k Hk. rewrite GetRequest_assign_ne by assumption.
      unfold types.GetRequest. simpl. apply lookup_insert_ne. congruence. }
  destruct (Read (wasiunix.uint32 query_ptr) (wasiunix.uint32 query_len))
    as [query|] eqn:Hquery.
  2:{ eexists _, 0, _. split; [reflexivity|]. split; [auto|].
      split; [exact Hfree|].
      split; [rewrite !GetRequest_assign_eq, GetRequest_new; reflexivity|].
      split; [reflexivity|].
      split; [|intros Hc; contradiction].
      intros k Hk. rewrite !GetRequest_assign_ne by assumption.
      unfold types.GetRequest. simpl. apply lookup_insert_ne. congruence. }
  cbv zeta.
  destruct (sis =? 1); simpl andb; cbv iota.
  - destruct (scheme =? 2) eqn:H2.
    + assert (H0 : (scheme =? 0) = false).
      { apply Z.eqb_eq in H2. subst scheme. reflexivity. }
      rewrite H0.
      destruct (Read (wasiunix.uint32 scheme_ptr) (wasiunix.uint32 scheme_len))
        as [d|] eqn:Hscheme.
      * destruct (Read (wasiunix.uint32 authority_ptr)
                    (wasiunix.uint32 authority_len)) as [authority|] eqn:Hauth.
        -- eexists _, id, _. split; [reflexivity|]. split; [auto|].
           split; [exact Hfree|].
           split; [rewrite !GetRequest_assign_eq, GetRequest_new; reflexivity|].
           split; [reflexivity|]. split.
           { intros k Hk. rewrite !GetRequest_assign_ne by assumption.
             unfold types.GetRequest. simpl. apply lookup_insert_ne. congruence. }
           intros _. simpl. auto 10.
        -- eexists _, 0, _. split; [reflexivity|]. split; [auto|].
           split; [exact Hfree|].
           split; [rewrite !GetRequest_assign_eq, GetRequest_new; reflexivity|].
           split; [reflexivity|].
           split; [|intros Hc; contradiction].
           intros k Hk. rewrite !GetRequest_assign_ne by assumption.
           unfold types.GetRequest. simpl. apply lookup_insert_ne. congruence.
      * eexists _, 0, _. split; [reflexivity|]. split; [auto|].
        split; [exact Hfree|].
        split; [rewrite !GetRequest_assign_eq, GetRequest_new; reflexivity|].
        split; [reflexivity|].
        split; [|intros Hc; contradiction].
        intros k Hk. rewrite !GetRequest_assign_ne by assumption.
        unfold types.GetRequest. simpl. apply lookup_insert_ne. congruence.
    + destruct (Read (wasiunix.uint32 authority_ptr)
                  (wasiunix.uint32 authority_len)) as [authority|] eqn:Hauth.
      * destruct (scheme =? 0).
        all: eexists _, id, _; split; [reflexivity|]; split; [auto|];
          split; [exact Hfree|];
          (split; [rewrite !GetRequest_assign_eq, GetRequest_new; reflexivity|]);
          (split; [reflexivity|]); split;
          [ intros k Hk; rewrite !GetRequest_assign_ne by assumption;
            unfold types.GetRequest; simpl; apply lookup_insert_ne; congruence
          | intros _; simpl; auto 10 ].
      * destruct (scheme =? 0).
        all: eexists _, 0, _; split; [reflexivity|]; split; [auto|];
          split; [exact Hfree|];
          (split; [rewrite !GetRequest_assign_eq, GetRequest_new; reflexivity|]);
          (split; [reflexivity|]); split;
          [ intros k Hk; rewrite !GetRequest_assign_ne by assumption;
            unfold types.GetRequest; simpl; apply lookup_insert_ne; congruence
          | intros Hc; contradiction ].
  - destruct (Read (wasiunix.uint32 authority_ptr)
                (wasiunix.uint32 authority_len)) as [authority|] eqn:Hauth.
    + eexists _, id, _. split; [reflexivity|]. split; [auto|].
      split; [exact Hfree|].
      split; [rewrite !GetRequest_assign_eq, GetRequest_new; reflexivity|].
      split; [reflexivity|]. split.
      { intros k Hk. rewrite !GetRequest_assign_ne by assumption.
        unfold types.GetRequest. simpl. apply lookup_insert_ne. congruence. }
      intros _. simpl. auto 10.
    + eexists _, 0, _. split; [reflexivity|]. split; [auto|].
      split; [exact Hfree|].
      split; [rewrite !GetRequest_assign_eq, GetRequest_new; reflexivity|].
      split; [reflexivity|].
      split; [|intros Hc; contradiction].
      intros k Hk. rewrite !GetRequest_assign_ne by assumption.
      unfold types.GetRequest. simpl. apply lookup_insert_ne. congruence.
Qed.

(** A request to [example.org/] whose authority lies outside the guest
    memory: the call returns 0 and the registry keeps a [GET] request
    under handle 2. *)
Lemma newOutgoingRequestFn_registers_first_witness :
  exists r' q,
    types.newOutgoingRequestFn types.sampleRead types.r
      0 0 0 11 1 0 0 0 0 0 0 70000 11 9 = types.Done (r', 0) /\
    types.GetRequest r' 2 = Some q /\
    types.Method q = "GET"%string.
Proof.
  assert (Hwf : types.handlesBelowBase types.r).
  { split; [simpl; lia|]. intros k [q Hq]. simpl in Hq.
    rewrite lookup_empty in Hq. discriminate. }
  destruct (newOutgoingRequestFn_registers_first types.sampleRead types.r
              0 0 0 11 1 0 0 0 0 0 0 70000 11 9 Hwf ltac:(simpl; lia))
    as (_ & Hret).
  destruct (Hret ltac:(lia)) as (r' & ret & q & Hres & _ & _ & Hget & Hname & _).
  assert (Hzero : ret = 0).
  { vm_compute in Hres. injection Hres as _ <-. reflexivity. }
  subst ret. exists r', q. split; [exact Hres|]. split; [exact Hget|].
  simpl in Hname. injection Hname as <-. reflexivity.
Defined.
